(** * Wispr Flow recap scripts: aggregation and period resolution

    A shallow embedding of [scripts/daily-recap.js], the weekly script that
    follows it in the same file, and [scripts/monthly-recap.js].

    The scripts are plain Node.js programs.  What they compute depends on a
    few rules of the language that are easy to overlook, so the first part
    of this file ([Module JS]) writes those rules down:

    - an object used as a map lists its own keys with the canonical array
      indices first, in ascending numeric order, and the other keys in
      creation order ([Object.entries]);
    - a property read on [{}] falls back to [Object.prototype];
    - [Array.prototype.sort] is stable;
    - a [Date] is a number of milliseconds since the epoch in UTC; the
      constructor with numeric fields, [getDay], [getDate], [getHours] and
      [setDate] work in local time, [toISOString] works in UTC.

    Numbers are modelled as mathematical integers ([Z]), where the
    scripts compute in double precision.  Counts are lengths of arrays
    and are exact.  Sums of words are exact as long as the absolute values
    of the numbers added stay below 2^53 in total ([Spec.mass],
    [Spec.wordsMass]), and a rounded average as long as they stay below
    2^52 (see [Math_round_div]); every statement about words or about an
    average of words carries that bound.  The percentages are evaluated
    in double precision (section [Percentages]).  The [duration] column is
    a real number that no statement below depends on and is left out of
    the row record. *)

From Stdlib Require Import ZArith NArith List String Ascii Bool Lia.
From Stdlib Require Import DecimalString Decimal DecimalN.
From Stdlib Require Import Permutation Sorted QArith Qround.
From Stdlib Require Import Floats Uint63.
Import ListNotations.

Local Open Scope string_scope.
Local Open Scope Z_scope.

(* ================================================================== *)
(** ** The fragment of JavaScript the scripts rely on *)
(* ================================================================== *)

Module JS.

(** *** Strings *)

(** [String(n)] for a non-negative integer. *)
Definition String_of_N (n : N) : string :=
  NilEmpty.string_of_uint (N.to_uint n).

(** Decimal digits only; the empty string gives [Some 0] as [Number("")]
    does.  Any other text is outside the modelled fragment of [Number]. *)
Definition digits_to_N (s : string) : option N :=
  option_map N.of_uint (NilEmpty.uint_of_string s).

(** [s.padStart(len, fill)] for a one-character [fill]. *)
Fixpoint repeat_char (c : ascii) (n : nat) : string :=
  match n with
  | O => EmptyString
  | S n' => String c (repeat_char c n')
  end.

Definition padStart (len : nat) (fill : ascii) (s : string) : string :=
  repeat_char fill (len - String.length s) ++ s.

(** [s.slice(0, n)]. *)
Definition slice0 (n : nat) (s : string) : string := substring 0 n s.

(** [s.split(sep)] for a one-character separator: never empty. *)
Fixpoint split (sep : ascii) (s : string) : list string :=
  match s with
  | EmptyString => [EmptyString]
  | String c rest =>
      if Ascii.eqb c sep then EmptyString :: split sep rest
      else match split sep rest with
           | [] => [String c EmptyString]
           | hd :: tl => String c hd :: tl
           end
  end.

(** [s.replace(/-/g, " ")]. *)
Fixpoint replace_hyphens (s : string) : string :=
  match s with
  | EmptyString => EmptyString
  | String c rest =>
      String (if Ascii.eqb c "-"%char then " "%char else c)
             (replace_hyphens rest)
  end.

(** *** Objects used as maps *)

(** Own enumerable properties, in creation order. *)
Definition obj (V : Type) : Type := list (string * V).

(** The members every [{}] inherits from [Object.prototype]. *)
Definition objectPrototypeKeys : list string :=
  [ "constructor"; "__defineGetter__"; "__defineSetter__";
    "hasOwnProperty"; "__lookupGetter__"; "__lookupSetter__";
    "isPrototypeOf"; "propertyIsEnumerable"; "toString"; "valueOf";
    "__proto__"; "toLocaleString" ].

Definition mem (k : string) (l : list string) : bool :=
  existsb (String.eqb k) l.

Definition inherited (k : string) : bool := mem k objectPrototypeKeys.

Fixpoint getOwn {V} (o : obj V) (k : string) : option V :=
  match o with
  | [] => None
  | (k', v) :: rest => if String.eqb k k' then Some v else getOwn rest k
  end.

Definition hasOwn {V} (o : obj V) (k : string) : bool :=
  match getOwn o k with Some _ => true | None => false end.

(** [o[k] = v]: an existing own property keeps its place, a new one is
    created after all the others. *)
Fixpoint setOwn {V} (o : obj V) (k : string) (v : V) : obj V :=
  match o with
  | [] => [(k, v)]
  | (k', v') :: rest =>
      if String.eqb k k' then (k', v) :: rest
      else (k', v') :: setOwn rest k v
  end.

(** A canonical array index: the decimal text of an integer in
    [0, 2^32 - 2] with no sign, no leading zero, nothing else. *)
Definition arrayIndex (k : string) : option N :=
  match digits_to_N k with
  | Some n =>
      if (String.eqb (String_of_N n) k && (n <=? 4294967294)%N)%bool
      then Some n else None
  | None => None
  end.

Definition isIndex (k : string) : bool :=
  match arrayIndex k with Some _ => true | None => false end.

Definition indexOr0 (k : string) : N :=
  match arrayIndex k with Some n => n | None => 0%N end.

(** Insertion of an integer-keyed property among those already in
    ascending order. *)
Fixpoint insertIndexed {V} (e : string * V) (l : list (string * V))
  : list (string * V) :=
  match l with
  | [] => [e]
  | e' :: rest =>
      if (indexOr0 (fst e) <=? indexOr0 (fst e'))%N then e :: l
      else e' :: insertIndexed e rest
  end.

Definition sortIndexed {V} (l : list (string * V)) : list (string * V) :=
  fold_right insertIndexed [] l.

(** [Object.entries(o)]: integer keys ascending, then the rest in
    creation order. *)
Definition entries {V} (o : obj V) : list (string * V) :=
  sortIndexed (filter (fun e => isIndex (fst e)) o)
  ++ filter (fun e => negb (isIndex (fst e))) o.

(** *** [Array.prototype.sort] with a comparator

    The sort is stable: [a] moves behind [b] only when
    [cmp a b > 0]. *)
Section Sort.
Context {A : Type} (cmp : A -> A -> Z).

Fixpoint insertSorted (x : A) (l : list A) : list A :=
  match l with
  | [] => [x]
  | y :: rest =>
      if 0 <? cmp x y then y :: insertSorted x rest
      else x :: l
  end.

Definition sort (l : list A) : list A := fold_right insertSorted [] l.
End Sort.

(** *** [Math.round] of a quotient of integers

    [Math.round(x)] is [floor(x + 1/2)].  For [a / b] with [b > 0] that
    is [floor((2a + b) / 2b)].  The script rounds the double-precision
    quotient.  That rounds the same way as the exact one as long as the
    absolute value of [a] stays below 2^52 (a half integer is a double,
    and no other quotient with denominator [b] is closer to one than
    [1/2b]); the definition is the script's value in that range only.
    From 2^52 on the two differ: the double nearest to
    9007199254740991 / 3 is 3002399751580330.5, which [Math.round] takes
    to 3002399751580331, where the exact quotient rounds to
    3002399751580330. *)
Definition Math_round_div (a b : Z) : Z := (2 * a + b) / (2 * b).

End JS.

(* ================================================================== *)
(** ** Dates *)
(* ================================================================== *)

(** Time values are milliseconds since 1970-01-01T00:00:00Z.  The local
    time zone is a fixed offset [tza] in milliseconds east of UTC (the
    zone's rules for daylight saving are not modelled: the scripts only
    convert instants that lie within one week or one month of each other,
    and the statements below say which offsets they cover). *)

Module Date.
Import JS.

Definition msPerDay : Z := 86400000.
Definition msPerHour : Z := 3600000.
Definition msPerMinute : Z := 60000.
Definition msPerSecond : Z := 1000.

Definition Day (t : Z) : Z := t / msPerDay.
Definition TimeWithinDay (t : Z) : Z := t mod msPerDay.

Definition isLeap (y : Z) : bool :=
  (y mod 4 =? 0) && (negb (y mod 100 =? 0) || (y mod 400 =? 0)).

Definition DaysInYear (y : Z) : Z := if isLeap y then 366 else 365.

Definition DayFromYear (y : Z) : Z :=
  365 * (y - 1970) + (y - 1969) / 4 - (y - 1901) / 100 + (y - 1601) / 400.

(** The year a day number falls in: the largest [y] with
    [DayFromYear y <= d] (see [YearFromDay_spec]). *)
Definition YearFromDay (d : Z) : Z :=
  let y := 1970 + (400 * d) / 146097 in
  if d <? DayFromYear y then y - 1
  else if DayFromYear (y + 1) <=? d then y + 1
  else y.

Definition DayWithinYear (d : Z) : Z := d - DayFromYear (YearFromDay d).

(** Days of the year before month [m] (0 = January). *)
Definition daysBeforeMonth (leap : bool) (m : Z) : Z :=
  let l := if leap then 1 else 0 in
  match m with
  | 0 => 0
  | 1 => 31
  | 2 => 59 + l
  | 3 => 90 + l
  | 4 => 120 + l
  | 5 => 151 + l
  | 6 => 181 + l
  | 7 => 212 + l
  | 8 => 243 + l
  | 9 => 273 + l
  | 10 => 304 + l
  | 11 => 334 + l
  | _ => 365 + l
  end.

Definition monthOfDayInYear (leap : bool) (dwy : Z) : Z :=
  if dwy <? daysBeforeMonth leap 1 then 0
  else if dwy <? daysBeforeMonth leap 2 then 1
  else if dwy <? daysBeforeMonth leap 3 then 2
  else if dwy <? daysBeforeMonth leap 4 then 3
  else if dwy <? daysBeforeMonth leap 5 then 4
  else if dwy <? daysBeforeMonth leap 6 then 5
  else if dwy <? daysBeforeMonth leap 7 then 6
  else if dwy <? daysBeforeMonth leap 8 then 7
  else if dwy <? daysBeforeMonth leap 9 then 8
  else if dwy <? daysBeforeMonth leap 10 then 9
  else if dwy <? daysBeforeMonth leap 11 then 10
  else 11.

(** 0 = January. *)
Definition MonthFromDay (d : Z) : Z :=
  monthOfDayInYear (isLeap (YearFromDay d)) (DayWithinYear d).

(** 1-based day of the month. *)
Definition DateFromDay (d : Z) : Z :=
  DayWithinYear d
  - daysBeforeMonth (isLeap (YearFromDay d)) (MonthFromDay d) + 1.

(** 0 = Sunday. *)
Definition WeekDay (d : Z) : Z := (d + 4) mod 7.

Definition daysInMonth (y m : Z) : Z :=
  daysBeforeMonth (isLeap y) (m + 1) - daysBeforeMonth (isLeap y) m.

(** [MakeDay(year, month, date)]: months and dates outside their usual
    range carry over, which is what [setDate] and day 0 rely on. *)
Definition MakeDay (year month date : Z) : Z :=
  let ym := year + month / 12 in
  let mn := month mod 12 in
  DayFromYear ym + daysBeforeMonth (isLeap ym) mn + date - 1.

Definition MakeDate (day time : Z) : Z := day * msPerDay + time.

Definition TimeClip (t : Z) : option Z :=
  if Z.abs t <=? 8640000000000000 then Some t else None.

Section Zone.
Variable tza : Z.

Definition LocalTime (t : Z) : Z := t + tza.
Definition UTC (t : Z) : Z := t - tza.

(** [new Date(year, monthIndex, day)]: local midnight; a year from 0 to
    99 means 1900 + year. *)
Definition fromFields (year month date : Z) : option Z :=
  let yr := if (0 <=? year) && (year <=? 99) then 1900 + year else year in
  TimeClip (UTC (MakeDate (MakeDay yr month date) 0)).

Definition getDay (t : Z) : Z := WeekDay (Day (LocalTime t)).
Definition getDate (t : Z) : Z := DateFromDay (Day (LocalTime t)).
Definition getHours (t : Z) : Z :=
  (LocalTime t / msPerHour) mod 24.

(** [d.setDate(dt)] *)
Definition setDate (t : Z) (dt : Z) : option Z :=
  let lt := LocalTime t in
  let day := MakeDay (YearFromDay (Day lt)) (MonthFromDay (Day lt)) dt in
  TimeClip (UTC (MakeDate day (TimeWithinDay lt))).
End Zone.

(** The date part of [toISOString]: four digits for the years 0 to 9999,
    a sign and six digits otherwise. *)
Definition isoYear (y : Z) : string :=
  if (0 <=? y) && (y <=? 9999)
  then padStart 4 "0" (String_of_N (Z.to_N y))
  else (if y <? 0 then "-" else "+")
       ++ padStart 6 "0" (String_of_N (Z.to_N (Z.abs y))).

Definition pad2 (n : Z) : string :=
  padStart 2 "0" (String_of_N (Z.to_N n)).

Definition isoDateOfDay (d : Z) : string :=
  isoYear (YearFromDay d) ++ "-" ++ pad2 (MonthFromDay d + 1)
  ++ "-" ++ pad2 (DateFromDay d).

(** [d.toISOString().slice(0, 10)] *)
Definition toISOString_slice10 (t : Z) : string :=
  slice0 10 (isoDateOfDay (Day t)).

(** *** Parsing

    [YYYY-MM-DDTHH:mm:ss] with every field in range is the one form the
    language fixes: it denotes local time.  The result is the local time
    value.  Anything else gives [None] here and is left to the engine
    (see [implParse] below). *)
Definition field (s : string) (start len : nat) : option Z :=
  let f := substring start len s in
  if (String.length f =? len)%nat
  then option_map Z.of_N (digits_to_N f) else None.

Definition charAt (s : string) (i : nat) : option ascii := String.get i s.

Definition isChar (s : string) (i : nat) (c : ascii) : bool :=
  match charAt s i with Some c' => Ascii.eqb c c' | None => false end.

Definition between (lo x hi : Z) : bool := (lo <=? x) && (x <=? hi).

Definition parseLocalDateTime (s : string) : option Z :=
  match field s 0 4, field s 5 2, field s 8 2,
        field s 11 2, field s 14 2, field s 17 2 with
  | Some y, Some mo, Some d, Some h, Some mi, Some se =>
      if (String.length s =? 19)%nat
         && isChar s 4 "-" && isChar s 7 "-" && isChar s 10 "T"
         && isChar s 13 ":" && isChar s 16 ":"
         && between 1 mo 12 && between 1 d (daysInMonth y (mo - 1))
         && between 0 h 23 && between 0 mi 59 && between 0 se 59
      then Some (MakeDate (MakeDay y (mo - 1) d)
                   (h * msPerHour + mi * msPerMinute + se * msPerSecond))
      else None
  | _, _, _, _, _, _ => None
  end.

End Date.

(* ================================================================== *)
(** ** What the three scripts share *)
(* ================================================================== *)

(** The helpers below are repeated word for word in the daily, the weekly
    and the monthly script; they are written once here.  The overview
    figures and the views that are not part of the records below
    ([uniqueApps], the busiest day, the day-of-week and week-by-week views
    of the monthly script) and the helpers of the renderers follow in
    modules of their own, and so does the loop over [transcriptsByApp]
    of the daily and the weekly script, which the [main] functions below
    do not go through ([Transcripts.daily] and [Transcripts.weekly] do).
    The timeline of the daily script has a module of its own as well.
    Left out: [duration] and the text that [printCLI] and [generateHTML]
    build from the data. *)

Module Recap.
Import JS Date.

(** One row of the [History] query. *)
Record Row := mkRow {
  timestamp : string;
  app : option string;        (* NULL is [None] *)
  numWords : option Z         (* NULL is [None] *)
}.

(** [r.numWords || 0] *)
Definition numWordsOr0 (r : Row) : Z :=
  match numWords r with Some n => n | None => 0 end.

(** [r.app || "Unknown"]: NULL and the empty string are falsy. *)
Definition appOrUnknown (r : Row) : string :=
  match app r with
  | Some a => if String.eqb a "" then "Unknown" else a
  | None => "Unknown"
  end.

(** [if (r.app)] *)
Definition appTruthy (r : Row) : bool :=
  match app r with
  | Some a => negb (String.eqb a "")
  | None => false
  end.

(** **** [friendlyAppName] *)

Definition appNames : obj string :=
  [ ("dev.warp.Warp-Stable", "Warp");
    ("com.apple.Safari", "Safari");
    ("com.google.Chrome", "Chrome");
    ("com.tinyspeck.slackmacgap", "Slack");
    ("com.microsoft.VSCode", "VS Code");
    ("com.todesktop.230313mzl4w4u92", "Cursor");
    ("com.linear", "Linear");
    ("com.apple.MobileSMS", "Messages");
    ("com.apple.mail", "Mail");
    ("com.apple.Notes", "Notes");
    ("com.openai.chat", "ChatGPT");
    ("com.superhuman.electron", "Superhuman");
    ("com.figma.Desktop", "Figma");
    ("com.apple.finder", "Finder");
    ("com.apple.Terminal", "Terminal");
    ("md.obsidian", "Obsidian");
    ("notion.id", "Notion");
    ("com.codeium.windsurf", "Windsurf");
    ("company.thebrowser.Browser", "Arc");
    ("net.shinyfrog.bear", "Bear");
    ("com.hnc.Discord", "Discord");
    ("com.spotify.client", "Spotify");
    ("us.zoom.xos", "Zoom") ].

(** What [friendlyAppName] returns: a string, or, when the identifier
    is the name of a member of [Object.prototype], that member
    ([map[bundleId]] is then truthy and is returned as it is). *)
Inductive nameValue :=
| Str (s : string)
| PrototypeMember (k : string).

Definition friendlyAppName (bundleId : string) : nameValue :=
  if String.eqb bundleId "" then Str "Unknown"
  else match getOwn appNames bundleId with
       | Some n => Str n
       | None =>
           if inherited bundleId then PrototypeMember bundleId
           else Str (replace_hyphens (last (split "." bundleId) ""))
       end.

(** The property key a value becomes in [appMap[appName]]: a string is
    its own key, a built-in function prints as native code, and
    [__proto__] reads as [Object.prototype] itself. *)
Definition toPropertyKey (v : nameValue) : string :=
  match v with
  | Str s => s
  | PrototypeMember k =>
      if String.eqb k "__proto__" then "[object Object]"
      else "function "
           ++ (if String.eqb k "constructor" then "Object" else k)
           ++ "() { [native code] }"
  end.

(** The key of the bucket a row is counted in. *)
Definition resolvedName (r : Row) : string :=
  toPropertyKey (friendlyAppName (appOrUnknown r)).

(** **** App breakdown *)

Record AppStats := mkAppStats {
  count : Z;
  words : Z;
  bundleId : string
}.

(** One turn of [for (const r of rows)] over [appMap].  When
    [appMap[appName]] is inherited, the test [!appMap[appName]] is false,
    no bucket is created, and the two updates land on the inherited
    member: [appMap] itself stays as it was.  [words] is the script's
    double as long as the words added stay below 2^53 in total. *)
Definition appStep (appMap : obj AppStats) (r : Row) : obj AppStats :=
  let appName := resolvedName r in
  let appMap1 :=
    if hasOwn appMap appName || inherited appName then appMap
    else setOwn appMap appName (mkAppStats 0 0 (appOrUnknown r)) in
  match getOwn appMap1 appName with
  | Some st =>
      setOwn appMap1 appName
        (mkAppStats (count st + 1) (words st + numWordsOr0 r) (bundleId st))
  | None => appMap1
  end.

Definition appMapOf (rows : list Row) : obj AppStats :=
  fold_left appStep rows [].

(** [(a, b) => b[1].count - a[1].count] *)
Definition byCountDesc (a b : string * AppStats) : Z :=
  count (snd b) - count (snd a).

Definition appsSorted (rows : list Row) : list (string * AppStats) :=
  sort byCountDesc (entries (appMapOf rows)).

(** **** Totals *)

Definition totalDictations (rows : list Row) : Z :=
  Z.of_nat (List.length rows).

(** [rows.reduce((sum, r) => sum + (r.numWords || 0), 0)].  The script
    adds doubles; the integer sum is its value as long as the absolute
    values of the words stay below 2^53 in total ([Spec.wordsMass]).
    Beyond that the double sum is rounded at every step. *)
Definition totalWords (rows : list Row) : Z :=
  fold_left (fun sum r => sum + numWordsOr0 r) rows 0.

(** **** Hours *)

Section Hours.
(** The offset of local time and what the engine makes of a timestamp
    that is not in the one format the language fixes ([None] is an
    invalid date). *)
Variable tza : Z.
Variable implParse : string -> option Z.

(** [new Date(s)] for a string: the time value, [None] when invalid. *)
Definition Date_parse (s : string) : option Z :=
  match parseLocalDateTime s with
  | Some lt => TimeClip (UTC tza lt)
  | None => implParse s
  end.

(** The key [hourMap[hour]] uses for
    [hour = new Date(r.timestamp).getHours()]. *)
Definition hourKey (r : Row) : string :=
  match Date_parse (timestamp r) with
  | Some t => String_of_N (Z.to_N (getHours tza t))
  | None => "NaN"
  end.

(** [hourMap[hour] = (hourMap[hour] || 0) + 1].  The keys are the
    texts of 0..23 and [NaN], none of which is inherited. *)
Definition hourStep (hourMap : obj Z) (r : Row) : obj Z :=
  let hour := hourKey r in
  let old := match getOwn hourMap hour with Some c => c | None => 0 end in
  setOwn hourMap hour (old + 1).

Definition hourMapOf (rows : list Row) : obj Z :=
  fold_left hourStep rows [].

(** [(a, b) => b[1] - a[1]] *)
Definition byValueDesc (a b : string * Z) : Z := snd b - snd a.

(** [Object.entries(hourMap).sort(...)[0]]; [None] is [undefined]. *)
Definition peakHour (rows : list Row) : option (string * Z) :=
  hd_error (sort byValueDesc (entries (hourMapOf rows))).
End Hours.

(** **** Days (weekly and monthly script) *)

Record DayStats := mkDayStats {
  dcount : Z;
  dwords : Z;
  dapps : list string         (* a [Set]: no duplicates *)
}.

Definition setAdd (s : list string) (x : string) : list string :=
  if mem x s then s else s ++ [x].

(** One turn of the loop over [dayMap].  [None] is the [TypeError] that
    [dayMap[day].apps.add] raises when [dayMap[day]] is an inherited
    member, which has no [apps].  [dwords] is exact under the same bound
    as [totalWords]. *)
Definition dayStep (dayMap : obj DayStats) (r : Row)
  : option (obj DayStats) :=
  let day := slice0 10 (timestamp r) in
  let dayMap1 :=
    if hasOwn dayMap day || inherited day then dayMap
    else setOwn dayMap day (mkDayStats 0 0 []) in
  match getOwn dayMap1 day with
  | Some st =>
      Some (setOwn dayMap1 day
              (mkDayStats (dcount st + 1) (dwords st + numWordsOr0 r)
                 (if appTruthy r
                  then setAdd (dapps st) (match app r with
                                          | Some a => a | None => "" end)
                  else dapps st)))
  | None => if appTruthy r then None else Some dayMap1
  end.

Fixpoint dayMapFrom (dayMap : obj DayStats) (rows : list Row)
  : option (obj DayStats) :=
  match rows with
  | [] => Some dayMap
  | r :: rest =>
      match dayStep dayMap r with
      | Some dayMap' => dayMapFrom dayMap' rest
      | None => None
      end
  end.

Definition dayMapOf (rows : list Row) : option (obj DayStats) :=
  dayMapFrom [] rows.

(** [dayMap[key] || { count: 0, words: 0, duration: 0, apps: new Set() }]:
    the keys looked up are dates, never inherited names. *)
Definition dayOrEmpty (dayMap : obj DayStats) (key : string) : DayStats :=
  match getOwn dayMap key with
  | Some st => st
  | None => mkDayStats 0 0 []
  end.

Definition dayNames : list string :=
  ["Sun"; "Mon"; "Tue"; "Wed"; "Thu"; "Fri"; "Sat"].

(** **** Percentages

    [Math.round((stats.count / totalDictations) * 100)] is evaluated in
    double precision: the quotient is rounded to a double, the product
    is rounded again, and [Math.round] takes the floor of that double
    plus one half.  Counts are far below 2^53, so they are doubles. *)

Definition Number_of_Z (z : Z) : float :=
  PrimFloat.of_uint63 (Uint63.of_Z z).

(** [Math.round(x)]; [None] is [NaN] or an infinity. *)
Definition Math_round_float (x : float) : option Z :=
  match Prim2SF x with
  | S754_zero _ => Some 0
  | S754_finite s m e =>
      let v := if s then Z.neg m else Z.pos m in
      Some (if 0 <=? e then v * 2 ^ e
            else (2 * v + 2 ^ (- e)) / 2 ^ (- e + 1))
  | _ => None
  end.

Definition pct (cnt total : Z) : option Z :=
  Math_round_float
    (PrimFloat.mul (PrimFloat.div (Number_of_Z cnt) (Number_of_Z total))
       (Number_of_Z 100)).

(** The percentages the renderers print, in the order of [appsSorted]. *)
Definition percentages (apps : list (string * AppStats)) (total : Z)
  : list (option Z) :=
  map (fun e => pct (count (snd e)) total) apps.

(** [Math.round] of an exact rational, for comparison. *)
Definition Math_round (x : Q) : Z := Qfloor (x + (1 # 2))%Q.

(** **** What a run does *)

(** The observable end of a run, with the data the renderer was given
    in place of the text it makes of it. *)
Inductive Outcome (Data : Type) :=
| DbNotFound                       (* [console.error], [process.exit(1)] *)
| NoDictations (message : string)  (* [console.log], [process.exit(0)] *)
| Threw                            (* an uncaught exception *)
| Printed (d : Data)               (* [printCLI(d)] *)
| Saved (path : string) (d : Data) (* [fs.writeFileSync(path, generateHTML(d))] *).

Arguments DbNotFound {Data}.
Arguments NoDictations {Data} message.
Arguments Threw {Data}.
Arguments Printed {Data} d.
Arguments Saved {Data} path d.

(** The exit code: an uncaught exception ends Node with code 1. *)
Definition exitCode {Data} (o : Outcome Data) : Z :=
  match o with
  | DbNotFound => 1
  | NoDictations _ => 0
  | Threw => 1
  | Printed _ => 0
  | Saved _ _ => 0
  end.

(** The files the run wrote. *)
Definition filesWritten {Data} (o : Outcome Data) : list string :=
  match o with
  | Saved path _ => [path]
  | _ => []
  end.

(** What the run wrote to standard output before any report. *)
Definition notice {Data} (o : Outcome Data) : option string :=
  match o with
  | NoDictations m => Some m
  | _ => None
  end.

(** The data a report was rendered from, if one was. *)
Definition reported {Data} (o : Outcome Data) : option Data :=
  match o with
  | Printed d => Some d
  | Saved _ d => Some d
  | _ => None
  end.

End Recap.

(* ================================================================== *)
(** ** The daily script *)
(* ================================================================== *)

Module Daily.
Import JS Date Recap.

Record Data := mkData {
  targetDate : string;
  totalDictations : Z;
  totalWords : Z;
  appsSorted : list (string * AppStats);
  peakHour : option (string * Z)
}.

Section Run.
Variable tza : Z.
Variable implParse : string -> option Z.

Definition aggregate (targetDate : string) (rows : list Row) : Data :=
  mkData targetDate
    (Recap.totalDictations rows)
    (Recap.totalWords rows)
    (Recap.appsSorted rows)
    (Recap.peakHour tza implParse rows).

(** The run of the script, without its loop over [transcriptsByApp]
    (lines 79-84) and its timeline: the loop throws a [TypeError] when a
    row resolves to the name of a member of [Object.prototype], where
    this function reports.  [Transcripts.daily] is the run with the loop;
    the two agree when no row has such a name.  [query d] is what the
    prepared statement returns for [date(timestamp) = d]; the path is
    relative to the home directory. *)
Definition main (flagHTML : bool) (targetDate : string)
    (dbExists : bool) (query : string -> list Row) : Outcome Data :=
  if negb dbExists then DbNotFound
  else
    let rows := query targetDate in
    if (List.length rows =? 0)%nat
    then NoDictations
           ("No Wispr Flow dictations found for " ++ targetDate ++ ".")
    else
      let d := aggregate targetDate rows in
      if flagHTML
      then Saved ("Desktop/wispr-recap-" ++ targetDate ++ ".html") d
      else Printed d.
End Run.
End Daily.

(* ================================================================== *)
(** ** The weekly script *)
(* ================================================================== *)

Module Weekly.
Import JS Date Recap.

Record WeekRange := mkWeekRange {
  start : string;
  end_ : string
}.

Record DayEntry := mkDayEntry {
  date : string;
  dayName : string;
  dayCount : Z;               (* [count] *)
  dayWords : Z;               (* [words] *)
  appCount : Z
}.

Record Data := mkData {
  week : WeekRange;
  totalDictations : Z;
  totalWords : Z;
  daySorted : list DayEntry;
  appsSorted : list (string * AppStats);
  hourMap : obj Z;
  peakHour : option (string * Z)
}.

Section Run.
Variable tza : Z.
Variable implParse : string -> option Z.

(** [getWeekRange]; [None] is the [RangeError] that [toISOString]
    raises on an invalid date. *)
Definition getWeekRange (refDate : string) : option WeekRange :=
  match Date_parse tza implParse (refDate ++ "T12:00:00") with
  | None => None
  | Some d =>
      let day := getDay tza d in
      let diffToMon := if day =? 0 then -6 else 1 - day in
      match setDate tza d (getDate tza d + diffToMon) with
      | None => None
      | Some monday =>
          match setDate tza monday (getDate tza monday + 6) with
          | None => None
          | Some sunday =>
              Some (mkWeekRange (toISOString_slice10 monday)
                      (toISOString_slice10 sunday))
          end
      end
  end.

(** [while (cur <= endD) { ...; cur.setDate(cur.getDate() + 1); }]
    The fuel only makes the recursion structural; [fillDays] is
    called with more than the loop can use. *)
Fixpoint fillDaysFrom (fuel : nat) (dayMap : obj DayStats)
    (cur endD : Z) : list DayEntry :=
  match fuel with
  | O => []
  | S fuel' =>
      if cur <=? endD then
        let key := toISOString_slice10 cur in
        let dayOfWeek := nth (Z.to_nat (getDay tza cur)) dayNames "" in
        let data := dayOrEmpty dayMap key in
        mkDayEntry key dayOfWeek (dcount data) (dwords data)
          (Z.of_nat (List.length (dapps data)))
        :: match setDate tza cur (getDate tza cur + 1) with
           | Some cur' => fillDaysFrom fuel' dayMap cur' endD
           | None => []
           end
      else []
  end.

(** An invalid [cur] or [endD] compares false and leaves the list
    empty. *)
Definition fillDays (dayMap : obj DayStats) (w : WeekRange)
  : list DayEntry :=
  match Date_parse tza implParse (start w ++ "T12:00:00"),
        Date_parse tza implParse (end_ w ++ "T12:00:00") with
  | Some cur, Some endD =>
      fillDaysFrom (S (Z.to_nat ((endD - cur) / msPerDay + 1)))
        dayMap cur endD
  | _, _ => []
  end.

(** [None] when the loop over [dayMap] throws. *)
Definition aggregate (w : WeekRange) (rows : list Row) : option Data :=
  match dayMapOf rows with
  | None => None
  | Some dayMap =>
      Some (mkData w
              (Recap.totalDictations rows)
              (Recap.totalWords rows)
              (fillDays dayMap w)
              (Recap.appsSorted rows)
              (hourMapOf tza implParse rows)
              (Recap.peakHour tza implParse rows))
  end.

(** The run of the script, without its loop over [transcriptsByApp]
    (lines 1017-1022), which throws a [TypeError] when a row resolves to
    the name of a member of [Object.prototype]; [Transcripts.weekly] is
    the run with the loop.  [query s e] is what the prepared statement
    returns for [date(timestamp)] between [s] and [e]. *)
Definition main (flagHTML : bool) (refDate : string)
    (dbExists : bool) (query : string -> string -> list Row)
  : Outcome Data :=
  match getWeekRange refDate with
  | None => Threw
  | Some w =>
      if negb dbExists then DbNotFound
      else
        let rows := query (start w) (end_ w) in
        if (List.length rows =? 0)%nat
        then NoDictations
               ("No Wispr Flow dictations found for week of "
                ++ start w ++ ".")
        else
          match aggregate w rows with
          | None => Threw
          | Some d =>
              if flagHTML
              then Saved ("Desktop/wispr-weekly-" ++ start w ++ ".html") d
              else Printed d
          end
  end.
End Run.
End Weekly.

(* ================================================================== *)
(** ** The monthly script *)
(* ================================================================== *)

Module Monthly.
Import JS Date Recap.

Record MonthRange := mkMonthRange {
  start : string;
  end_ : string;
  year : Z;
  month : Z;
  label : string;
  daysInMonth : Z
}.

Record DayEntry := mkDayEntry {
  date : string;
  dayOfWeek : option Z;       (* [None] is [NaN] *)
  dayNum : Z;
  dayCount : Z;               (* [count] *)
  dayWords : Z;               (* [words] *)
  appCount : Z
}.

Record Data := mkData {
  monthRange : MonthRange;
  totalDictations : Z;
  totalWords : Z;
  allDays : list DayEntry;
  appsSorted : list (string * AppStats);
  hourMap : obj Z;
  peakHour : option (string * Z);
  activeDays : Z;
  avgDictationsPerDay : Z;
  avgWordsPerDay : Z
}.

Definition monthNames : list string :=
  ["January"; "February"; "March"; "April"; "May"; "June"; "July";
   "August"; "September"; "October"; "November"; "December"].

(** [Number(s)] for a string of decimal digits (and the empty string).
    Signs, blanks, exponents, hexadecimal and the like are not modelled:
    for such a text the result here is [None] although [Number] has a
    value, so [getMonthRange] and [main] below speak for references made
    of decimal digits only, as [YYYY-MM] is. *)
Definition Number (s : string) : option Z :=
  option_map Z.of_N (digits_to_N s).

Section Run.
Variable tza : Z.
Variable implParse : string -> option Z.

(** [toLocaleDateString("en-US", { month: "long", year: "numeric" })]
    for a year of the common era. *)
Definition monthLabel (t : Z) : string :=
  let d := Day (LocalTime tza t) in
  nth (Z.to_nat (MonthFromDay d)) monthNames ""
  ++ " " ++ String_of_N (Z.to_N (YearFromDay d)).

(** [getMonthRange]; [None] is the [RangeError] of [toISOString] on an
    invalid date, or a reference outside the modelled part of
    [Number]. *)
Definition getMonthRange (yearMonth : string) : option MonthRange :=
  match split "-" yearMonth with
  | y :: m :: _ =>
      match Number y, Number m with
      | Some year, Some month =>
          match fromFields tza year (month - 1) 1,
                fromFields tza year month 0 with
          | Some firstDay, Some lastDay =>
              Some (mkMonthRange
                      (toISOString_slice10 firstDay)
                      (toISOString_slice10 lastDay)
                      year month
                      (monthLabel firstDay)
                      (getDate tza lastDay))
          | _, _ => None
          end
      | _, _ => None
      end
  | _ => None
  end.

(** The body of [for (let d = 1; d <= monthRange.daysInMonth; d++)]. *)
Definition dayEntry (mr : MonthRange) (dayMap : obj DayStats) (d : Z)
  : DayEntry :=
  let key := String_of_N (Z.to_N (year mr)) ++ "-"
             ++ pad2 (month mr) ++ "-" ++ pad2 d in
  let dt := Date_parse tza implParse (key ++ "T12:00:00") in
  let data := dayOrEmpty dayMap key in
  mkDayEntry key (option_map (getDay tza) dt) d
    (dcount data) (dwords data) (Z.of_nat (List.length (dapps data))).

Definition fillDays (mr : MonthRange) (dayMap : obj DayStats)
  : list DayEntry :=
  map (fun d => dayEntry mr dayMap (Z.of_nat d))
      (seq 1 (Z.to_nat (daysInMonth mr))).

(** [activeDays > 0 ? Math.round(total / activeDays) : 0], the script's
    value for totals of an absolute value below 2^52 (see
    [Math_round_div]). *)
Definition average (total activeDays : Z) : Z :=
  if 0 <? activeDays then Math_round_div total activeDays else 0.

(** The same expression evaluated in double precision, as the script
    evaluates it, for a total and a number of days that are integers from
    0 to 2^53 and so are doubles.  [None] is [NaN] or an infinity. *)
Definition averageDouble (total activeDays : Z) : option Z :=
  if 0 <? activeDays
  then Math_round_float
         (PrimFloat.div (Number_of_Z total) (Number_of_Z activeDays))
  else Some 0.

(** [None] when the loop over [dayMap] throws. *)
Definition aggregate (mr : MonthRange) (rows : list Row) : option Data :=
  match dayMapOf rows with
  | None => None
  | Some dayMap =>
      let allDays := fillDays mr dayMap in
      let activeDays :=
        Z.of_nat (List.length (filter (fun d => 0 <? dayCount d) allDays)) in
      Some (mkData mr
              (Recap.totalDictations rows)
              (Recap.totalWords rows)
              allDays
              (Recap.appsSorted rows)
              (hourMapOf tza implParse rows)
              (Recap.peakHour tza implParse rows)
              activeDays
              (average (Recap.totalDictations rows) activeDays)
              (average (Recap.totalWords rows) activeDays))
  end.

(** The script from top to bottom, for a reference [--month=] made of
    decimal digits and hyphens; [query s e] is what the prepared
    statement returns for [date(timestamp)] between [s] and [e]. *)
Definition main (flagHTML : bool) (targetMonth : string)
    (dbExists : bool) (query : string -> string -> list Row)
  : Outcome Data :=
  match getMonthRange targetMonth with
  | None => Threw
  | Some mr =>
      if negb dbExists then DbNotFound
      else
        let rows := query (start mr) (end_ mr) in
        if (List.length rows =? 0)%nat
        then NoDictations
               ("No Wispr Flow dictations found for " ++ label mr ++ ".")
        else
          match aggregate mr rows with
          | None => Threw
          | Some d =>
              if flagHTML
              then Saved ("Desktop/wispr-monthly-" ++ targetMonth
                          ++ ".html") d
              else Printed d
          end
  end.
End Run.
End Monthly.

(* ================================================================== *)
(** ** Vocabulary of the statements *)
(* ================================================================== *)

(** Nothing here is taken from the scripts: these are the counts and the
    orders the statements below compare the scripts' results with. *)

Module Spec.
Import JS Date Recap.

(** How many rows satisfy [p]. *)
Definition countRows (p : Row -> bool) (rows : list Row) : Z :=
  Z.of_nat (List.length (filter p rows)).

(** The row resolves to the application name [name]. *)
Definition named (name : string) (r : Row) : bool :=
  String.eqb (resolvedName r) name.

(** Position of the first occurrence. *)
Fixpoint firstIndex (k : string) (l : list string) : option nat :=
  match l with
  | [] => None
  | x :: rest =>
      if String.eqb k x then Some O
      else option_map S (firstIndex k rest)
  end.

(** Both occur, and [a] occurs first before [b] does. *)
Definition earlier (a b : string) (l : list string) : bool :=
  match firstIndex a l, firstIndex b l with
  | Some i, Some j => (i <? j)%nat
  | _, _ => false
  end.

(** The count in the bucket of [name], 0 when there is none. *)
Definition bucketCount (apps : list (string * AppStats)) (name : string)
  : Z :=
  match getOwn apps name with
  | Some st => count st
  | None => 0
  end.

(** The value under [key], 0 when there is none. *)
Definition valueAt (o : obj Z) (key : string) : Z :=
  match getOwn o key with
  | Some c => c
  | None => 0
  end.

Definition sumZ (l : list Z) : Z := fold_right Z.add 0 l.

(** The sum of the absolute values.  Below 2^53, every sum of terms of
    the list, taken in any order and grouped in any way, is an integer
    that a double holds, and the additions of the scripts are exact. *)
Definition mass (l : list Z) : Z := sumZ (map Z.abs l).

(** The mass of the words of the rows. *)
Definition wordsMass (rows : list Row) : Z := mass (map numWordsOr0 rows).

Section Hours.
Variable tza : Z.
Variable implParse : string -> option Z.

(** The timestamp is a valid date for the engine. *)
Definition parses (r : Row) : bool :=
  match Date_parse tza implParse (timestamp r) with
  | Some _ => true
  | None => false
  end.

(** The local hour of a row, when its timestamp is valid. *)
Definition hourOf (r : Row) : option Z :=
  option_map (getHours tza) (Date_parse tza implParse (timestamp r)).

Definition atHour (h : Z) (r : Row) : bool :=
  match hourOf r with
  | Some h' => h' =? h
  | None => false
  end.
End Hours.

(** The row falls on the day [key]. *)
Definition onDay (key : string) (r : Row) : bool :=
  String.eqb (slice0 10 (timestamp r)) key.

(** The count the day map holds for [key], 0 when there is none. *)
Definition dayCountAt (dayMap : obj DayStats) (key : string) : Z :=
  dcount (dayOrEmpty dayMap key).

(** Descending by [key], and ascending by array index: the orders the
    two sorts establish. *)
Definition descBy {A} (key : A -> Z) (a b : A) : Prop := key b <= key a.

Definition ascIndex {V} (e1 e2 : string * V) : Prop :=
  (indexOr0 (fst e1) <= indexOr0 (fst e2))%N.

(** The day key of a row is not the name of an inherited member. *)
Definition plainDay (r : Row) : bool :=
  negb (inherited (slice0 10 (timestamp r))).

(** What the day breakdown of a report lists: each date with its count. *)
Definition monthDays (o : Outcome Monthly.Data) : list (string * Z) :=
  match reported o with
  | Some d => map (fun e => (Monthly.date e, Monthly.dayCount e))
                (Monthly.allDays d)
  | None => []
  end.

Definition weekDays (o : Outcome Weekly.Data) : list (string * Z) :=
  match reported o with
  | Some d => map (fun e => (Weekly.date e, Weekly.dayCount e))
                (Weekly.daySorted d)
  | None => []
  end.

(** The text [YYYY-MM-DD] of a day number (for the years 0 to 9999). *)
Definition dateText (d : Z) : string := slice0 10 (isoDateOfDay d).

(** The same text from the fields of a date, month 1 to 12. *)
Definition dateOf (y m d : Z) : string :=
  isoYear y ++ "-" ++ pad2 m ++ "-" ++ pad2 d.

(** The Monday on or before day [n]: a Sunday belongs to the week that
    began six days before it. *)
Definition mondayOf (n : Z) : Z := n - (WeekDay n + 6) mod 7.

(** The entry the weekly script makes for day number [x]. *)
Definition weekEntry (dayMap : obj DayStats) (x : Z) : Weekly.DayEntry :=
  let data := dayOrEmpty dayMap (dateText x) in
  Weekly.mkDayEntry (dateText x)
    (nth (Z.to_nat (WeekDay x)) dayNames "")
    (dcount data) (dwords data) (Z.of_nat (List.length (dapps data))).

(** The day numbers [first], [first + 1], ..., [count] of them. *)
Definition daysFrom (first : Z) (count : nat) : list Z :=
  map (fun i => first + Z.of_nat i) (seq 0 count).

End Spec.


(* ================================================================== *)
(** ** Helpers of the renderers *)
(* ================================================================== *)

(** [formatHour], [truncate] and [escapeHTML] are repeated word for word
    in the three scripts.  A text is a sequence of code units; the texts
    modelled here have all their code units below 256. *)

Module Helpers.
Import JS Date Recap.

(** [String(z)] for an integer. *)
Definition String_of_Z (z : Z) : string :=
  if z <? 0 then "-" ++ String_of_N (Z.to_N (- z))
  else String_of_N (Z.to_N z).

Definition isDigit (c : ascii) : bool :=
  (48 <=? nat_of_ascii c)%nat && (nat_of_ascii c <=? 57)%nat.

(** The longest prefix of decimal digits. *)
Fixpoint digitPrefix (s : string) : string :=
  match s with
  | EmptyString => EmptyString
  | String c rest =>
      if isDigit c then String c (digitPrefix rest) else EmptyString
  end.

(** [parseInt(s)] for a text that does not begin with a blank, a sign or
    [0x]: the number its leading decimal digits denote, [None] ([NaN])
    when it begins with no digit.  The keys of [hourMap] are such texts. *)
Definition parseInt (s : string) : option Z :=
  match digitPrefix s with
  | EmptyString => None
  | p => option_map Z.of_N (digits_to_N p)
  end.

(** [formatHour(h)] for an integer or [NaN] ([None]): every comparison
    with [NaN] is false, and [NaN - 12] prints as [NaN]. *)
Definition formatHour (h : option Z) : string :=
  match h with
  | None => "NaN PM"
  | Some h =>
      if h =? 0 then "12 AM"
      else if h <? 12 then String_of_Z h ++ " AM"
      else if h =? 12 then "12 PM"
      else String_of_Z (h - 12) ++ " PM"
  end.

(** The peak hour as the overview prints it:
    [peakHour ? formatHour(parseInt(peakHour[0])) : "N/A"]. *)
Definition peakHourText (peakHour : option (string * Z)) : string :=
  match peakHour with
  | Some p => formatHour (parseInt (fst p))
  | None => "N/A"
  end.

(** [s.replace(/c/g, t)] for a single character [c]. *)
Fixpoint replaceAll (c : ascii) (t : string) (s : string) : string :=
  match s with
  | EmptyString => EmptyString
  | String c' rest =>
      if Ascii.eqb c' c then t ++ replaceAll c t rest
      else String c' (replaceAll c t rest)
  end.

(** The double quote. *)
Definition quote : ascii := "034"%char.

Definition escapeHTML (str : string) : string :=
  replaceAll quote "&quot;"
    (replaceAll ">" "&gt;"
       (replaceAll "<" "&lt;"
          (replaceAll "&" "&amp;" str))).

(** White space and line terminators among the code units below 256:
    tab, line feed, vertical tab, form feed, carriage return, space and
    the no-break space. *)
Definition isWhiteSpace (c : ascii) : bool :=
  let n := nat_of_ascii c in
  ((9 <=? n)%nat && (n <=? 13)%nat) || (n =? 32)%nat || (n =? 160)%nat.

Fixpoint trimStart (s : string) : string :=
  match s with
  | EmptyString => EmptyString
  | String c rest => if isWhiteSpace c then trimStart rest else s
  end.

(** The text without the white space at its end. *)
Fixpoint trimEnd (s : string) : string :=
  match s with
  | EmptyString => EmptyString
  | String c rest =>
      match trimEnd rest with
      | EmptyString => if isWhiteSpace c then EmptyString
                       else String c EmptyString
      | kept => String c kept
      end
  end.

Definition trim (s : string) : string := trimEnd (trimStart s).

Definition lineFeed : ascii := "010"%char.

(** [truncate(str, len)] for a text and a length that is a natural
    number; the empty text is falsy. *)
Definition truncate (str : string) (len : nat) : string :=
  if String.eqb str "" then ""
  else
    let clean := trim (replaceAll lineFeed " " str) in
    if (len <? String.length clean)%nat
    then slice0 len clean ++ "..."
    else clean.

(** The hours and counts of the cells of the hourly heatmap of the weekly
    and the monthly page:
    [for (let h = 6; h <= 23; h++) { const count = hourMap[h] || 0; ... }] *)
Definition heatmapCells (hourMap : obj Z) : list (Z * Z) :=
  map (fun h =>
         (Z.of_nat h,
          match getOwn hourMap (String_of_N (N.of_nat h)) with
          | Some c => if c =? 0 then 0 else c
          | None => 0
          end))
      (seq 6 18).

End Helpers.

(* ================================================================== *)
(** ** The overview of the weekly and the monthly script *)
(* ================================================================== *)

Module Overview.
Import JS Date Recap.

(** [rows.map((r) => r.app).filter(Boolean)] *)
Definition truthyApps (rows : list Row) : list string :=
  flat_map (fun r => match app r with
                     | Some a => if String.eqb a "" then [] else [a]
                     | None => []
                     end) rows.

(** [new Set(...)]: the distinct values in the order they are met. *)
Definition newSet (l : list string) : list string := fold_left setAdd l [].

(** [new Set(rows.map((r) => r.app).filter(Boolean)).size] *)
Definition uniqueApps (rows : list Row) : Z :=
  Z.of_nat (List.length (newSet (truthyApps rows))).

(** [days.reduce((best, d) => (d.count > best.count ? d : best), days[0])]
    for the day entries of either script, [count] being their count
    field; [None] is [undefined], the result on an empty list. *)
Definition busier {E} (count : E -> Z) (best d : E) : E :=
  if count best <? count d then d else best.

Definition busiestDay {E} (count : E -> Z) (days : list E) : option E :=
  match days with
  | [] => None
  | first :: _ => Some (fold_left (busier count) days first)
  end.

End Overview.

(* ================================================================== *)
(** ** The day-of-week and week-by-week views of the monthly script *)
(* ================================================================== *)

Module MonthViews.
Import JS Date Recap Helpers.

(** [a[i] += x] for an index within the array. *)
Fixpoint addAt (i : nat) (x : Z) (a : list Z) : list Z :=
  match a, i with
  | [], _ => []
  | v :: rest, O => (v + x) :: rest
  | v :: rest, S i' => v :: addAt i' x rest
  end.

(** [dowAggregate[d.dayOfWeek] += d.count].  [dayOfWeek] is a result of
    [getDay], 0 to 6, or [NaN]; with [NaN] the statement sets a property
    named [NaN] and leaves the seven elements as they are. *)
Definition dowStep (dowAggregate : list Z) (d : Monthly.DayEntry)
  : list Z :=
  match Monthly.dayOfWeek d with
  | Some i => addAt (Z.to_nat i) (Monthly.dayCount d) dowAggregate
  | None => dowAggregate
  end.

Definition dowAggregate (allDays : list Monthly.DayEntry) : list Z :=
  fold_left dowStep allDays [0; 0; 0; 0; 0; 0; 0].

(** Monday first, Sunday last. *)
Definition dowValues (allDays : list Monthly.DayEntry) : list Z :=
  let a := dowAggregate allDays in
  [nth 1 a 0; nth 2 a 0; nth 3 a 0; nth 4 a 0; nth 5 a 0; nth 6 a 0;
   nth 0 a 0].

Record WeekStats := mkWeekStats {
  wcount : Z;
  wwords : Z;
  wapps : list string;        (* a [Set] *)
  startDate : string
}.

Record WeekEntry := mkWeekEntry {
  label : string;
  weekCount : Z;              (* [count] *)
  weekWords : Z;              (* [words] *)
  weekAppCount : Z            (* [appCount] *)
}.

Definition monthShortNames : list string :=
  ["Jan"; "Feb"; "Mar"; "Apr"; "May"; "Jun"; "Jul"; "Aug"; "Sep"; "Oct";
   "Nov"; "Dec"].

Section Run.
Variable tza : Z.
Variable implParse : string -> option Z.

Definition getFullYear (t : Z) : Z := YearFromDay (Day (LocalTime tza t)).
Definition getMonth (t : Z) : Z := MonthFromDay (Day (LocalTime tza t)).

(** [getWeekOfMonth]; [None] is [NaN]. *)
Definition getWeekOfMonth (dateStr : string) : option Z :=
  match Date_parse tza implParse (dateStr ++ "T12:00:00") with
  | None => None
  | Some d =>
      let dayOfMonth := getDate tza d in
      match fromFields tza (getFullYear d) (getMonth d) 1 with
      | None => None
      | Some firstOfMonth =>
          let firstDow := getDay tza firstOfMonth in
          let adjustedFirst := if firstDow =? 0 then 6 else firstDow - 1 in
          Some ((dayOfMonth - 1 + adjustedFirst) / 7)
      end
  end.

(** The key [weekMap[wIdx]] uses. *)
Definition weekKey (dateStr : string) : string :=
  match getWeekOfMonth dateStr with
  | Some i => String_of_Z i
  | None => "NaN"
  end.

(** One turn of the loop over [allDays].  The keys are the texts of
    small integers or [NaN], and the keys looked up in [dayMap] are dates:
    none of them is the name of an inherited member.  [wwords] is exact
    as long as the words of the days stay below 2^53 in total. *)
Definition weekStep (dayMap : obj DayStats) (weekMap : obj WeekStats)
    (d : Monthly.DayEntry) : obj WeekStats :=
  let wIdx := weekKey (Monthly.date d) in
  let weekMap1 :=
    if hasOwn weekMap wIdx then weekMap
    else setOwn weekMap wIdx (mkWeekStats 0 0 [] (Monthly.date d)) in
  match getOwn weekMap1 wIdx with
  | Some st =>
      setOwn weekMap1 wIdx
        (mkWeekStats (wcount st + Monthly.dayCount d)
           (wwords st + Monthly.dayWords d)
           (match getOwn dayMap (Monthly.date d) with
            | Some dm => fold_left setAdd (dapps dm) (wapps st)
            | None => wapps st
            end)
           (startDate st))
  | None => weekMap1
  end.

Definition weekMapOf (dayMap : obj DayStats)
    (allDays : list Monthly.DayEntry) : obj WeekStats :=
  fold_left (weekStep dayMap) allDays [].

(** [(a, b) => parseInt(a[0]) - parseInt(b[0])]: a difference with
    [NaN] is [NaN], which the sort takes for 0. *)
Definition byWeekIndex (a b : string * WeekStats) : Z :=
  match parseInt (fst a), parseInt (fst b) with
  | Some x, Some y => x - y
  | _, _ => 0
  end.

(** [toLocaleDateString("en-US", { month: "short", day: "numeric" })] of
    local noon of the date. *)
Definition shortDate (dateStr : string) : string :=
  match Date_parse tza implParse (dateStr ++ "T12:00:00") with
  | Some t =>
      nth (Z.to_nat (getMonth t)) monthShortNames ""
      ++ " " ++ String_of_Z (getDate tza t)
  | None => "Invalid Date"
  end.

Definition weeksSorted (dayMap : obj DayStats)
    (allDays : list Monthly.DayEntry) : list WeekEntry :=
  map (fun e =>
         mkWeekEntry ("Week of " ++ shortDate (startDate (snd e)))
           (wcount (snd e)) (wwords (snd e))
           (Z.of_nat (List.length (wapps (snd e)))))
      (sort byWeekIndex (entries (weekMapOf dayMap allDays))).
End Run.
End MonthViews.

(* ================================================================== *)
(** ** The transcripts of the daily and the weekly script *)
(* ================================================================== *)

(** The daily and the weekly script group the texts of the rows by
    application before they render; the monthly script does not.  The
    records of the scripts above leave the texts out, so the loop is
    written here over rows that carry their text. *)

Module Transcripts.
Import JS Date Recap.

Record Dictation := mkDictation {
  row : Row;
  formattedText : string
}.

(** One turn of the loop over [transcriptsByApp].  [None] is the
    [TypeError] of [transcriptsByApp[appName].push(...)] when
    [transcriptsByApp[appName]] is an inherited member: it is truthy, so
    no array is created, and it has no [push]. *)
Definition transcriptStep (transcriptsByApp : obj (list string))
    (d : Dictation) : option (obj (list string)) :=
  let appName := resolvedName (row d) in
  let t1 :=
    if hasOwn transcriptsByApp appName || inherited appName
    then transcriptsByApp
    else setOwn transcriptsByApp appName [] in
  match getOwn t1 appName with
  | Some texts =>
      Some (setOwn t1 appName (texts ++ [formattedText d])%list)
  | None => None
  end.

Fixpoint transcriptsFrom (transcriptsByApp : obj (list string))
    (ds : list Dictation) : option (obj (list string)) :=
  match ds with
  | [] => Some transcriptsByApp
  | d :: rest =>
      match transcriptStep transcriptsByApp d with
      | Some t => transcriptsFrom t rest
      | None => None
      end
  end.

Definition transcriptsByApp (ds : list Dictation)
  : option (obj (list string)) :=
  transcriptsFrom [] ds.

(** A run that has come to its aggregates goes through the loop before it
    renders. *)
Definition thenTranscripts {Data} (o : Outcome Data) (ds : list Dictation)
  : Outcome Data :=
  match o with
  | Printed _ | Saved _ _ =>
      match transcriptsByApp ds with
      | Some _ => o
      | None => Threw
      end
  | _ => o
  end.

Section Run.
Variable tza : Z.
Variable implParse : string -> option Z.

(** The daily script with the loop. *)
Definition daily (flagHTML : bool) (targetDate : string) (dbExists : bool)
    (query : string -> list Dictation) : Outcome Daily.Data :=
  thenTranscripts
    (Daily.main tza implParse flagHTML targetDate dbExists
       (fun d => map row (query d)))
    (query targetDate).

(** The weekly script with the loop. *)
Definition weekly (flagHTML : bool) (refDate : string) (dbExists : bool)
    (query : string -> string -> list Dictation) : Outcome Weekly.Data :=
  match Weekly.getWeekRange tza implParse refDate with
  | None => Threw
  | Some w =>
      thenTranscripts
        (Weekly.main tza implParse flagHTML refDate dbExists
           (fun s e => map row (query s e)))
        (query (Weekly.start w) (Weekly.end_ w))
  end.
End Run.
End Transcripts.

(* ================================================================== *)
(** ** The timeline of the daily script *)
(* ================================================================== *)

Module Timeline.
Import JS Date Recap Helpers Transcripts.

(** [words] is the sum of the words of the rows of the block, which the
    script adds in double precision: it is exact as long as the words of
    the rows stay below 2^53 in total. *)
Record Block := mkBlock {
  label : string;
  count : Z;
  apps : list nameValue;
  words : Z;
  snippets : list string
}.

(** The same element of a [Set]: the same text, or the same member of
    [Object.prototype]. *)
Definition sameValue (a b : nameValue) : bool :=
  match a, b with
  | Str s, Str s' => String.eqb s s'
  | PrototypeMember k, PrototypeMember k' => String.eqb k k'
  | _, _ => false
  end.

Definition addValue (s : list nameValue) (x : nameValue) : list nameValue :=
  if existsb (sameValue x) s then s else (s ++ [x])%list.

Section Run.
Variable tza : Z.
Variable implParse : string -> option Z.

(** [if (!hourGroups[hour]) hourGroups[hour] = []; hourGroups[hour].push(r)].
    The keys are those of [hourMap]. *)
Definition groupStep (hourGroups : obj (list Dictation)) (d : Dictation)
  : obj (list Dictation) :=
  let hour := hourKey tza implParse (row d) in
  let g1 :=
    if hasOwn hourGroups hour then hourGroups
    else setOwn hourGroups hour [] in
  match getOwn g1 hour with
  | Some entries => setOwn g1 hour (entries ++ [d])%list
  | None => g1
  end.

Definition hourGroupsOf (ds : list Dictation) : obj (list Dictation) :=
  fold_left groupStep ds [].

(** [(a, b) => a[0] - b[0]]: the keys are read as numbers, the key [NaN]
    as [NaN], and a difference with [NaN] counts as 0 in the sort. *)
Definition byHourAsc (a b : string * list Dictation) : Z :=
  match Monthly.Number (fst a), Monthly.Number (fst b) with
  | Some x, Some y => x - y
  | _, _ => 0
  end.

(** The body of the loop over the sorted groups.  A text that is
    [null] or empty is falsy, and gives no snippet. *)
Definition blockOf (e : string * list Dictation) : Block :=
  let entries := snd e in
  mkBlock
    (formatHour (parseInt (fst e)))
    (Z.of_nat (List.length entries))
    (fold_left addValue
       (map (fun d => friendlyAppName (appOrUnknown (row d))) entries) [])
    (fold_left (fun s d => s + numWordsOr0 (row d)) entries 0)
    (map (fun d => truncate (formattedText d) 100)
       (firstn 2
          (filter (fun d => negb (String.eqb (formattedText d) "")
                            && (20 <? String.length (formattedText d))%nat)
             entries))).

Definition timelineBlocks (ds : list Dictation) : list Block :=
  map blockOf (sort byHourAsc (entries (hourGroupsOf ds))).
End Run.
End Timeline.

(* ================================================================== *)
(** ** More vocabulary *)
(* ================================================================== *)

Module Terms.
Import JS Date Recap Spec.

(** The character occurs in the text. *)
Fixpoint occurs (c : ascii) (s : string) : bool :=
  match s with
  | EmptyString => false
  | String c' rest => Ascii.eqb c' c || occurs c rest
  end.

(** The ten digits, as numbers. *)
Definition decimalDigits : list Z := [0; 1; 2; 3; 4; 5; 6; 7; 8; 9].

(** The reference [YYYY-MM] of a month, month 1 to 12. *)
Definition yearMonthOf (y m : Z) : string := isoYear y ++ "-" ++ pad2 m.

(** The English name of the month, a blank, the year. *)
Definition labelOf (y m : Z) : string :=
  nth (Z.to_nat (m - 1)) Monthly.monthNames ""
  ++ " " ++ String_of_N (Z.to_N y).

(** The day numbers of the calendar month. *)
Definition firstOf (y m : Z) : Z := MakeDay y (m - 1) 1.

Definition lengthOf (y m : Z) : Z := daysInMonth y (m - 1).

(** The dates of the calendar month as texts, in order. *)
Definition monthDates (y m : Z) : list string :=
  map (fun d => dateOf y m (Z.of_nat d)) (seq 1 (Z.to_nat (lengthOf y m))).

(** The name the row resolves to is not that of an inherited member. *)
Definition plainName (r : Row) : bool := negb (inherited (resolvedName r)).

(** The day key of the row is one of [days]. *)
Definition inDays (days : list string) (r : Row) : bool :=
  mem (slice0 10 (timestamp r)) days.

(** The sum of a field over the buckets of a map or a list of entries. *)
Definition total {V} (f : V -> Z) (o : list (string * V)) : Z :=
  sumZ (map (fun e => f (snd e)) o).

(** The row has a valid timestamp whose local hour is at least [h]. *)
Definition fromHour (tza : Z) (implParse : string -> option Z) (h : Z)
    (r : Row) : bool :=
  match hourOf tza implParse r with
  | Some h' => h <=? h'
  | None => false
  end.

(** The entry falls on the day of the week [i] (0 = Sunday). *)
Definition onWeekday (i : Z) (e : Monthly.DayEntry) : bool :=
  match Monthly.dayOfWeek e with
  | Some j => j =? i
  | None => false
  end.

(** The keys of the weeks of a month: the texts of 0, 1, ..., [k]. *)
Definition weekKeys (k : nat) : list string :=
  map (fun w => Helpers.String_of_Z (Z.of_nat w)) (seq 0 (S k)).

(** The week of the month of day [d] when the first of the month is [a]
    days after a Monday, and the first day of the month in week [w]. *)
Definition weekIndex (a d : Z) : Z := (d - 1 + a) / 7.

Definition weekStartDay (a w : Z) : Z := Z.max 1 (7 * w - a + 1).

(** How far the first of the month is from the Monday on or before it. *)
Definition daysAfterMonday (y m : Z) : Z := (WeekDay (firstOf y m) + 6) mod 7.

(** The day numbers from 1 to [n] that fall in week [w]. *)
Definition daysOfWeek (a w : Z) (n : nat) : list nat :=
  filter (fun d => weekIndex a (Z.of_nat d) =? w) (seq 1 n).

(** The applications of a list of days, collected from the day map in the
    order of the days. *)
Definition appsOfDays (dayMap : obj DayStats) (days : list Monthly.DayEntry)
  : list string :=
  fold_left (fun acc d => match getOwn dayMap (Monthly.date d) with
                          | Some dm => fold_left setAdd (dapps dm) acc
                          | None => acc
                          end) days [].

(** What a week holds that is made of the day entries [days] and began
    on [startDate]. *)
Definition weekStatsOf (dayMap : obj DayStats) (days : list Monthly.DayEntry)
    (startDate : string) : MonthViews.WeekStats :=
  MonthViews.mkWeekStats
    (sumZ (map Monthly.dayCount days))
    (sumZ (map Monthly.dayWords days))
    (appsOfDays dayMap days)
    startDate.

(** A text with every character replaced by a text of its own. *)
Fixpoint eachChar (f : ascii -> string) (s : string) : string :=
  match s with
  | EmptyString => EmptyString
  | String c rest => f c ++ eachChar f rest
  end.

(** The four characters that have an entity in HTML. *)
Definition special (c : ascii) : bool :=
  Ascii.eqb c "&" || Ascii.eqb c "<" || Ascii.eqb c ">"
  || Ascii.eqb c Helpers.quote.

(** The entity that stands for a character in HTML, the character itself
    where it needs none. *)
Definition entity (c : ascii) : string :=
  if Ascii.eqb c "&" then "&amp;"
  else if Ascii.eqb c "<" then "&lt;"
  else if Ascii.eqb c ">" then "&gt;"
  else if Ascii.eqb c Helpers.quote then "&quot;"
  else String c EmptyString.

End Terms.

(* ================================================================== *)
(** ** Sample inputs *)
(* ================================================================== *)

(** Concrete rows and settings the statements below are evaluated at. *)

Module Samples.
Import JS Date Recap.

(** An engine that accepts nothing beyond the one fixed format. *)
Definition strictParse (s : string) : option Z := None.

Definition hours (n : Z) : Z := n * msPerHour.

(** Two applications whose names are array indices, met in the order
    "10", "2". *)
Definition indexNamedRows : list Row :=
  [ mkRow "2026-01-01T09:00:00" (Some "com.acme.10") (Some 3);
    mkRow "2026-01-01T10:00:00" (Some "com.acme.2") (Some 4) ].

(** Four rows, two at 9 and two at 14 local time. *)
Definition twoPeaksRows : list Row :=
  [ mkRow "2026-01-01T14:00:00" (Some "com.apple.Safari") (Some 10);
    mkRow "2026-01-01T09:15:00" (Some "com.apple.mail") (Some 20);
    mkRow "2026-01-01T14:30:00" (Some "com.apple.Safari") (Some 5);
    mkRow "2026-01-01T09:45:00" None None ].

(** A valid row followed by one whose timestamp is the text of a Julian
    day number, that of 2026-01-01 09:00 UTC.  SQLite's [date()] reads
    such a text as that day, so the query of the daily script for
    2026-01-01 returns the row, after the valid one in the order of the
    texts; [new Date] makes no date of it. *)
Definition goodRow : Row :=
  mkRow "2026-01-01T09:00:00" (Some "com.apple.Safari") (Some 7).

Definition badRow : Row :=
  mkRow "2461041.875" (Some "com.apple.Safari") (Some 5).

Definition mixedRows : list Row := [goodRow; badRow].

(** The same with a second Julian day number, that of 09:36 UTC. *)
Definition laterBadRow : Row :=
  mkRow "2461041.9" (Some "com.apple.mail") (Some 4).

Definition mostlyInvalidRows : list Row := [goodRow; badRow; laterBadRow].

(** One row in Safari and one in an application whose identifier ends in
    the name of a member of [Object.prototype]. *)
Definition inheritedNameRows : list Row :=
  [ mkRow "2026-01-01T09:00:00" (Some "com.apple.Safari") (Some 7);
    mkRow "2026-01-01T09:05:00" (Some "com.example.toString") (Some 9) ].

(** Forty rows: twenty-three in one application, seventeen in another. *)
Definition rowsOf (n : nat) (a : string) : list Row :=
  repeat (mkRow "2026-01-01T09:00:00" (Some a) (Some 1)) n.

Definition fortyRows : list Row :=
  (rowsOf 23 "com.apple.Safari" ++ rowsOf 17 "com.apple.mail")%list.

(** Thirty rows of a hundred words each, ten on each of three days of
    February 2024. *)
Definition rowsOn (n : nat) (day : string) : list Row :=
  repeat (mkRow (day ++ "T10:00:00") (Some "com.apple.Notes") (Some 100)) n.

Definition threeDayRows : list Row :=
  (rowsOn 10 "2024-02-05" ++ rowsOn 10 "2024-02-06"
   ++ rowsOn 10 "2024-02-20")%list.

(** Three rows on three days of February 2024 with 2^53 - 1 words in
    all.  Every partial sum is below 2^53, so the script's [totalWords]
    is that number exactly. *)
Definition hugeWordRows : list Row :=
  [ mkRow "2024-02-05T10:00:00" (Some "com.apple.Notes")
      (Some 3002399751580330);
    mkRow "2024-02-06T10:00:00" (Some "com.apple.Notes")
      (Some 3002399751580330);
    mkRow "2024-02-20T10:00:00" (Some "com.apple.Notes")
      (Some 3002399751580331) ].

(** What [getMonthRange] returns for 2024-02 in UTC. *)
Definition february2024 : Monthly.MonthRange :=
  Monthly.mkMonthRange "2024-02-01" "2024-02-29" 2024 2 "February 2024" 29.

(** The day map of [threeDayRows] and the day entries of February 2024
    made of it in UTC. *)
Definition threeDayMap : obj DayStats :=
  match dayMapOf threeDayRows with Some dayMap => dayMap | None => [] end.

Definition threeDayEntries : list Monthly.DayEntry :=
  Monthly.fillDays 0 strictParse february2024 threeDayMap.

(** A store that holds nothing in any range, and stores that return the
    same rows whatever the range. *)
Definition emptyDay (d : string) : list Row := [].
Definition emptyRange (s e : string) : list Row := [].
Definition always (rows : list Row) (s e : string) : list Row := rows.

(** A store queried as the scripts do: the rows whose day lies between
    [s] and [e], in the order of the store. *)
Definition between (store : list Row) (s e : string) : list Row :=
  filter (fun r => String.leb s (slice0 10 (timestamp r))
                   && String.leb (slice0 10 (timestamp r)) e) store.

(** A store with one dictation on 2024-01-31 and one on 2024-02-29. *)
Definition leapStore : list Row :=
  [ mkRow "2024-01-31T09:00:00" (Some "com.apple.Safari") (Some 7);
    mkRow "2024-02-29T09:00:00" (Some "com.apple.Safari") (Some 9) ].

(** A store with one dictation on each of 2025-12-27 (a Saturday) and
    2026-01-03 (the Saturday after). *)
Definition newYearStore : list Row :=
  [ mkRow "2025-12-27T09:00:00" (Some "com.apple.Safari") (Some 7);
    mkRow "2026-01-03T09:00:00" (Some "com.apple.Safari") (Some 9) ].

(** The rows of [mixedRows] with a text each. *)
Definition mixedDictations : list Transcripts.Dictation :=
  map (fun r => Transcripts.mkDictation r "Some dictated text.") mixedRows.

(** The rows of [inheritedNameRows] with a text each. *)
Definition inheritedNameDictations : list Transcripts.Dictation :=
  map (fun r => Transcripts.mkDictation r "Some dictated text.")
      inheritedNameRows.

End Samples.

(* ================================================================== *)
(** ** Facts about objects, [Object.entries] and [sort] *)
(* ================================================================== *)

Module JSFacts.
Import JS Spec.

Lemma eqb_sym_false (a b : string) :
  String.eqb a b = false -> String.eqb b a = false.
Proof. rewrite (String.eqb_sym b a). exact (fun H => H). Qed.

Section Objects.
Context {V : Type}.
Implicit Types (o : obj V) (k : string) (v : V).

Lemma getOwn_setOwn_same o k v : getOwn (setOwn o k v) k = Some v.
Proof.
  induction o as [|[k' v'] o IH]; simpl.
  - now rewrite String.eqb_refl.
  - destruct (String.eqb k k') eqn:E; simpl; rewrite E; auto.
Qed.

Lemma getOwn_setOwn_other o k k' v :
  k <> k' -> getOwn (setOwn o k v) k' = getOwn o k'.
Proof.
  intros Hne. induction o as [|[k1 v1] o IH]; simpl.
  - destruct (String.eqb k' k) eqn:E; auto.
    apply String.eqb_eq in E. congruence.
  - destruct (String.eqb k k1) eqn:E; simpl.
    + apply String.eqb_eq in E. subst k1.
      destruct (String.eqb k' k) eqn:E'; auto.
      apply String.eqb_eq in E'. congruence.
    + destruct (String.eqb k' k1); auto.
Qed.

Lemma hasOwn_mem o k : hasOwn o k = mem k (map fst o).
Proof.
  unfold hasOwn, mem. induction o as [|[k' v'] o IH]; simpl; auto.
  destruct (String.eqb k k'); simpl; auto.
Qed.

Lemma mem_In k (l : list string) : mem k l = true <-> In k l.
Proof.
  unfold mem. rewrite existsb_exists. split.
  - intros [x [Hin Heq]]. apply String.eqb_eq in Heq. now subst.
  - intros Hin. exists k. split; auto. apply String.eqb_refl.
Qed.

Lemma mem_false k (l : list string) : mem k l = false <-> ~ In k l.
Proof.
  rewrite <- mem_In. destruct (mem k l); split; congruence.
Qed.

Lemma getOwn_In o k v : getOwn o k = Some v -> In (k, v) o.
Proof.
  induction o as [|[k' v'] o IH]; simpl; [discriminate|].
  destruct (String.eqb k k') eqn:E.
  - apply String.eqb_eq in E. intros [= ->]. subst. now left.
  - intros H. right. auto.
Qed.

Lemma In_getOwn o k v :
  NoDup (map fst o) -> In (k, v) o -> getOwn o k = Some v.
Proof.
  induction o as [|[k' v'] o IH]; simpl; [tauto|].
  intros Hnd [Heq | Hin].
  - inversion Heq; subst. now rewrite String.eqb_refl.
  - inversion Hnd as [|? ? Hnotin Hnd']; subst.
    destruct (String.eqb k k') eqn:E.
    + apply String.eqb_eq in E. subst k'.
      exfalso. apply Hnotin. now apply (in_map fst) in Hin.
    + auto.
Qed.

Lemma getOwn_None o k : getOwn o k = None <-> ~ In k (map fst o).
Proof.
  rewrite <- mem_false, <- hasOwn_mem. unfold hasOwn.
  destruct (getOwn o k); split; congruence.
Qed.

Lemma keys_setOwn o k v :
  map fst (setOwn o k v)
  = if hasOwn o k then map fst o else (map fst o ++ [k])%list.
Proof.
  unfold hasOwn. induction o as [|[k' v'] o IH]; simpl; auto.
  destruct (String.eqb k k') eqn:E; simpl; auto.
  rewrite IH. destruct (getOwn o k); auto.
Qed.

Lemma setOwn_nonempty o k v : setOwn o k v <> [].
Proof. destruct o as [|[k' v'] o]; simpl; [|destruct (String.eqb k k')]; discriminate. Qed.

Lemma NoDup_keys_setOwn o k v :
  NoDup (map fst o) -> NoDup (map fst (setOwn o k v)).
Proof.
  intros Hnd. rewrite keys_setOwn. destruct (hasOwn o k) eqn:E; auto.
  rewrite hasOwn_mem in E. apply mem_false in E.
  apply NoDup_app; auto.
  - constructor; [simpl; tauto | constructor].
  - intros x Hx [<- | []]. contradiction.
Qed.
End Objects.

(** *** First occurrences *)

Lemma firstIndex_mem k l : firstIndex k l = None <-> mem k l = false.
Proof.
  unfold mem. induction l as [|x l IH]; simpl; [tauto|].
  destruct (String.eqb k x); simpl; [split; discriminate|].
  destruct (firstIndex k l); simpl in *; split; intros H;
    try discriminate; try reflexivity; try tauto.
  apply IH in H. discriminate.
Qed.

Lemma firstIndex_In k l : firstIndex k l <> None <-> In k l.
Proof.
  rewrite <- mem_In, firstIndex_mem. destruct (mem k l); split; congruence.
Qed.

(** What [earlier] is on a list with one more element in front. *)
Lemma earlier_cons a b x l :
  earlier a b (x :: l)
  = if String.eqb a x then negb (String.eqb b x) && mem b l
    else if String.eqb b x then false
    else earlier a b l.
Proof.
  unfold earlier. simpl.
  destruct (String.eqb a x), (String.eqb b x); simpl; auto.
  - pose proof (firstIndex_mem b l) as H.
    destruct (firstIndex b l), (mem b l); simpl; auto.
    + destruct H as [_ H]. discriminate H; auto.
    + destruct H as [H _]. discriminate H; auto.
  - destruct (firstIndex a l); auto.
  - destruct (firstIndex a l), (firstIndex b l); simpl; auto.
Qed.

Lemma earlier_nil a b : earlier a b [] = false.
Proof. reflexivity. Qed.

Lemma earlier_mem_l a b l : earlier a b l = true -> mem a l = true.
Proof.
  unfold earlier. intros H. destruct (mem a l) eqn:E; auto.
  apply firstIndex_mem in E. now rewrite E in H.
Qed.

Lemma earlier_mem_r a b l : earlier a b l = true -> mem b l = true.
Proof.
  unfold earlier. intros H. destruct (mem b l) eqn:E; auto.
  apply firstIndex_mem in E. rewrite E in H.
  now destruct (firstIndex a l).
Qed.

Lemma earlier_irrefl a l : earlier a a l = false.
Proof.
  unfold earlier. destruct (firstIndex a l); auto. apply Nat.ltb_irrefl.
Qed.

Lemma mem_cons k x l : mem k (x :: l) = String.eqb k x || mem k l.
Proof. reflexivity. Qed.

Lemma mem_app k l1 l2 : mem k (l1 ++ l2)%list = mem k l1 || mem k l2.
Proof. unfold mem. apply existsb_app. Qed.

(** Filtering keeps the order of the elements it keeps. *)
Lemma mem_map_filter {A} (f : A -> string) (P : A -> bool) L k :
  (forall e, In e L -> f e = k -> P e = true) ->
  mem k (map f (filter P L)) = mem k (map f L).
Proof.
  induction L as [|e L IH]; intros H; simpl; auto.
  destruct (P e) eqn:E; simpl; rewrite ?mem_cons, IH; auto.
  - intros e' Hin. apply H. now right.
  - destruct (String.eqb k (f e)) eqn:Ek; auto.
    apply String.eqb_eq in Ek. rewrite H in E; [discriminate|now left|auto].
  - intros e' Hin. apply H. now right.
Qed.

Lemma earlier_map_filter {A} (f : A -> string) (P : A -> bool) L a b :
  (forall e, In e L -> f e = a \/ f e = b -> P e = true) ->
  earlier a b (map f (filter P L)) = earlier a b (map f L).
Proof.
  induction L as [|e L IH]; intros H; simpl; auto.
  assert (HL : forall e', In e' L -> f e' = a \/ f e' = b -> P e' = true).
  { intros e' Hin. apply H. now right. }
  destruct (P e) eqn:E; simpl.
  - rewrite !earlier_cons, IH by auto.
    rewrite mem_map_filter; auto.
  - rewrite earlier_cons, IH by auto.
    destruct (String.eqb a (f e)) eqn:Ea.
    { apply String.eqb_eq in Ea. rewrite H in E; [discriminate|now left|auto]. }
    destruct (String.eqb b (f e)) eqn:Eb; auto.
    apply String.eqb_eq in Eb. rewrite H in E; [discriminate|now left|auto].
Qed.

Lemma earlier_app_skip a b l1 l2 :
  ~ In a l1 -> ~ In b l1 ->
  earlier a b (l1 ++ l2)%list = earlier a b l2.
Proof.
  induction l1 as [|x l1 IH]; simpl; auto. intros Ha Hb.
  rewrite earlier_cons.
  destruct (String.eqb a x) eqn:Ea.
  { apply String.eqb_eq in Ea. subst. tauto. }
  destruct (String.eqb b x) eqn:Eb.
  { apply String.eqb_eq in Eb. subst. tauto. }
  apply IH; tauto.
Qed.

Lemma earlier_app_lr a b l1 l2 :
  In a l1 -> ~ In b l1 -> In b l2 ->
  earlier a b (l1 ++ l2)%list = true.
Proof.
  induction l1 as [|x l1 IH]; simpl; [tauto|]. intros Ha Hb Hb2.
  rewrite earlier_cons.
  assert (Eb : String.eqb b x = false).
  { apply String.eqb_neq. intros ->. tauto. }
  rewrite Eb. destruct (String.eqb a x) eqn:Ea; simpl.
  - rewrite mem_app. apply mem_In in Hb2. rewrite Hb2. apply orb_true_r.
  - apply IH; auto. destruct Ha as [<- | Ha]; auto.
    now rewrite String.eqb_refl in Ea.
Qed.

Lemma earlier_app_left a b l1 l2 :
  In a l1 -> In b l1 ->
  earlier a b (l1 ++ l2)%list = earlier a b l1.
Proof.
  induction l1 as [|x l1 IH]; simpl; [tauto|]. intros Ha Hb.
  rewrite !earlier_cons.
  destruct (String.eqb a x) eqn:Ea; destruct (String.eqb b x) eqn:Eb;
    simpl; auto.
  - rewrite mem_app.
    destruct Hb as [-> | Hb]; [now rewrite String.eqb_refl in Eb|].
    apply mem_In in Hb. now rewrite Hb.
  - apply IH.
    + destruct Ha as [-> | Ha]; auto. now rewrite String.eqb_refl in Ea.
    + destruct Hb as [-> | Hb]; auto. now rewrite String.eqb_refl in Eb.
Qed.

Lemma earlier_snoc a b l x :
  earlier a b (l ++ [x])%list
  = if mem a l then (if mem b l then earlier a b l else String.eqb b x)
    else false.
Proof.
  induction l as [|y l IH].
  - rewrite app_nil_l, earlier_cons. cbn.
    destruct (String.eqb a x), (String.eqb b x); auto.
  - rewrite <- app_comm_cons.
    rewrite !earlier_cons, !mem_cons, IH, mem_app. cbn [mem existsb].
    destruct (String.eqb a y) eqn:Ea; destruct (String.eqb b y) eqn:Eb;
      cbn [orb andb negb]; auto.
    + destruct (mem b l); cbn; auto. now rewrite orb_false_r.
    + now destruct (mem a l).
Qed.


(** *** The stable sort *)

Section SortFacts.
Context {A : Type} (cmp : A -> A -> Z) (key : A -> Z).
Hypothesis cmp_key : forall a b, cmp a b = key b - key a.

Lemma insertSorted_perm x l : Permutation (insertSorted cmp x l) (x :: l).
Proof.
  induction l as [|y l IH]; simpl; auto.
  destruct (0 <? cmp x y); auto.
  rewrite IH. apply perm_swap.
Qed.

Lemma sort_perm l : Permutation (sort cmp l) l.
Proof.
  induction l as [|x l IH]; simpl; auto.
  rewrite insertSorted_perm. now constructor.
Qed.

Lemma sort_length l : List.length (sort cmp l) = List.length l.
Proof. apply Permutation_length, sort_perm. Qed.

Lemma sort_In x l : In x (sort cmp l) <-> In x l.
Proof.
  split; apply Permutation_in; [|symmetry]; apply sort_perm.
Qed.

Lemma insertSorted_desc x l :
  StronglySorted (descBy key) l -> StronglySorted (descBy key) (insertSorted cmp x l).
Proof.
  induction 1 as [|y l Hl IH Hy]; simpl.
  - repeat constructor.
  - rewrite cmp_key. destruct (0 <? key y - key x) eqn:E.
    + constructor; auto.
      rewrite Forall_forall in *. intros z Hz.
      apply (Permutation_in _ (insertSorted_perm x l)) in Hz.
      destruct Hz as [<- | Hz]; [unfold descBy; lia | auto].
    + constructor; [constructor; auto|].
      constructor; [unfold descBy; lia|].
      rewrite Forall_forall in *. intros z Hz.
      specialize (Hy z Hz). unfold descBy in *. lia.
Qed.

Lemma sort_desc l : StronglySorted (descBy key) (sort cmp l).
Proof.
  induction l; simpl; [constructor | now apply insertSorted_desc].
Qed.

(** Stability: the elements of one key come out in the order they
    went in. *)
Lemma insertSorted_filter c x l :
  filter (fun e => key e =? c) (insertSorted cmp x l)
  = filter (fun e => key e =? c) (x :: l).
Proof.
  induction l as [|y l IH]; auto.
  cbn [insertSorted]. rewrite cmp_key.
  destruct (0 <? key y - key x) eqn:E; auto.
  cbn [filter] in *. rewrite IH.
  destruct (key y =? c) eqn:Ey; destruct (key x =? c) eqn:Ex; auto.
  lia.
Qed.

Lemma sort_stable c l :
  filter (fun e => key e =? c) (sort cmp l)
  = filter (fun e => key e =? c) l.
Proof.
  induction l as [|x l IH]; auto.
  cbn [sort fold_right]. fold (sort cmp l).
  rewrite insertSorted_filter. cbn [filter]. now rewrite IH.
Qed.

Lemma hd_insertSorted x l :
  hd_error (insertSorted cmp x l)
  = match hd_error l with
    | Some y => if key x <? key y then Some y else Some x
    | None => Some x
    end.
Proof.
  destruct l as [|y l]; auto.
  cbn [insertSorted hd_error]. rewrite cmp_key.
  replace (0 <? key y - key x) with (key x <? key y) by lia.
  now destruct (key x <? key y).
Qed.

(** The head of the sorted list is the first of the greatest. *)
Lemma hd_sort_first_max l x :
  hd_error (sort cmp l) = Some x ->
  exists l1 l2, l = (l1 ++ x :: l2)%list
    /\ (forall e, In e l1 -> key e < key x)
    /\ (forall e, In e l2 -> key e <= key x).
Proof.
  revert x. induction l as [|a l IH]; intros x; [discriminate|].
  cbn [sort fold_right]. fold (sort cmp l).
  rewrite hd_insertSorted.
  destruct (hd_error (sort cmp l)) as [y|] eqn:Ey.
  - destruct (IH y eq_refl) as (l1 & l2 & -> & H1 & H2).
    destruct (key a <? key y) eqn:E; intros [= <-].
    + exists (a :: l1), l2. repeat split; auto.
      intros e [<- | He]; [lia | auto].
    + exists [], (l1 ++ y :: l2)%list. repeat split; auto.
      * intros e [].
      * intros e He. apply in_app_or in He.
        destruct He as [He | [<- | He]];
          [specialize (H1 e He) | | specialize (H2 e He)]; lia.
  - intros [= <-]. exists [], l. repeat split; auto.
    + intros e [].
    + assert (Hl : l = []).
      { destruct l as [|b l]; auto.
        pose proof (sort_length (b :: l)) as Hn.
        destruct (sort cmp (b :: l)); [discriminate Hn | discriminate Ey]. }
      subst l. intros e [].
Qed.

Lemma hd_sort_nonempty l : l <> [] -> hd_error (sort cmp l) <> None.
Proof.
  intros Hl Hn. pose proof (sort_length l) as Hlen.
  destruct (sort cmp l); [|discriminate].
  destruct l; [congruence | discriminate].
Qed.
End SortFacts.

(** *** [Object.entries] *)

Section EntriesFacts.
Context {V : Type}.
Implicit Types (o : obj V) (e : string * V).

Lemma insertIndexed_perm e (l : list (string * V)) :
  Permutation (insertIndexed e l) (e :: l).
Proof.
  induction l as [|y l IH]; simpl; auto.
  destruct (indexOr0 (fst e) <=? indexOr0 (fst y))%N; auto.
  rewrite IH. apply perm_swap.
Qed.

Lemma sortIndexed_perm (l : list (string * V)) :
  Permutation (sortIndexed l) l.
Proof.
  induction l as [|x l IH]; simpl; auto.
  rewrite insertIndexed_perm. now constructor.
Qed.

Lemma insertIndexed_asc e (l : list (string * V)) :
  StronglySorted ascIndex l -> StronglySorted ascIndex (insertIndexed e l).
Proof.
  induction 1 as [|y l Hl IH Hy]; simpl.
  - repeat constructor.
  - destruct (indexOr0 (fst e) <=? indexOr0 (fst y))%N eqn:E.
    + apply N.leb_le in E.
      constructor; [constructor; auto|].
      constructor; [exact E|].
      rewrite Forall_forall in *. intros z Hz.
      specialize (Hy z Hz). unfold ascIndex in *. lia.
    + apply N.leb_gt in E. constructor; auto.
      rewrite Forall_forall in *. intros z Hz.
      apply (Permutation_in _ (insertIndexed_perm e l)) in Hz.
      destruct Hz as [<- | Hz]; [unfold ascIndex; lia | auto].
Qed.

Lemma sortIndexed_asc (l : list (string * V)) :
  StronglySorted ascIndex (sortIndexed l).
Proof.
  induction l; simpl; [constructor | now apply insertIndexed_asc].
Qed.

Lemma filter_split (p : string * V -> bool) (l : list (string * V)) :
  Permutation (filter p l ++ filter (fun e => negb (p e)) l)%list l.
Proof.
  induction l as [|x l IH]; simpl; auto.
  destruct (p x); simpl.
  - now constructor.
  - rewrite <- Permutation_middle. now constructor.
Qed.

Lemma entries_perm o : Permutation (entries o) o.
Proof.
  unfold entries. rewrite sortIndexed_perm. apply filter_split.
Qed.

Lemma entries_length o : List.length (entries o) = List.length o.
Proof. apply Permutation_length, entries_perm. Qed.

Lemma entries_In e o : In e (entries o) <-> In e o.
Proof.
  split; apply Permutation_in; [|symmetry]; apply entries_perm.
Qed.

Lemma entries_NoDup o :
  NoDup (map fst o) -> NoDup (map fst (entries o)).
Proof.
  apply Permutation_NoDup, Permutation_map. symmetry.
  apply entries_perm.
Qed.

Lemma keys_filter_index o k :
  In k (map fst (filter (fun e => isIndex (fst e)) o)) ->
  isIndex k = true /\ In k (map fst o).
Proof.
  rewrite in_map_iff. intros [e [<- He]].
  apply filter_In in He. destruct He as [He Hi]. split; auto.
  now apply in_map.
Qed.

Lemma keys_sortIndexed k (l : list (string * V)) :
  In k (map fst (sortIndexed l)) <-> In k (map fst l).
Proof.
  split; apply Permutation_in, Permutation_map;
    [|symmetry]; apply sortIndexed_perm.
Qed.

Lemma keys_entries o :
  map fst (entries o)
  = (map fst (sortIndexed (filter (fun e => isIndex (fst e)) o))
     ++ map fst (filter (fun e => negb (isIndex (fst e))) o))%list.
Proof. unfold entries. apply map_app. Qed.

(** Keys that are not array indices keep their creation order. *)
Lemma entries_order_plain o a b :
  isIndex a = false -> isIndex b = false ->
  earlier a b (map fst (entries o)) = earlier a b (map fst o).
Proof.
  intros Ha Hb. rewrite keys_entries, earlier_app_skip.
  - apply earlier_map_filter.
    intros e _ [-> | ->]; [now rewrite Ha | now rewrite Hb].
  - intros H. apply keys_sortIndexed, keys_filter_index in H.
    destruct H as [H _]. congruence.
  - intros H. apply keys_sortIndexed, keys_filter_index in H.
    destruct H as [H _]. congruence.
Qed.

Lemma In_keys_filter (p : string -> bool) o k :
  In k (map fst o) -> p k = true ->
  In k (map fst (filter (fun e => p (fst e)) o)).
Proof.
  rewrite !in_map_iff. intros [e [<- He]] Hp.
  exists e. split; auto. apply filter_In. auto.
Qed.

(** Array indices come before every other key. *)
Lemma entries_order_index_first o a b :
  isIndex a = true -> isIndex b = false ->
  In a (map fst o) -> In b (map fst o) ->
  earlier a b (map fst (entries o)) = true.
Proof.
  intros Ha Hb Hina Hinb. rewrite keys_entries.
  apply earlier_app_lr.
  - apply keys_sortIndexed. now apply (In_keys_filter isIndex).
  - intros H. apply keys_sortIndexed, keys_filter_index in H.
    destruct H as [H _]. congruence.
  - apply (In_keys_filter (fun k => negb (isIndex k))); auto.
    now rewrite Hb.
Qed.

Lemma earlier_asc (l : list (string * V)) a b :
  StronglySorted ascIndex l ->
  In a (map fst l) -> In b (map fst l) ->
  (indexOr0 a < indexOr0 b)%N ->
  earlier a b (map fst l) = true.
Proof.
  induction 1 as [|x l Hl IH Hx]; simpl; [tauto|].
  intros Ha Hb Hlt. rewrite earlier_cons.
  assert (Hbx : a = fst x -> String.eqb b (fst x) = false).
  { intros ->. apply String.eqb_neq. intros ->. lia. }
  destruct (String.eqb a (fst x)) eqn:Ea.
  - apply String.eqb_eq in Ea. rewrite (Hbx Ea). simpl.
    apply mem_In. destruct Hb as [Hb | Hb]; auto.
    subst a. rewrite Hb in Hlt. lia.
  - apply String.eqb_neq in Ea.
    destruct Ha as [Ha | Ha]; [congruence|].
    destruct (String.eqb b (fst x)) eqn:Eb.
    + apply String.eqb_eq in Eb. subst b. exfalso.
      rewrite Forall_forall in Hx. apply in_map_iff in Ha.
      destruct Ha as [e [<- He]]. specialize (Hx e He).
      unfold ascIndex in Hx. lia.
    + apply String.eqb_neq in Eb.
      destruct Hb as [Hb | Hb]; [congruence|]. auto.
Qed.

(** Array indices are listed in ascending numeric order. *)
Lemma entries_order_index_asc o a b i j :
  arrayIndex a = Some i -> arrayIndex b = Some j -> (i < j)%N ->
  In a (map fst o) -> In b (map fst o) ->
  earlier a b (map fst (entries o)) = true.
Proof.
  intros Ha Hb Hlt Hina Hinb.
  assert (Hia : isIndex a = true) by (unfold isIndex; now rewrite Ha).
  assert (Hib : isIndex b = true) by (unfold isIndex; now rewrite Hb).
  rewrite keys_entries, earlier_app_left.
  - apply earlier_asc.
    + apply sortIndexed_asc.
    + apply keys_sortIndexed. now apply (In_keys_filter isIndex).
    + apply keys_sortIndexed. now apply (In_keys_filter isIndex).
    + unfold indexOr0. now rewrite Ha, Hb.
  - apply keys_sortIndexed. now apply (In_keys_filter isIndex).
  - apply keys_sortIndexed. now apply (In_keys_filter isIndex).
Qed.
End EntriesFacts.

(** *** Decimal keys *)

Lemma digits_String_of_N n : digits_to_N (String_of_N n) = Some n.
Proof.
  unfold digits_to_N, String_of_N.
  rewrite NilEmpty.usu. cbn [option_map].
  now rewrite DecimalN.Unsigned.of_to.
Qed.

Lemma String_of_N_inj n m : String_of_N n = String_of_N m -> n = m.
Proof.
  intros H. apply (f_equal digits_to_N) in H.
  rewrite !digits_String_of_N in H. congruence.
Qed.

Lemma arrayIndex_String_of_N n :
  (n <= 4294967294)%N -> arrayIndex (String_of_N n) = Some n.
Proof.
  intros H. unfold arrayIndex. rewrite digits_String_of_N.
  rewrite String.eqb_refl. simpl.
  apply N.leb_le in H. now rewrite H.
Qed.

Lemma arrayIndex_inv k n : arrayIndex k = Some n -> k = String_of_N n.
Proof.
  unfold arrayIndex. destruct (digits_to_N k) as [m|]; [|discriminate].
  destruct (String.eqb (String_of_N m) k) eqn:E; simpl; [|discriminate].
  apply String.eqb_eq in E. destruct (m <=? 4294967294)%N; [|discriminate].
  intros [= <-]. auto.
Qed.

Lemma String_of_N_not_NaN n : String_of_N n <> "NaN".
Proof.
  intros H. apply (f_equal digits_to_N) in H.
  rewrite digits_String_of_N in H. discriminate.
Qed.

End JSFacts.

(* ================================================================== *)
(** ** Facts about the shared aggregation *)
(* ================================================================== *)

Module RecapFacts.
Import JS Date Recap Spec JSFacts.

Lemma getOwn_perm {V} (l l' : obj V) k :
  NoDup (map fst l) -> Permutation l l' -> getOwn l k = getOwn l' k.
Proof.
  intros Hnd Hp.
  assert (Hnd' : NoDup (map fst l')).
  { eapply Permutation_NoDup; [apply Permutation_map, Hp | exact Hnd]. }
  destruct (getOwn l k) as [v|] eqn:E.
  - symmetry. apply In_getOwn; auto.
    eapply Permutation_in; [exact Hp|]. now apply getOwn_In.
  - destruct (getOwn l' k) as [v'|] eqn:E'; auto.
    apply getOwn_In in E'. apply Permutation_sym in Hp.
    apply (Permutation_in _ Hp) in E'.
    apply In_getOwn in E'; auto. congruence.
Qed.

(** *** [appMap] *)

Lemma appStep_getOwn_other r o k :
  k <> resolvedName r -> getOwn (appStep o r) k = getOwn o k.
Proof.
  intros Hne. unfold appStep.
  set (n := resolvedName r) in *.
  assert (Hn : n <> k) by congruence.
  destruct (hasOwn o n || inherited n).
  - destruct (getOwn o n); auto. now rewrite getOwn_setOwn_other.
  - rewrite getOwn_setOwn_same, !getOwn_setOwn_other; auto.
Qed.

Lemma appStep_getOwn_same r o :
  inherited (resolvedName r) = false ->
  getOwn (appStep o r) (resolvedName r)
  = Some (match getOwn o (resolvedName r) with
          | Some st => mkAppStats (count st + 1) (words st + numWordsOr0 r)
                         (bundleId st)
          | None => mkAppStats 1 (numWordsOr0 r) (appOrUnknown r)
          end).
Proof.
  intros Hi. unfold appStep. rewrite Hi, orb_false_r. unfold hasOwn.
  destruct (getOwn o (resolvedName r)) as [st|] eqn:E.
  - now rewrite E, getOwn_setOwn_same.
  - now rewrite !getOwn_setOwn_same.
Qed.

Lemma appStep_bucketCount r o k :
  inherited k = false ->
  bucketCount (appStep o r) k
  = bucketCount o k + (if named k r then 1 else 0).
Proof.
  intros Hi. unfold bucketCount, named.
  destruct (String.eqb (resolvedName r) k) eqn:E.
  - apply String.eqb_eq in E. subst k.
    rewrite appStep_getOwn_same by auto.
    destruct (getOwn o (resolvedName r)); simpl; lia.
  - apply String.eqb_neq in E.
    rewrite appStep_getOwn_other by congruence. lia.
Qed.

Lemma appStep_keys r o :
  map fst (appStep o r)
  = if hasOwn o (resolvedName r) || inherited (resolvedName r)
    then map fst o
    else (map fst o ++ [resolvedName r])%list.
Proof.
  unfold appStep. set (n := resolvedName r).
  destruct (hasOwn o n) eqn:Ho; simpl.
  - unfold hasOwn in Ho. destruct (getOwn o n) eqn:E; [|discriminate].
    rewrite keys_setOwn. unfold hasOwn. now rewrite E.
  - destruct (inherited n) eqn:Hi.
    + unfold hasOwn in Ho. now destruct (getOwn o n).
    + rewrite getOwn_setOwn_same, keys_setOwn.
      unfold hasOwn at 1. rewrite getOwn_setOwn_same.
      rewrite keys_setOwn. now rewrite Ho.
Qed.

Lemma countRows_cons p r rows :
  countRows p (r :: rows) = (if p r then 1 else 0) + countRows p rows.
Proof.
  unfold countRows. cbn [filter]. destruct (p r); cbn [List.length]; lia.
Qed.

Lemma countRows_nonneg p rows : 0 <= countRows p rows.
Proof. unfold countRows. lia. Qed.

Lemma countRows_pos p rows :
  0 < countRows p rows <-> exists r, In r rows /\ p r = true.
Proof.
  unfold countRows. split.
  - intros H. destruct (filter p rows) as [|r l] eqn:E; [simpl in H; lia|].
    exists r. apply filter_In. rewrite E. now left.
  - intros [r Hr]. apply filter_In in Hr.
    destruct (filter p rows); [destruct Hr | simpl; lia].
Qed.

Lemma bucketCount_fold rows acc k :
  inherited k = false ->
  bucketCount (fold_left appStep rows acc) k
  = bucketCount acc k + countRows (named k) rows.
Proof.
  intros Hi. revert acc. induction rows as [|r rows IH]; intros acc; simpl.
  - unfold countRows. simpl. lia.
  - rewrite IH, appStep_bucketCount, countRows_cons by auto. lia.
Qed.

(** Every row is counted in the bucket of its resolved name, unless that
    name is inherited. *)
Lemma appMap_bucketCount rows k :
  inherited k = false ->
  bucketCount (appMapOf rows) k = countRows (named k) rows.
Proof.
  intros Hi. unfold appMapOf. rewrite bucketCount_fold by auto.
  reflexivity.
Qed.

Lemma appMapOf_snoc rows r :
  appMapOf (rows ++ [r]) = appStep (appMapOf rows) r.
Proof. unfold appMapOf. now rewrite fold_left_app. Qed.

Lemma appMap_keys_NoDup rows : NoDup (map fst (appMapOf rows)).
Proof.
  induction rows as [|r rows IH] using rev_ind; [constructor|].
  rewrite appMapOf_snoc, appStep_keys.
  destruct (hasOwn (appMapOf rows) (resolvedName r)) eqn:Ho; simpl; auto.
  destruct (inherited (resolvedName r)); auto.
  rewrite hasOwn_mem in Ho. apply mem_false in Ho.
  apply NoDup_app; auto.
  - constructor; [simpl; tauto | constructor].
  - intros x Hx [<- | []]. contradiction.
Qed.

Lemma appMap_keys_In rows k :
  In k (map fst (appMapOf rows))
  <-> inherited k = false /\ In k (map resolvedName rows).
Proof.
  revert k. induction rows as [|r rows IH] using rev_ind; intros k;
    [simpl; tauto|].
  rewrite appMapOf_snoc, appStep_keys, map_app, in_app_iff. simpl.
  destruct (hasOwn (appMapOf rows) (resolvedName r)) eqn:Ho; simpl.
  - rewrite hasOwn_mem in Ho. apply mem_In in Ho. apply IH in Ho.
    rewrite IH. intuition (subst; auto).
  - destruct (inherited (resolvedName r)) eqn:Hi.
    + rewrite IH. intuition (subst; auto; congruence).
    + rewrite in_app_iff, IH. simpl. intuition (subst; auto).
Qed.

(** Names that are not inherited are created in the order in which they
    are first met. *)
Lemma appMap_order rows a b :
  inherited a = false -> inherited b = false ->
  earlier a b (map fst (appMapOf rows))
  = earlier a b (map resolvedName rows).
Proof.
  intros Ha Hb.
  assert (Hmem : forall rows k, inherited k = false ->
            mem k (map fst (appMapOf rows)) = mem k (map resolvedName rows)).
  { intros rs k Hk.
    destruct (mem k (map resolvedName rs)) eqn:E.
    - apply mem_In. apply appMap_keys_In. split; auto. now apply mem_In.
    - apply mem_false. intros H. apply appMap_keys_In in H.
      destruct H as [_ H]. apply mem_In in H. congruence. }
  induction rows as [|r rows IH] using rev_ind; auto.
  rewrite appMapOf_snoc, appStep_keys, map_app. simpl map.
  rewrite (earlier_snoc a b (map resolvedName rows)).
  rewrite <- !Hmem by auto.
  destruct (hasOwn (appMapOf rows) (resolvedName r)
            || inherited (resolvedName r)) eqn:E.
  - rewrite <- IH.
    destruct (mem a (map fst (appMapOf rows))) eqn:Ea.
    + destruct (mem b (map fst (appMapOf rows))) eqn:Eb; auto.
      destruct (String.eqb b (resolvedName r)) eqn:Er.
      * apply String.eqb_eq in Er. subst b.
        rewrite Hb, orb_false_r, hasOwn_mem in E. congruence.
      * unfold earlier. apply firstIndex_mem in Eb. rewrite Eb.
        now destruct (firstIndex a _).
    + unfold earlier. apply firstIndex_mem in Ea. now rewrite Ea.
  - rewrite earlier_snoc, IH. reflexivity.
Qed.


Lemma countRows_ext p q rows :
  (forall r, In r rows -> p r = q r) -> countRows p rows = countRows q rows.
Proof.
  intros H. unfold countRows. f_equal. f_equal.
  induction rows as [|r rows IH]; simpl; auto.
  rewrite (H r) by now left. rewrite IH; auto.
  intros r' Hr'. apply H. now right.
Qed.

Lemma countRows_le_length p rows :
  countRows p rows <= Z.of_nat (List.length rows).
Proof.
  unfold countRows. apply inj_le. apply filter_length_le.
Qed.

(** *** [hourMap] *)

Section HourFacts.
Variable tza : Z.
Variable implParse : string -> option Z.

Local Abbreviation hourKey := (hourKey tza implParse).
Local Abbreviation hourStep := (hourStep tza implParse).
Local Abbreviation hourMapOf := (hourMapOf tza implParse).

Lemma hourStep_valueAt r o k :
  valueAt (hourStep o r) k
  = valueAt o k + (if String.eqb (hourKey r) k then 1 else 0).
Proof.
  unfold valueAt, Recap.hourStep.
  destruct (String.eqb (hourKey r) k) eqn:E.
  - apply String.eqb_eq in E. subst k. now rewrite getOwn_setOwn_same.
  - apply String.eqb_neq in E. rewrite getOwn_setOwn_other by auto. lia.
Qed.

Lemma hourStep_keys r o :
  map fst (hourStep o r)
  = if hasOwn o (hourKey r) then map fst o
    else (map fst o ++ [hourKey r])%list.
Proof. unfold Recap.hourStep. apply keys_setOwn. Qed.

Lemma valueAt_fold rows acc k :
  valueAt (fold_left hourStep rows acc) k
  = valueAt acc k + countRows (fun r => String.eqb (hourKey r) k) rows.
Proof.
  revert acc. induction rows as [|r rows IH]; intros acc; simpl.
  - unfold countRows. simpl. lia.
  - rewrite IH, hourStep_valueAt, countRows_cons. lia.
Qed.

(** The histogram holds, under each key, the number of rows with that
    key. *)
Lemma hourMap_valueAt rows k :
  valueAt (hourMapOf rows) k
  = countRows (fun r => String.eqb (hourKey r) k) rows.
Proof. unfold Recap.hourMapOf. now rewrite valueAt_fold. Qed.

Lemma hourMapOf_snoc rows r :
  hourMapOf (rows ++ [r]) = hourStep (hourMapOf rows) r.
Proof. unfold Recap.hourMapOf. now rewrite fold_left_app. Qed.

Lemma hourMap_keys_NoDup rows : NoDup (map fst (hourMapOf rows)).
Proof.
  induction rows as [|r rows IH] using rev_ind; [constructor|].
  rewrite hourMapOf_snoc. now apply NoDup_keys_setOwn.
Qed.

Lemma hourMap_keys_In rows k :
  In k (map fst (hourMapOf rows)) <-> In k (map hourKey rows).
Proof.
  revert k. induction rows as [|r rows IH] using rev_ind; intros k;
    [simpl; tauto|].
  rewrite hourMapOf_snoc, hourStep_keys, map_app, in_app_iff. simpl.
  destruct (hasOwn (hourMapOf rows) (hourKey r)) eqn:Ho.
  - rewrite hasOwn_mem in Ho. apply mem_In in Ho. apply IH in Ho.
    rewrite IH. intuition (subst; auto).
  - rewrite in_app_iff, IH. simpl. tauto.
Qed.

Lemma hourMap_nonempty rows : rows <> [] -> hourMapOf rows <> [].
Proof.
  destruct rows as [|r rows] using rev_ind; [congruence|].
  intros _. rewrite hourMapOf_snoc. apply setOwn_nonempty.
Qed.

Lemma hourMap_In_value rows k c :
  In (k, c) (hourMapOf rows) ->
  c = countRows (fun r => String.eqb (hourKey r) k) rows /\ 0 < c.
Proof.
  intros Hin.
  assert (Hc : c = countRows (fun r => String.eqb (hourKey r) k) rows).
  { rewrite <- hourMap_valueAt. unfold valueAt.
    now rewrite (In_getOwn _ _ _ (hourMap_keys_NoDup rows) Hin). }
  split; auto. subst c. apply countRows_pos.
  apply (in_map fst) in Hin. apply hourMap_keys_In in Hin.
  apply in_map_iff in Hin. destruct Hin as [r [Hk Hr]].
  exists r. split; auto. simpl in Hk. rewrite Hk. apply String.eqb_refl.
Qed.

Lemma getHours_range t : 0 <= getHours tza t < 24.
Proof. unfold getHours. apply Z.mod_pos_bound. lia. Qed.

Lemma hourKey_parses r :
  parses tza implParse r = true ->
  exists h, hourOf tza implParse r = Some h /\ 0 <= h < 24
            /\ hourKey r = String_of_N (Z.to_N h).
Proof.
  unfold parses, hourOf, Recap.hourKey.
  destruct (Date_parse tza implParse (timestamp r)) as [t|]; [|discriminate].
  intros _. exists (getHours tza t). split; [reflexivity|].
  split; [apply getHours_range | reflexivity].
Qed.

Lemma hourKey_atHour r h :
  parses tza implParse r = true -> 0 <= h ->
  String.eqb (hourKey r) (String_of_N (Z.to_N h)) = atHour tza implParse h r.
Proof.
  intros Hp Hh. destruct (hourKey_parses r Hp) as (hr & Ho & Hr & Hk).
  unfold atHour. rewrite Ho, Hk.
  destruct (hr =? h) eqn:E.
  - apply Z.eqb_eq in E. subst. apply String.eqb_refl.
  - apply String.eqb_neq. intros H. apply String_of_N_inj in H.
    apply Z.eqb_neq in E. lia.
Qed.

End HourFacts.

Lemma StronglySorted_after {A} (R : A -> A -> Prop) l1 x l2 :
  StronglySorted R (l1 ++ x :: l2) -> Forall (R x) l2.
Proof.
  induction l1 as [|y l1 IH]; simpl; intros H.
  - now inversion H.
  - inversion H; auto.
Qed.

End RecapFacts.

(** *** [dayMap] *)

Module DayFacts.
Import JS Date Recap Spec JSFacts RecapFacts.

Lemma dayStep_plain dm r :
  plainDay r = true ->
  dayStep dm r
  = Some (setOwn
            (if hasOwn dm (slice0 10 (timestamp r)) then dm
             else setOwn dm (slice0 10 (timestamp r)) (mkDayStats 0 0 []))
            (slice0 10 (timestamp r))
            (let st := dayOrEmpty dm (slice0 10 (timestamp r)) in
             mkDayStats (dcount st + 1) (dwords st + numWordsOr0 r)
               (if appTruthy r
                then setAdd (dapps st)
                       (match app r with Some a => a | None => "" end)
                else dapps st))).
Proof.
  unfold plainDay, dayStep, dayOrEmpty. intros Hp.
  apply negb_true_iff in Hp. rewrite Hp, orb_false_r. unfold hasOwn.
  destruct (getOwn dm (slice0 10 (timestamp r))) as [st|] eqn:E.
  - now rewrite E.
  - now rewrite getOwn_setOwn_same.
Qed.

Lemma dayStep_dayCountAt dm dm' r k :
  dayStep dm r = Some dm' -> inherited k = false ->
  dayCountAt dm' k = dayCountAt dm k + (if onDay k r then 1 else 0).
Proof.
  unfold dayCountAt, dayOrEmpty, onDay. intros Hs Hk.
  destruct (String.eqb (slice0 10 (timestamp r)) k) eqn:E.
  - apply String.eqb_eq in E.
    assert (Hp : plainDay r = true).
    { unfold plainDay. now rewrite E, Hk. }
    rewrite (dayStep_plain dm r Hp) in Hs. injection Hs as <-.
    rewrite E, getOwn_setOwn_same. unfold dayOrEmpty.
    destruct (getOwn dm k); simpl; lia.
  - apply String.eqb_neq in E. revert Hs. unfold dayStep.
    set (day := slice0 10 (timestamp r)) in *.
    destruct (hasOwn dm day || inherited day).
    + destruct (getOwn dm day).
      * intros [= <-]. rewrite getOwn_setOwn_other by auto. lia.
      * destruct (appTruthy r); [discriminate|]. intros [= <-]. lia.
    + rewrite getOwn_setOwn_same. intros [= <-].
      rewrite !getOwn_setOwn_other by auto. lia.
Qed.

Lemma dayMapFrom_dayCountAt rows acc dm k :
  dayMapFrom acc rows = Some dm -> inherited k = false ->
  dayCountAt dm k = dayCountAt acc k + countRows (onDay k) rows.
Proof.
  revert acc. induction rows as [|r rows IH]; intros acc; simpl.
  - intros [= <-] _. unfold countRows. simpl. lia.
  - destruct (dayStep acc r) as [acc'|] eqn:E; [|discriminate].
    intros Hd Hk. rewrite (IH acc' Hd Hk), countRows_cons.
    rewrite (dayStep_dayCountAt acc acc' r k E Hk). lia.
Qed.

(** Each day key that is not an inherited name holds the number of rows
    of that day. *)
Lemma dayMap_dayCountAt rows dm k :
  dayMapOf rows = Some dm -> inherited k = false ->
  dayCountAt dm k = countRows (onDay k) rows.
Proof.
  intros Hd Hk. unfold dayMapOf in Hd.
  rewrite (dayMapFrom_dayCountAt rows [] dm k Hd Hk). reflexivity.
Qed.

Lemma dayMapFrom_plain rows acc :
  (forall r, In r rows -> plainDay r = true) ->
  exists dm, dayMapFrom acc rows = Some dm.
Proof.
  revert acc. induction rows as [|r rows IH]; intros acc Hp; simpl.
  - now exists acc.
  - rewrite dayStep_plain by (apply Hp; now left).
    apply IH. intros r' Hr'. apply Hp. now right.
Qed.

(** The loop over [dayMap] does not throw when no day key is the name of
    an inherited member. *)
Lemma dayMap_plain rows :
  (forall r, In r rows -> plainDay r = true) ->
  exists dm, dayMapOf rows = Some dm.
Proof. apply dayMapFrom_plain. Qed.

End DayFacts.

(* ================================================================== *)
(** ** Facts about dates *)
(* ================================================================== *)

Module DateFacts.
Import JS Date Spec Terms.

Ltac bool_to_Z :=
  rewrite ?Z.eqb_eq, ?Z.eqb_neq, ?Z.ltb_lt, ?Z.ltb_ge, ?Z.leb_le, ?Z.leb_gt,
    ?andb_true_iff in *.

Ltac floor_lia := Z.div_mod_to_equations; lia.

(** Replaces [daysBeforeMonth] at a known month by its value. *)
Ltac eval_daysBeforeMonth :=
  repeat match goal with
         | |- context [daysBeforeMonth ?l ?x] =>
             let v := eval vm_compute in (daysBeforeMonth l x) in
             change (daysBeforeMonth l x) with v
         | H : context [daysBeforeMonth ?l ?x] |- _ =>
             let v := eval vm_compute in (daysBeforeMonth l x) in
             change (daysBeforeMonth l x) with v in H
         end.

Ltac split_ifs :=
  repeat match goal with
         | |- context [if ?c <? ?d then _ else _] =>
             destruct (c <? d) eqn:?
         end.

Lemma DayFromYear_succ y :
  DayFromYear (y + 1) = DayFromYear y + DaysInYear y.
Proof.
  unfold DayFromYear, DaysInYear, isLeap.
  destruct (y mod 4 =? 0) eqn:E4; destruct (y mod 100 =? 0) eqn:E100;
    destruct (y mod 400 =? 0) eqn:E400; cbn [andb orb negb];
    bool_to_Z; floor_lia.
Qed.

(** [YearFromDay d] is the year whose days include [d]. *)
Lemma YearFromDay_unique y d :
  DayFromYear y <= d < DayFromYear (y + 1) -> YearFromDay d = y.
Proof.
  unfold YearFromDay, DayFromYear. intros H. cbv zeta.
  destruct (d <? _) eqn:E1; [|destruct (_ <=? d) eqn:E2];
    bool_to_Z; floor_lia.
Qed.

Lemma YearFromDay_spec d :
  DayFromYear (YearFromDay d) <= d < DayFromYear (YearFromDay d + 1).
Proof.
  unfold YearFromDay, DayFromYear. cbv zeta.
  destruct (d <? _) eqn:E1; [|destruct (_ <=? d) eqn:E2];
    bool_to_Z; floor_lia.
Qed.

Lemma DayWithinYear_range d :
  0 <= DayWithinYear d < DaysInYear (YearFromDay d).
Proof.
  unfold DayWithinYear. pose proof (YearFromDay_spec d) as H.
  rewrite DayFromYear_succ in H. lia.
Qed.

Lemma monthOfDayInYear_range leap dwy :
  0 <= monthOfDayInYear leap dwy <= 11.
Proof.
  unfold monthOfDayInYear.
  repeat match goal with
         | |- context [if ?c then _ else _] => destruct c
         end; lia.
Qed.

Lemma MonthFromDay_range d : 0 <= MonthFromDay d <= 11.
Proof. apply monthOfDayInYear_range. Qed.

(** The fields of a day give the day back, and a date beyond the month
    carries over: this is all [setDate] needs. *)
Lemma MakeDay_fields d k :
  MakeDay (YearFromDay d) (MonthFromDay d) (DateFromDay d + k) = d + k.
Proof.
  unfold MakeDay. pose proof (MonthFromDay_range d) as Hm.
  rewrite Z.div_small, Z.mod_small, Z.add_0_r by lia.
  unfold DateFromDay, DayWithinYear. lia.
Qed.

Lemma monthOfDayInYear_bounds (leap : bool) dwy :
  0 <= dwy < (if leap then 366 else 365) ->
  daysBeforeMonth leap (monthOfDayInYear leap dwy) <= dwy
  < daysBeforeMonth leap (monthOfDayInYear leap dwy + 1).
Proof.
  intros H. unfold monthOfDayInYear.
  destruct leap; split_ifs; eval_daysBeforeMonth; bool_to_Z; lia.
Qed.

Lemma DateFromDay_range d :
  1 <= DateFromDay d <= daysInMonth (YearFromDay d) (MonthFromDay d).
Proof.
  unfold DateFromDay, daysInMonth, MonthFromDay.
  pose proof (DayWithinYear_range d) as H. unfold DaysInYear in H.
  pose proof (monthOfDayInYear_bounds (isLeap (YearFromDay d))
                (DayWithinYear d) H).
  lia.
Qed.

Lemma monthOfDayInYear_unique (leap : bool) m k :
  0 <= m <= 11 ->
  0 <= k < daysBeforeMonth leap (m + 1) - daysBeforeMonth leap m ->
  monthOfDayInYear leap (daysBeforeMonth leap m + k) = m.
Proof.
  intros Hm Hk.
  assert (Hcases : m = 0 \/ m = 1 \/ m = 2 \/ m = 3 \/ m = 4 \/ m = 5 \/ m = 6
                   \/ m = 7 \/ m = 8 \/ m = 9 \/ m = 10 \/ m = 11) by lia.
  unfold monthOfDayInYear.
  repeat destruct Hcases as [-> | Hcases]; try subst m;
    destruct leap; eval_daysBeforeMonth; split_ifs; bool_to_Z; lia.
Qed.

(** A valid calendar date is the date of its day number. *)
Lemma fields_of_MakeDay y m d :
  0 <= m <= 11 -> 1 <= d <= daysInMonth y m ->
  YearFromDay (MakeDay y m d) = y
  /\ MonthFromDay (MakeDay y m d) = m
  /\ DateFromDay (MakeDay y m d) = d.
Proof.
  intros Hm Hd. unfold daysInMonth in Hd.
  assert (Hn : MakeDay y m d = DayFromYear y + (daysBeforeMonth (isLeap y) m + (d - 1))).
  { unfold MakeDay. rewrite Z.div_small, Z.mod_small, Z.add_0_r by lia. lia. }
  assert (Hbefore : 0 <= daysBeforeMonth (isLeap y) m
                    /\ daysBeforeMonth (isLeap y) (m + 1)
                       <= (if isLeap y then 366 else 365)).
  { assert (Hcases : m = 0 \/ m = 1 \/ m = 2 \/ m = 3 \/ m = 4 \/ m = 5
                     \/ m = 6 \/ m = 7 \/ m = 8 \/ m = 9 \/ m = 10 \/ m = 11)
      by lia.
    repeat destruct Hcases as [-> | Hcases]; try subst m;
      destruct (isLeap y); eval_daysBeforeMonth; lia. }
  assert (Hy : YearFromDay (MakeDay y m d) = y).
  { apply YearFromDay_unique. rewrite DayFromYear_succ, Hn.
    unfold DaysInYear. destruct (isLeap y); lia. }
  assert (Hdwy : DayWithinYear (MakeDay y m d)
                 = daysBeforeMonth (isLeap y) m + (d - 1)).
  { unfold DayWithinYear. rewrite Hy, Hn. lia. }
  assert (Hmo : MonthFromDay (MakeDay y m d) = m).
  { unfold MonthFromDay. rewrite Hy, Hdwy.
    apply monthOfDayInYear_unique; lia. }
  repeat split; auto.
  unfold DateFromDay. rewrite Hmo, Hy, Hdwy. lia.
Qed.

Lemma Day_MakeDate n t : 0 <= t < msPerDay -> Day (MakeDate n t) = n.
Proof.
  unfold Day, MakeDate, msPerDay. intros H. floor_lia.
Qed.

Lemma TimeWithinDay_MakeDate n t :
  0 <= t < msPerDay -> TimeWithinDay (MakeDate n t) = t.
Proof.
  unfold TimeWithinDay, MakeDate, msPerDay. intros H. floor_lia.
Qed.

(** [d.setDate(d.getDate() + k)] moves the date by [k] days. *)
Lemma setDate_shift tza t k :
  setDate tza t (getDate tza t + k) = TimeClip (t + k * msPerDay).
Proof.
  unfold setDate, getDate. rewrite MakeDay_fields. f_equal.
  unfold UTC, LocalTime, MakeDate, Day, TimeWithinDay, msPerDay.
  floor_lia.
Qed.

Lemma WeekDay_range d : 0 <= WeekDay d <= 6.
Proof. unfold WeekDay. floor_lia. Qed.

(** The step back to Monday that [getWeekRange] takes. *)
Lemma diffToMon_monday n :
  let diff := if WeekDay n =? 0 then -6 else 1 - WeekDay n in
  WeekDay (n + diff) = 1 /\ -6 <= diff <= 0.
Proof.
  cbv zeta. unfold WeekDay. destruct ((n + 4) mod 7 =? 0) eqn:E;
    bool_to_Z; floor_lia.
Qed.

(** *** Printing and parsing the date part *)

(** The check that everything below needs of the printed year, run over
    the ten thousand years digit by digit. *)
Lemma isoYear_table :
  forallb (fun a => forallb (fun b => forallb (fun c => forallb (fun d =>
    let y := 1000 * a + 100 * b + 10 * c + d in
    match isoYear y with
    | String _ (String _ (String _ (String _ EmptyString))) =>
        match digits_to_N (isoYear y) with
        | Some v => (Z.of_N v =? y)
        | None => false
        end
    | _ => false
    end
    && negb (occurs "-" (isoYear y))
    && ((y <? 1000) || String.eqb (String_of_N (Z.to_N y)) (isoYear y)))
    decimalDigits) decimalDigits) decimalDigits) decimalDigits = true.
Proof. vm_compute. reflexivity. Qed.

Lemma decimalDigits_In a : 0 <= a <= 9 -> In a decimalDigits.
Proof.
  intros H.
  assert (Hc : a = 0 \/ a = 1 \/ a = 2 \/ a = 3 \/ a = 4 \/ a = 5 \/ a = 6
               \/ a = 7 \/ a = 8 \/ a = 9) by lia.
  unfold decimalDigits. cbn [In]. intuition.
Qed.

Lemma isoYear_facts y :
  0 <= y <= 9999 ->
  (exists a b c d,
     isoYear y = String a (String b (String c (String d EmptyString)))
     /\ digits_to_N (isoYear y) = Some (Z.to_N y))
  /\ occurs "-" (isoYear y) = false
  /\ (1000 <= y -> String_of_N (Z.to_N y) = isoYear y).
Proof.
  intros Hy. pose proof isoYear_table as H.
  rewrite forallb_forall in H.
  specialize (H (y / 1000) ltac:(apply decimalDigits_In; floor_lia)).
  rewrite forallb_forall in H.
  specialize (H (y / 100 mod 10) ltac:(apply decimalDigits_In; floor_lia)).
  rewrite forallb_forall in H.
  specialize (H (y / 10 mod 10) ltac:(apply decimalDigits_In; floor_lia)).
  rewrite forallb_forall in H.
  specialize (H (y mod 10) ltac:(apply decimalDigits_In; floor_lia)).
  cbv zeta in H.
  replace (1000 * (y / 1000) + 100 * (y / 100 mod 10) + 10 * (y / 10 mod 10)
           + y mod 10) with y in H by floor_lia.
  apply andb_true_iff in H. destruct H as (H & H3).
  apply andb_true_iff in H. destruct H as (H1 & H2).
  split; [|split].
  - destruct (isoYear y) as [|a [|b [|c [|d [|]]]]]; try discriminate.
    exists a, b, c, d. split; auto.
    destruct (digits_to_N _) as [v|]; [|discriminate].
    apply Z.eqb_eq in H1. f_equal. lia.
  - now apply negb_true_iff in H2.
  - intros Hk. apply orb_true_iff in H3. destruct H3 as [H3 | H3].
    + apply Z.ltb_lt in H3. lia.
    + now apply String.eqb_eq.
Qed.

Lemma pad2_table :
  forallb (fun n =>
    match pad2 (Z.of_nat n) with
    | String _ (String _ EmptyString) =>
        match digits_to_N (pad2 (Z.of_nat n)) with
        | Some v => (v =? N.of_nat n)%N
        | None => false
        end
    | _ => false
    end) (seq 0 100) = true.
Proof. vm_compute. reflexivity. Qed.

Lemma isoYear_shape y :
  0 <= y <= 9999 ->
  exists a b c d,
    isoYear y = String a (String b (String c (String d EmptyString)))
    /\ digits_to_N (isoYear y) = Some (Z.to_N y).
Proof. intros Hy. apply (isoYear_facts y Hy). Qed.

Lemma pad2_shape n :
  0 <= n <= 99 ->
  exists a b,
    pad2 n = String a (String b EmptyString)
    /\ digits_to_N (pad2 n) = Some (Z.to_N n).
Proof.
  intros Hn. pose proof pad2_table as H.
  rewrite forallb_forall in H. specialize (H (Z.to_nat n)).
  rewrite Z2Nat.id in H by lia.
  assert (Hin : In (Z.to_nat n) (seq 0 100)) by (apply in_seq; lia).
  specialize (H Hin).
  destruct (pad2 n) as [|a [|b [|]]]; try discriminate.
  exists a, b. split; auto.
  destruct (digits_to_N _) as [v|]; [|discriminate].
  apply N.eqb_eq in H. subst v. f_equal. lia.
Qed.

Lemma parse_explicit (y1 y2 y3 y4 m1 m2 d1 d2 : ascii) :
  parseLocalDateTime
    (String y1 (String y2 (String y3 (String y4 (String "-"
       (String m1 (String m2 (String "-" (String d1 (String d2
          "T12:00:00"))))))))))
  = match digits_to_N (String y1 (String y2 (String y3 (String y4 ""))))
          , digits_to_N (String m1 (String m2 ""))
          , digits_to_N (String d1 (String d2 "")) with
    | Some y, Some mo, Some d =>
        if between 1 (Z.of_N mo) 12
           && between 1 (Z.of_N d) (daysInMonth (Z.of_N y) (Z.of_N mo - 1))
        then Some (MakeDate (MakeDay (Z.of_N y) (Z.of_N mo - 1) (Z.of_N d))
                     (12 * msPerHour))
        else None
    | _, _, _ => None
    end.
Proof.
  unfold parseLocalDateTime, field.
  cbn [substring String.length Nat.eqb isChar charAt String.get].
  change (digits_to_N "12") with (Some 12%N).
  change (digits_to_N "00") with (Some 0%N).
  cbn [option_map].
  destruct (digits_to_N (String y1 _)) as [y|]; cbn [option_map]; auto.
  destruct (digits_to_N (String m1 _)) as [mo|]; cbn [option_map]; auto.
  destruct (digits_to_N (String d1 _)) as [d|]; cbn [option_map]; auto.
  change (Ascii.eqb "-" "-") with true. change (Ascii.eqb "T" "T") with true.
  change (Ascii.eqb ":" ":") with true. cbn [andb].
  change (between 0 (Z.of_N 12) 23) with true.
  change (between 0 (Z.of_N 0) 59) with true.
  rewrite !andb_true_r.
  destruct (between 1 (Z.of_N mo) 12 && _); auto.
Qed.

Lemma daysInMonth_le_31 y m : 0 <= m <= 11 -> 28 <= daysInMonth y m <= 31.
Proof.
  intros Hm. unfold daysInMonth.
  assert (Hcases : m = 0 \/ m = 1 \/ m = 2 \/ m = 3 \/ m = 4 \/ m = 5 \/ m = 6
                   \/ m = 7 \/ m = 8 \/ m = 9 \/ m = 10 \/ m = 11) by lia.
  repeat destruct Hcases as [-> | Hcases]; try subst m;
    destruct (isLeap y); eval_daysBeforeMonth; lia.
Qed.

(** For the years 0 to 9999 the printed date has ten characters and reads
    back, with [T12:00:00] after it, as local noon of the same day. *)
Lemma isoDateOfDay_parse n :
  0 <= YearFromDay n <= 9999 ->
  String.length (isoDateOfDay n) = 10%nat
  /\ slice0 10 (isoDateOfDay n) = isoDateOfDay n
  /\ parseLocalDateTime (isoDateOfDay n ++ "T12:00:00")
     = Some (MakeDate n (12 * msPerHour)).
Proof.
  intros Hy. unfold isoDateOfDay.
  pose proof (MonthFromDay_range n) as Hm.
  pose proof (DateFromDay_range n) as Hd.
  pose proof (daysInMonth_le_31 (YearFromDay n) (MonthFromDay n) Hm) as Hdm.
  destruct (isoYear_shape _ Hy) as (y1 & y2 & y3 & y4 & Ey & Dy).
  destruct (pad2_shape (MonthFromDay n + 1) ltac:(lia))
    as (m1 & m2 & Em & Dm).
  destruct (pad2_shape (DateFromDay n) ltac:(lia)) as (d1 & d2 & Ed & Dd).
  rewrite Ey in Dy |- *. rewrite Em in Dm |- *. rewrite Ed in Dd |- *.
  cbn [append]. split; [reflexivity|]. split; [reflexivity|].
  rewrite parse_explicit, Dy, Dm, Dd, !Z2N.id by lia.
  replace (MonthFromDay n + 1 - 1) with (MonthFromDay n) by lia.
  unfold between.
  replace (1 <=? MonthFromDay n + 1) with true by (symmetry; bool_to_Z; lia).
  replace (MonthFromDay n + 1 <=? 12) with true by (symmetry; bool_to_Z; lia).
  replace (1 <=? DateFromDay n) with true by (symmetry; bool_to_Z; lia).
  replace (DateFromDay n <=? daysInMonth (YearFromDay n) (MonthFromDay n))
    with true by (symmetry; bool_to_Z; lia).
  cbn [andb]. f_equal. f_equal.
  pose proof (MakeDay_fields n 0) as H. rewrite !Z.add_0_r in H. exact H.
Qed.

(** A text of ten characters is not the name of an inherited member. *)
Lemma inherited_length k :
  String.length k = 10%nat -> inherited k = false.
Proof.
  intros Hl. unfold inherited, mem, objectPrototypeKeys.
  cbn [existsb].
  repeat match goal with
         | |- context [String.eqb k ?s] =>
             let E := fresh "E" in
             destruct (String.eqb k s) eqn:E;
             [apply String.eqb_eq in E; subst k; discriminate Hl|]
         end.
  reflexivity.
Qed.

Lemma year_range_days n :
  0 <= YearFromDay n <= 9999 -> -719528 <= n <= 2932896.
Proof.
  intros Hy. pose proof (YearFromDay_spec n) as H.
  unfold DayFromYear in H. floor_lia.
Qed.

End DateFacts.

(* ================================================================== *)
(** ** The peak hour *)
(* ================================================================== *)

Module PeakHour.
Import JS Date Recap Spec JSFacts RecapFacts.

Lemma filter_none {A} (p : A -> bool) l :
  (forall e, In e l -> p e = false) -> filter p l = [].
Proof.
  induction l as [|x l IH]; simpl; auto. intros H.
  rewrite (H x) by now left. apply IH. intros e He. apply H. now right.
Qed.

(** When every key is an array index, [Object.entries] is in ascending
    numeric order. *)
Lemma entries_all_index_sorted {V} (o : obj V) :
  (forall e, In e o -> isIndex (fst e) = true) ->
  StronglySorted ascIndex (entries o).
Proof.
  intros H. unfold entries.
  rewrite (filter_none (fun e => negb (isIndex (fst e)))).
  - rewrite app_nil_r. apply sortIndexed_asc.
  - intros e He. now rewrite (H e He).
Qed.

Section Peak.
Variable tza : Z.
Variable implParse : string -> option Z.

Local Abbreviation hourMapOf := (Recap.hourMapOf tza implParse).
Local Abbreviation hourKey := (Recap.hourKey tza implParse).
Local Abbreviation atHour := (Spec.atHour tza implParse).

Lemma hourMap_all_index rows :
  (forall r, In r rows -> parses tza implParse r = true) ->
  forall e, In e (hourMapOf rows) -> isIndex (fst e) = true.
Proof.
  intros Hp e He. apply (in_map fst) in He.
  apply hourMap_keys_In, in_map_iff in He. destruct He as [r [Hk Hr]].
  destruct (hourKey_parses tza implParse r (Hp r Hr)) as (h & _ & Hh & Hk').
  rewrite <- Hk, Hk'. unfold isIndex.
  rewrite arrayIndex_String_of_N; auto. lia.
Qed.

Lemma hourMap_key_hour rows k c :
  (forall r, In r rows -> parses tza implParse r = true) ->
  In (k, c) (hourMapOf rows) ->
  exists h, 0 <= h < 24 /\ k = String_of_N (Z.to_N h)
            /\ c = countRows (atHour h) rows /\ 0 < c.
Proof.
  intros Hp Hin. destruct (hourMap_In_value tza implParse rows k c Hin) as [Hc Hpos].
  pose proof Hin as Hk. apply (in_map fst) in Hk.
  apply hourMap_keys_In, in_map_iff in Hk. destruct Hk as [r [Hk Hr]].
  destruct (hourKey_parses tza implParse r (Hp r Hr)) as (h & _ & Hh & Hk').
  simpl in Hk. exists h. repeat split; try lia; try congruence.
  rewrite Hc. apply countRows_ext. intros r' Hr'.
  rewrite <- Hk, Hk'. apply hourKey_atHour; auto. lia.
Qed.

Lemma hourMap_hour_entry rows h :
  (forall r, In r rows -> parses tza implParse r = true) ->
  0 < countRows (atHour h) rows ->
  0 <= h < 24
  /\ In (String_of_N (Z.to_N h), countRows (atHour h) rows) (hourMapOf rows).
Proof.
  intros Hp Hpos. apply countRows_pos in Hpos. destruct Hpos as [r [Hr Ha]].
  destruct (hourKey_parses tza implParse r (Hp r Hr)) as (hr & Ho & Hh & Hk).
  unfold Spec.atHour in Ha. rewrite Ho in Ha. apply Z.eqb_eq in Ha. subst hr.
  split; auto.
  assert (Hin : In (String_of_N (Z.to_N h)) (map fst (hourMapOf rows))).
  { apply hourMap_keys_In. rewrite <- Hk. now apply in_map. }
  apply in_map_iff in Hin. destruct Hin as [[k c] [Hk' Hin]]. simpl in Hk'.
  subst k. destruct (hourMap_key_hour rows _ c Hp Hin) as (h' & Hh' & Heq & Hc & _).
  apply String_of_N_inj in Heq. assert (h' = h) by lia. subst h'.
  now rewrite <- Hc.
Qed.

End Peak.

(** C5, as the code has it.  For every non-empty sequence of rows whose
    timestamps are valid dates, the histogram holds for each hour 0..23
    the number of rows at that local hour, and the peak hour is an hour
    whose count is the greatest; among the hours with the greatest count
    it is the lowest.  The three scripts compute it with the same code. *)
Theorem peak_hour_is_lowest_busiest_hour :
  forall (tza : Z) (implParse : string -> option Z) (rows : list Row),
    rows <> [] ->
    (forall r, In r rows -> parses tza implParse r = true) ->
    (forall h, 0 <= h < 24 ->
       valueAt (hourMapOf tza implParse rows) (String_of_N (Z.to_N h))
       = countRows (atHour tza implParse h) rows)
    /\ exists h c,
         peakHour tza implParse rows = Some (String_of_N (Z.to_N h), c)
         /\ 0 <= h < 24
         /\ c = countRows (atHour tza implParse h) rows
         /\ (forall h', countRows (atHour tza implParse h') rows <= c)
         /\ (forall h', countRows (atHour tza implParse h') rows = c ->
                        h <= h').
Proof.
  intros tza implParse rows Hne Hp. split.
  { intros h Hh. rewrite hourMap_valueAt. apply countRows_ext.
    intros r Hr. apply hourKey_atHour; auto. lia. }
  set (hm := hourMapOf tza implParse rows).
  assert (Hsorted : StronglySorted ascIndex (entries hm)).
  { apply entries_all_index_sorted. now apply hourMap_all_index. }
  unfold peakHour. fold hm.
  destruct (hd_error (sort (byValueDesc) (entries hm))) as [[k c]|] eqn:Ehd.
  2:{ exfalso. revert Ehd.
      apply (hd_sort_nonempty byValueDesc).
      intros H. apply (f_equal (@List.length _)) in H.
      rewrite entries_length in H.
      apply (hourMap_nonempty tza implParse rows Hne).
      fold hm. now destruct hm. }
  destruct (hd_sort_first_max byValueDesc snd (fun a b => eq_refl) _ _ Ehd)
    as (l1 & l2 & Hsplit & Hbefore & Hafter).
  assert (Hin : In (k, c) hm).
  { apply entries_In. rewrite Hsplit. apply in_elt. }
  destruct (hourMap_key_hour tza implParse rows k c Hp Hin)
    as (h & Hh & Hk & Hc & Hpos).
  exists h, c. subst k. repeat split; auto; try lia.
  - intros h'. destruct (Z_lt_le_dec 0 (countRows (atHour tza implParse h') rows))
      as [Hpos' | Hz]; [|lia].
    destruct (hourMap_hour_entry tza implParse rows h' Hp Hpos') as [_ Hin'].
    fold hm in Hin'. apply entries_In in Hin'. rewrite Hsplit in Hin'.
    apply in_app_or in Hin'. destruct Hin' as [H1 | [H1 | H1]].
    + specialize (Hbefore _ H1). simpl in Hbefore. lia.
    + inversion H1. lia.
    + specialize (Hafter _ H1). simpl in Hafter. lia.
  - intros h' Heq.
    assert (Hpos' : 0 < countRows (atHour tza implParse h') rows) by lia.
    destruct (hourMap_hour_entry tza implParse rows h' Hp Hpos') as [Hh' Hin'].
    fold hm in Hin'. apply entries_In in Hin'. rewrite Hsplit in Hin'.
    apply in_app_or in Hin'. destruct Hin' as [H1 | [H1 | H1]].
    + specialize (Hbefore _ H1). simpl in Hbefore. lia.
    + injection H1 as Hs _. apply String_of_N_inj in Hs. lia.
    + rewrite Hsplit in Hsorted. apply StronglySorted_after in Hsorted.
      rewrite Forall_forall in Hsorted. specialize (Hsorted _ H1).
      unfold ascIndex, indexOr0 in Hsorted. simpl in Hsorted.
      rewrite !arrayIndex_String_of_N in Hsorted by lia. lia.
Qed.

(** At [twoPeaksRows], in UTC: the hours 9 and 14 have two rows each, and
    the peak hour is 9. *)
Lemma peak_hour_witness :
  (forall h, 0 <= h < 24 ->
     valueAt (hourMapOf 0 Samples.strictParse Samples.twoPeaksRows)
       (String_of_N (Z.to_N h))
     = countRows (atHour 0 Samples.strictParse h) Samples.twoPeaksRows)
  /\ exists h c,
       peakHour 0 Samples.strictParse Samples.twoPeaksRows
       = Some (String_of_N (Z.to_N h), c)
       /\ 0 <= h < 24
       /\ c = countRows (atHour 0 Samples.strictParse h) Samples.twoPeaksRows
       /\ (forall h', countRows (atHour 0 Samples.strictParse h')
                        Samples.twoPeaksRows <= c)
       /\ (forall h', countRows (atHour 0 Samples.strictParse h')
                        Samples.twoPeaksRows = c -> h <= h').
Proof.
  apply (peak_hour_is_lowest_busiest_hour 0 Samples.strictParse
           Samples.twoPeaksRows).
  - discriminate.
  - intros r [<- | [<- | [<- | [<- | []]]]]; reflexivity.
Defined.

(** C5, for every non-empty sequence of rows, fails.  The query returns
    [mostlyInvalidRows] for 2026-01-01: one row at 9 and two rows whose
    timestamps are Julian day numbers.  The histogram counts the two
    under the key [NaN], and the peak entry is that one: it is no hour of
    the day, and the overview prints [NaN PM] for it. *)
Lemma peak_is_no_hour_when_invalid_rows_prevail :
  Samples.mostlyInvalidRows <> []
  /\ hourMapOf 0 Samples.strictParse Samples.mostlyInvalidRows
     = [("9", 1); ("NaN", 2)]
  /\ peakHour 0 Samples.strictParse Samples.mostlyInvalidRows
     = Some ("NaN", 2)
  /\ Helpers.peakHourText
       (peakHour 0 Samples.strictParse Samples.mostlyInvalidRows)
     = "NaN PM"
  /\ (forall h c,
        peakHour 0 Samples.strictParse Samples.mostlyInvalidRows
        <> Some (String_of_N (Z.to_N h), c)).
Proof.
  split; [discriminate|]. split; [reflexivity|].
  split; [reflexivity|]. split; [reflexivity|].
  intros h c H.
  change (peakHour 0 Samples.strictParse Samples.mostlyInvalidRows)
    with (Some ("NaN", 2)) in H.
  injection H as H _. symmetry in H.
  now apply String_of_N_not_NaN in H.
Qed.

Example peak_hour_of_twoPeaksRows :
  peakHour 0 Samples.strictParse Samples.twoPeaksRows = Some ("9", 2).
Proof. reflexivity. Qed.

End PeakHour.

(* ================================================================== *)
(** ** The per-application breakdown *)
(* ================================================================== *)

Module AppBreakdown.
Import JS Date Recap Spec JSFacts RecapFacts.

Definition countKey (e : string * AppStats) : Z := count (snd e).

Lemma byCountDesc_key a b : byCountDesc a b = countKey b - countKey a.
Proof. reflexivity. Qed.

Lemma bucketCount_perm (l l' : list (string * AppStats)) k :
  NoDup (map fst l) -> Permutation l l' ->
  bucketCount l k = bucketCount l' k.
Proof.
  intros Hnd Hp. unfold bucketCount. now rewrite (getOwn_perm l l' k Hnd Hp).
Qed.

Lemma bucketCount_In (l : list (string * AppStats)) e :
  NoDup (map fst l) -> In e l -> bucketCount l (fst e) = countKey e.
Proof.
  intros Hnd Hin. destruct e as [k st]. unfold bucketCount. simpl.
  now rewrite (In_getOwn l k st Hnd Hin).
Qed.

(** The sort leaves buckets of equal count in the order it found them. *)
Lemma sort_keeps_ties (l : list (string * AppStats)) a b :
  NoDup (map fst l) ->
  bucketCount l a = bucketCount l b ->
  earlier a b (map fst (sort byCountDesc l)) = earlier a b (map fst l).
Proof.
  intros Hnd Heq. set (c := bucketCount l a).
  assert (Hc : forall e, In e l -> fst e = a \/ fst e = b ->
                         (countKey e =? c) = true).
  { intros e He Hk. apply Z.eqb_eq.
    rewrite <- (bucketCount_In l e Hnd He).
    destruct Hk as [Hk | Hk]; rewrite Hk; [reflexivity | symmetry; exact Heq]. }
  rewrite <- (earlier_map_filter fst (fun e => countKey e =? c) (sort _ l)).
  - rewrite (sort_stable byCountDesc countKey byCountDesc_key).
    now apply earlier_map_filter.
  - intros e He. apply Hc. apply (sort_In byCountDesc e l). exact He.
Qed.

Lemma appsSorted_perm rows : Permutation (appsSorted rows) (appMapOf rows).
Proof.
  unfold appsSorted. rewrite (sort_perm byCountDesc). apply entries_perm.
Qed.

Lemma appsSorted_NoDup rows : NoDup (map fst (appsSorted rows)).
Proof.
  eapply Permutation_NoDup; [|apply (appMap_keys_NoDup rows)].
  apply Permutation_map. symmetry. apply appsSorted_perm.
Qed.

Lemma appsSorted_bucketCount rows name :
  inherited name = false ->
  bucketCount (appsSorted rows) name = countRows (named name) rows.
Proof.
  intros Hi. rewrite <- appMap_bucketCount by auto.
  apply bucketCount_perm; [apply appsSorted_NoDup | apply appsSorted_perm].
Qed.

Lemma appsSorted_keys_In rows name :
  In name (map fst (appsSorted rows))
  <-> inherited name = false /\ In name (map resolvedName rows).
Proof.
  rewrite <- appMap_keys_In. split; apply Permutation_in, Permutation_map;
    [|symmetry]; apply appsSorted_perm.
Qed.

(** Ties keep the order of [Object.entries]. *)
Lemma appsSorted_ties rows a b :
  inherited a = false -> inherited b = false ->
  countRows (named a) rows = countRows (named b) rows ->
  earlier a b (map fst (appsSorted rows))
  = earlier a b (map fst (entries (appMapOf rows))).
Proof.
  intros Ha Hb Heq. unfold appsSorted. apply sort_keeps_ties.
  - apply entries_NoDup, appMap_keys_NoDup.
  - rewrite <- !(bucketCount_perm (appMapOf rows) (entries (appMapOf rows)));
      try apply appMap_keys_NoDup; try (symmetry; apply entries_perm).
    now rewrite !appMap_bucketCount.
Qed.

(** C1, as the code has it.  The breakdown has one bucket for each
    resolved name that is not the name of an inherited member, holding the
    number of rows that resolve to it, and lists the buckets by descending
    count.  Buckets of equal count keep the order of [Object.entries]:
    names that are canonical array indices come first, in ascending numeric
    order, and the other names follow in the order in which they were
    first met. *)
Theorem apps_sorted_by_count_ties_in_entries_order :
  forall rows : list Row,
    let ranked := appsSorted rows in
    NoDup (map fst ranked)
    /\ (forall name, In name (map fst ranked)
          <-> inherited name = false /\ In name (map resolvedName rows))
    /\ (forall name, inherited name = false ->
          bucketCount ranked name = countRows (named name) rows)
    /\ StronglySorted (descBy countKey) ranked
    /\ (forall a b,
          inherited a = false -> inherited b = false ->
          In a (map resolvedName rows) -> In b (map resolvedName rows) ->
          countRows (named a) rows = countRows (named b) rows ->
          (isIndex a = false -> isIndex b = false ->
             earlier a b (map resolvedName rows) = true ->
             earlier a b (map fst ranked) = true)
          /\ (isIndex a = true -> isIndex b = false ->
                earlier a b (map fst ranked) = true)
          /\ (forall i j, arrayIndex a = Some i -> arrayIndex b = Some j ->
                (i < j)%N -> earlier a b (map fst ranked) = true)).
Proof.
  intros rows ranked. subst ranked.
  split; [apply appsSorted_NoDup|].
  split; [apply appsSorted_keys_In|].
  split; [apply appsSorted_bucketCount|].
  split; [apply (sort_desc byCountDesc countKey byCountDesc_key)|].
  intros a b Ha Hb Hina Hinb Heq.
  assert (Ka : In a (map fst (appMapOf rows))) by now apply appMap_keys_In.
  assert (Kb : In b (map fst (appMapOf rows))) by now apply appMap_keys_In.
  rewrite (appsSorted_ties rows a b Ha Hb Heq).
  split; [|split].
  - intros Ia Ib He. rewrite entries_order_plain by auto.
    now rewrite appMap_order.
  - intros Ia Ib. now apply entries_order_index_first.
  - intros i j Ia Ib Hlt. now apply (entries_order_index_asc _ a b i j).
Qed.

(** At [twoPeaksRows]: Mail and Unknown have one row each, Mail is met
    first, and Mail is ranked before Unknown. *)
Lemma apps_sorted_witness :
  earlier "Mail" "Unknown" (map fst (appsSorted Samples.twoPeaksRows)) = true.
Proof.
  destruct (apps_sorted_by_count_ties_in_entries_order Samples.twoPeaksRows)
    as (_ & _ & _ & _ & H).
  assert (Ha : In "Mail" (map resolvedName Samples.twoPeaksRows))
    by (vm_compute; tauto).
  assert (Hb : In "Unknown" (map resolvedName Samples.twoPeaksRows))
    by (vm_compute; tauto).
  destruct (H "Mail" "Unknown" eq_refl eq_refl Ha Hb eq_refl)
    as (Hplain & _ & _).
  apply Hplain; reflexivity.
Defined.

(** C1, as the specification has it, fails.  The rows of
    [indexNamedRows] resolve to the names "10" and "2", in that order,
    with one row each; the claim ranks "10" first, the script ranks "2"
    first. *)
Lemma index_named_apps_not_in_first_met_order :
  map resolvedName Samples.indexNamedRows = ["10"; "2"]
  /\ earlier "10" "2" (map resolvedName Samples.indexNamedRows) = true
  /\ bucketCount (appsSorted Samples.indexNamedRows) "10"
     = bucketCount (appsSorted Samples.indexNamedRows) "2"
  /\ map fst (appsSorted Samples.indexNamedRows) = ["2"; "10"]
  /\ earlier "10" "2" (map fst (appsSorted Samples.indexNamedRows)) = false.
Proof. repeat split. Qed.

End AppBreakdown.

(* ================================================================== *)
(** ** Empty periods and reports *)
(* ================================================================== *)

Module Runs.
Import JS Date Recap Spec JSFacts RecapFacts DayFacts.

Lemma fold_left_sum (f : Row -> Z) rows a :
  fold_left (fun sum r => sum + f r) rows a = a + sumZ (map f rows).
Proof.
  revert a. induction rows as [|r rows IH]; intros a; simpl; [lia|].
  rewrite IH. lia.
Qed.

Lemma totalWords_sum rows : totalWords rows = sumZ (map numWordsOr0 rows).
Proof. unfold totalWords. now rewrite fold_left_sum. Qed.

Lemma hourKey_NaN tza implParse r :
  String.eqb (hourKey tza implParse r) "NaN"
  = negb (parses tza implParse r).
Proof.
  unfold hourKey, parses.
  destruct (Date_parse tza implParse (timestamp r)); simpl; auto.
  apply String.eqb_neq, String_of_N_not_NaN.
Qed.

(** The peak-hour entry exists as soon as there is a row. *)
Lemma peakHour_exists tza implParse rows :
  rows <> [] -> peakHour tza implParse rows <> None.
Proof.
  intros Hne. unfold peakHour. apply (hd_sort_nonempty byValueDesc).
  intros H. apply (f_equal (@List.length _)) in H.
  rewrite entries_length in H.
  apply (hourMap_nonempty tza implParse rows Hne).
  now destruct (hourMapOf tza implParse rows).
Qed.

Lemma length_zero_iff {A} (l : list A) :
  (List.length l =? 0)%nat = true <-> l = [].
Proof. destruct l; simpl; split; congruence. Qed.

(** C8.  When the store is there and the query for the resolved period
    returns no row, each script prints its "No Wispr Flow dictations
    found" line and nothing else, exits with code 0, and writes no
    file. *)
Theorem empty_period_is_reported_and_succeeds :
  forall (tza : Z) (implParse : string -> option Z) (flagHTML : bool),
    (forall targetDate query,
       query targetDate = [] ->
       let o := Daily.main tza implParse flagHTML targetDate true query in
       notice o
       = Some ("No Wispr Flow dictations found for " ++ targetDate ++ ".")
       /\ exitCode o = 0 /\ filesWritten o = [] /\ reported o = None)
    /\ (forall refDate w query,
          Weekly.getWeekRange tza implParse refDate = Some w ->
          query (Weekly.start w) (Weekly.end_ w) = [] ->
          let o := Weekly.main tza implParse flagHTML refDate true query in
          notice o
          = Some ("No Wispr Flow dictations found for week of "
                  ++ Weekly.start w ++ ".")
          /\ exitCode o = 0 /\ filesWritten o = [] /\ reported o = None)
    /\ (forall targetMonth mr query,
          Monthly.getMonthRange tza targetMonth = Some mr ->
          query (Monthly.start mr) (Monthly.end_ mr) = [] ->
          let o := Monthly.main tza implParse flagHTML targetMonth true query in
          notice o
          = Some ("No Wispr Flow dictations found for "
                  ++ Monthly.label mr ++ ".")
          /\ exitCode o = 0 /\ filesWritten o = [] /\ reported o = None).
Proof.
  intros tza implParse flagHTML. split; [|split].
  - intros targetDate query Hq. unfold Daily.main. simpl. rewrite Hq.
    simpl. auto.
  - intros refDate w query Hw Hq. unfold Weekly.main. rewrite Hw. simpl.
    rewrite Hq. simpl. auto.
  - intros targetMonth mr query Hm Hq. unfold Monthly.main. rewrite Hm.
    simpl. rewrite Hq. simpl. auto.
Qed.

(** The three scripts on an empty store, in UTC. *)
Lemma empty_period_witness :
  (let o := Daily.main 0 Samples.strictParse true "2026-01-01" true
              Samples.emptyDay in
   notice o = Some "No Wispr Flow dictations found for 2026-01-01."
   /\ exitCode o = 0 /\ filesWritten o = [] /\ reported o = None)
  /\ (let o := Weekly.main 0 Samples.strictParse true "2026-01-01" true
                 Samples.emptyRange in
      notice o
      = Some "No Wispr Flow dictations found for week of 2025-12-29."
      /\ exitCode o = 0 /\ filesWritten o = [] /\ reported o = None)
  /\ (let o := Monthly.main 0 Samples.strictParse true "2024-02" true
                 Samples.emptyRange in
      notice o = Some "No Wispr Flow dictations found for February 2024."
      /\ exitCode o = 0 /\ filesWritten o = [] /\ reported o = None).
Proof.
  assert (Ew : Weekly.getWeekRange 0 Samples.strictParse "2026-01-01"
               = Some (Weekly.mkWeekRange "2025-12-29" "2026-01-04"))
    by (vm_compute; reflexivity).
  assert (Em : Monthly.getMonthRange 0 "2024-02"
               = Some Samples.february2024)
    by (vm_compute; reflexivity).
  split; [|split].
  - exact (proj1 (empty_period_is_reported_and_succeeds
                    0 Samples.strictParse true)
             "2026-01-01" Samples.emptyDay eq_refl).
  - exact (proj1 (proj2 (empty_period_is_reported_and_succeeds
                           0 Samples.strictParse true))
             "2026-01-01" _ Samples.emptyRange Ew eq_refl).
  - exact (proj2 (proj2 (empty_period_is_reported_and_succeeds
                           0 Samples.strictParse true))
             "2024-02" _ Samples.emptyRange Em eq_refl).
Defined.

(** C10.  Whenever a script renders a report, to the terminal or to a
    file, the query returned at least one row: [totalDictations], the
    denominator of every percentage, is the number of rows and is not 0,
    and the peak-hour entry is there. *)
Theorem report_only_with_rows :
  forall (tza : Z) (implParse : string -> option Z) (flagHTML dbExists : bool),
    (forall targetDate query d,
       reported (Daily.main tza implParse flagHTML targetDate dbExists query)
       = Some d ->
       query targetDate <> []
       /\ Daily.totalDictations d
          = Z.of_nat (List.length (query targetDate))
       /\ 1 <= Daily.totalDictations d
       /\ Daily.peakHour d <> None)
    /\ (forall refDate query d,
          reported (Weekly.main tza implParse flagHTML refDate dbExists query)
          = Some d ->
          query (Weekly.start (Weekly.week d)) (Weekly.end_ (Weekly.week d))
          <> []
          /\ Weekly.totalDictations d
             = Z.of_nat (List.length
                 (query (Weekly.start (Weekly.week d))
                    (Weekly.end_ (Weekly.week d))))
          /\ 1 <= Weekly.totalDictations d
          /\ Weekly.peakHour d <> None)
    /\ (forall targetMonth query d,
          reported (Monthly.main tza implParse flagHTML targetMonth dbExists
                      query)
          = Some d ->
          query (Monthly.start (Monthly.monthRange d))
            (Monthly.end_ (Monthly.monthRange d)) <> []
          /\ Monthly.totalDictations d
             = Z.of_nat (List.length
                 (query (Monthly.start (Monthly.monthRange d))
                    (Monthly.end_ (Monthly.monthRange d))))
          /\ 1 <= Monthly.totalDictations d
          /\ Monthly.peakHour d <> None).
Proof.
  intros tza implParse flagHTML dbExists.
  assert (Hpos : forall rows : list Row,
            rows <> [] -> 1 <= totalDictations rows).
  { intros [|r rows] H; [congruence|]. unfold totalDictations.
    simpl List.length. lia. }
  split; [|split].
  - intros targetDate query d. unfold Daily.main.
    destruct dbExists; simpl; [|discriminate].
    destruct (List.length (query targetDate) =? 0)%nat eqn:E;
      [discriminate|].
    assert (Hne : query targetDate <> []).
    { intros H. rewrite H in E. discriminate. }
    intros Hd.
    assert (d = Daily.aggregate tza implParse targetDate (query targetDate))
      by (destruct flagHTML; simpl in Hd; congruence).
    subst d. simpl. repeat split; auto. now apply peakHour_exists.
  - intros refDate query d. unfold Weekly.main.
    destruct (Weekly.getWeekRange tza implParse refDate) as [w|];
      [|discriminate].
    destruct dbExists; simpl; [|discriminate].
    destruct (List.length (query (Weekly.start w) (Weekly.end_ w)) =? 0)%nat
      eqn:E; [discriminate|].
    assert (Hne : query (Weekly.start w) (Weekly.end_ w) <> []).
    { intros H. rewrite H in E. discriminate. }
    unfold Weekly.aggregate.
    destruct (dayMapOf (query (Weekly.start w) (Weekly.end_ w)));
      [|discriminate].
    intros Hd.
    match type of Hd with
    | reported (if _ then Saved _ ?x else Printed ?x) = _ =>
        assert (d = x) by (destruct flagHTML; simpl in Hd; congruence)
    end.
    subst d. simpl. repeat split; auto. now apply peakHour_exists.
  - intros targetMonth query d. unfold Monthly.main.
    destruct (Monthly.getMonthRange tza targetMonth) as [mr|];
      [|discriminate].
    destruct dbExists; simpl; [|discriminate].
    destruct (List.length (query (Monthly.start mr) (Monthly.end_ mr))
              =? 0)%nat eqn:E; [discriminate|].
    assert (Hne : query (Monthly.start mr) (Monthly.end_ mr) <> []).
    { intros H. rewrite H in E. discriminate. }
    unfold Monthly.aggregate.
    destruct (dayMapOf (query (Monthly.start mr) (Monthly.end_ mr)));
      [|discriminate].
    intros Hd.
    match type of Hd with
    | reported (if _ then Saved _ ?x else Printed ?x) = _ =>
        assert (d = x) by (destruct flagHTML; simpl in Hd; congruence)
    end.
    subst d. simpl. repeat split; auto. now apply peakHour_exists.
Qed.

(** The daily script on [twoPeaksRows], printing to the terminal. *)
Lemma report_only_with_rows_witness :
  exists d,
    reported (Daily.main 0 Samples.strictParse false "2026-01-01" true
                (fun _ => Samples.twoPeaksRows)) = Some d
    /\ 1 <= Daily.totalDictations d
    /\ Daily.peakHour d <> None.
Proof.
  eexists. split; [reflexivity|].
  destruct (report_only_with_rows 0 Samples.strictParse false true)
    as (Hd & _ & _).
  destruct (Hd "2026-01-01" (fun _ => Samples.twoPeaksRows) _ eq_refl)
    as (_ & _ & H1 & H2).
  split; assumption.
Defined.

End Runs.

(* ================================================================== *)
(** ** Active days and daily averages of the monthly script *)
(* ================================================================== *)

Module Averages.
Import JS Date Recap Spec JSFacts RecapFacts DayFacts.

Lemma Math_round_div_nearest a b :
  0 < b ->
  2 * a - b < 2 * b * Math_round_div a b <= 2 * a + b.
Proof.
  intros Hb. unfold Math_round_div.
  pose proof (Z.div_mod (2 * a + b) (2 * b) ltac:(lia)) as Hdm.
  pose proof (Z.mod_pos_bound (2 * a + b) (2 * b) ltac:(lia)) as Hm.
  lia.
Qed.

(** C6, as the code has it.  The monthly script produces its data whenever no day key is the
    name of an inherited member.  In the data it produces, [activeDays] is
    the number of entries of [allDays] with a count above 0; with no
    active day both averages are 0; otherwise the average of the
    dictations is the integer nearest to their number divided by
    [activeDays], a half rounding up.  The words are added and divided in
    double precision: as long as their absolute values stay below 2^52 in
    total, [totalWords] is their sum and the average of the words is the
    integer nearest to it divided by [activeDays].  Three active days
    with 30 dictations and 3000 words give 10 and 1000. *)
Theorem monthly_averages_over_active_days :
  forall (tza : Z) (implParse : string -> option Z)
         (mr : Monthly.MonthRange) (rows : list Row),
    ((forall r, In r rows -> plainDay r = true) ->
     exists d, Monthly.aggregate tza implParse mr rows = Some d)
    /\ forall d,
         Monthly.aggregate tza implParse mr rows = Some d ->
         let active := Monthly.activeDays d in
         let total := Monthly.totalDictations d in
         let words := Monthly.totalWords d in
         active = Z.of_nat (List.length
                    (filter (fun e => 0 <? Monthly.dayCount e)
                       (Monthly.allDays d)))
         /\ total = Z.of_nat (List.length rows)
         /\ (active = 0 ->
               Monthly.avgDictationsPerDay d = 0
               /\ Monthly.avgWordsPerDay d = 0)
         /\ (0 < active ->
               Monthly.avgDictationsPerDay d = Math_round_div total active
               /\ 2 * total - active
                  < 2 * active * Monthly.avgDictationsPerDay d
                  <= 2 * total + active)
         /\ (wordsMass rows < 2 ^ 52 ->
               words = sumZ (map numWordsOr0 rows)
               /\ (0 < active ->
                     Monthly.avgWordsPerDay d = Math_round_div words active
                     /\ 2 * words - active
                        < 2 * active * Monthly.avgWordsPerDay d
                        <= 2 * words + active)
               /\ (active = 3 -> total = 30 -> words = 3000 ->
                     Monthly.avgDictationsPerDay d = 10
                     /\ Monthly.avgWordsPerDay d = 1000)).
Proof.
  intros tza implParse mr rows. split.
  - intros Hp. unfold Monthly.aggregate.
    destruct (dayMap_plain rows Hp) as [dm ->]. eauto.
  - intros d. unfold Monthly.aggregate.
    destruct (dayMapOf rows) as [dm|]; [|discriminate].
    intros [= <-]. cbn zeta. cbn [Monthly.activeDays Monthly.totalDictations
      Monthly.totalWords Monthly.allDays Monthly.avgDictationsPerDay
      Monthly.avgWordsPerDay].
    set (active := Z.of_nat (List.length (filter _ _))).
    split; [reflexivity|]. split; [reflexivity|].
    unfold Monthly.average. split; [|split].
    + intros ->. split; reflexivity.
    + intros Hpos. destruct (0 <? active) eqn:E; [|lia].
      split; [reflexivity|]. now apply Math_round_div_nearest.
    + intros _. split; [apply Runs.totalWords_sum|]. split.
      * intros Hpos. destruct (0 <? active) eqn:E; [|lia].
        split; [reflexivity|]. now apply Math_round_div_nearest.
      * intros -> -> ->. split; reflexivity.
Qed.

(** February 2024 in UTC with [threeDayRows]: three active days, thirty
    dictations, three thousand words. *)
Lemma monthly_averages_witness :
  exists d,
    Monthly.aggregate 0 Samples.strictParse Samples.february2024
      Samples.threeDayRows = Some d
    /\ Monthly.activeDays d = 3
    /\ Monthly.totalDictations d = 30
    /\ Monthly.totalWords d = 3000
    /\ Monthly.avgDictationsPerDay d = 10
    /\ Monthly.avgWordsPerDay d = 1000.
Proof.
  destruct (monthly_averages_over_active_days 0 Samples.strictParse
              Samples.february2024 Samples.threeDayRows) as [_ H].
  eexists. split; [vm_compute; reflexivity|].
  match goal with
  | |- Monthly.activeDays ?d = _ /\ _ =>
      destruct (H d ltac:(vm_compute; reflexivity))
        as (_ & _ & _ & _ & Hw)
  end.
  destruct (Hw ltac:(vm_compute; reflexivity)) as (_ & _ & Hex).
  split; [vm_compute; reflexivity|].
  split; [vm_compute; reflexivity|].
  split; [vm_compute; reflexivity|].
  apply Hex; vm_compute; reflexivity.
Defined.

(** C6, for every month period, fails.  [hugeWordRows] has three active
    days and 9007199254740991 words, a sum the script computes exactly.
    The quotient by 3 is 3002399751580330 and a third; the double nearest
    to it is 3002399751580330.5, and [Math.round] takes that to
    3002399751580331, which is not the integer nearest to the total
    divided by the active days. *)
Lemma average_of_words_beyond_2_52 :
  exists d,
    Monthly.aggregate 0 Samples.strictParse Samples.february2024
      Samples.hugeWordRows = Some d
    /\ Monthly.activeDays d = 3
    /\ Monthly.totalWords d = 9007199254740991
    /\ Monthly.averageDouble (Monthly.totalWords d) (Monthly.activeDays d)
       = Some 3002399751580331
    /\ Math_round (9007199254740991 # 3) = 3002399751580330
    /\ 2 ^ 52 <= wordsMass Samples.hugeWordRows < 2 ^ 53.
Proof.
  eexists. split; [vm_compute; reflexivity|].
  repeat split; vm_compute; (reflexivity || congruence).
Qed.

(** Within the bound the two evaluations agree, here at the totals of
    [threeDayRows]. *)
Example average_in_double_precision_of_3000_words :
  Monthly.averageDouble 3000 3 = Some (Monthly.average 3000 3)
  /\ Monthly.averageDouble 30 3 = Some (Monthly.average 30 3).
Proof. split; vm_compute; reflexivity. Qed.

End Averages.

(* ================================================================== *)
(** ** The week and the month in the zones where they come out right *)
(* ================================================================== *)

Module PeriodFacts.
Import JS Date Recap Spec JSFacts RecapFacts DayFacts DateFacts.

Lemma TimeClip_small t :
  Z.abs t <= 8640000000000000 -> TimeClip t = Some t.
Proof.
  intros H. unfold TimeClip. apply Z.leb_le in H. now rewrite H.
Qed.

Lemma dateOf_MakeDay y m d :
  1 <= m <= 12 -> 1 <= d <= daysInMonth y (m - 1) ->
  isoDateOfDay (MakeDay y (m - 1) d) = dateOf y m d.
Proof.
  intros Hm Hd.
  destruct (fields_of_MakeDay y (m - 1) d ltac:(lia) Hd) as (Hy & Hmo & Hda).
  unfold isoDateOfDay, dateOf. rewrite Hy, Hmo, Hda.
  now replace (m - 1 + 1) with m by lia.
Qed.

Lemma dateText_in_range n :
  0 <= YearFromDay n <= 9999 -> dateText n = isoDateOfDay n.
Proof. intros H. unfold dateText. apply (isoDateOfDay_parse n H). Qed.

Lemma daysFrom_S c k : daysFrom c (S k) = c :: daysFrom (c + 1) k.
Proof.
  unfold daysFrom. cbn [seq map]. rewrite Z.add_0_r. f_equal.
  rewrite <- seq_shift, map_map. apply map_ext. intros i. lia.
Qed.

Lemma daysFrom_length c k : List.length (daysFrom c k) = k.
Proof. unfold daysFrom. now rewrite length_map, length_seq. Qed.

Lemma daysFrom_In c k x :
  In x (daysFrom c k) <-> c <= x < c + Z.of_nat k.
Proof.
  unfold daysFrom. rewrite in_map_iff. split.
  - intros [i [<- Hi]]. apply in_seq in Hi. lia.
  - intros H. exists (Z.to_nat (x - c)). split; [lia|].
    apply in_seq. lia.
Qed.

Section Zone.
Variable tza : Z.
Variable implParse : string -> option Z.

(** Local noon of day [n], as a time value. *)
Local Abbreviation noon n := (MakeDate n (12 * msPerHour) - tza).

Lemma noon_parse n :
  Z.abs tza <= 24 * msPerHour ->
  0 <= YearFromDay n <= 9999 ->
  Date_parse tza implParse (isoDateOfDay n ++ "T12:00:00") = Some (noon n).
Proof.
  intros Hz Hy. unfold Date_parse.
  destruct (isoDateOfDay_parse n Hy) as (_ & _ & ->).
  unfold UTC. apply TimeClip_small.
  pose proof (year_range_days n Hy). unfold MakeDate, msPerDay, msPerHour in *.
  lia.
Qed.

Lemma noon_local_day n : Day (LocalTime tza (noon n)) = n.
Proof.
  unfold LocalTime. replace (noon n + tza) with (MakeDate n (12 * msPerHour))
    by lia.
  apply Day_MakeDate. unfold msPerDay, msPerHour. lia.
Qed.

(** The UTC day of local noon is the local day exactly when the offset
    is above -12h and at most +12h. *)
Lemma noon_utc_day n :
  -12 * msPerHour < tza <= 12 * msPerHour -> Day (noon n) = n.
Proof.
  unfold Day, MakeDate, msPerDay, msPerHour. intros H. floor_lia.
Qed.

Lemma noon_shift n k : noon n + k * msPerDay = noon (n + k).
Proof. unfold MakeDate. lia. Qed.

Lemma mondayOf_diff n :
  n + (if WeekDay n =? 0 then -6 else 1 - WeekDay n) = mondayOf n.
Proof.
  unfold mondayOf. pose proof (WeekDay_range n).
  destruct (WeekDay n =? 0) eqn:E; bool_to_Z; floor_lia.
Qed.

Lemma mondayOf_spec n :
  WeekDay (mondayOf n) = 1 /\ mondayOf n <= n <= mondayOf n + 6.
Proof. unfold mondayOf, WeekDay. floor_lia. Qed.

(** [getWeekRange] on a reference date that parses, in terms of day
    numbers. *)
Lemma getWeekRange_of_day n :
  -12 * msPerHour < tza <= 12 * msPerHour ->
  0 <= YearFromDay n <= 9999 ->
  Weekly.getWeekRange tza implParse (isoDateOfDay n)
  = Some (Weekly.mkWeekRange (dateText (mondayOf n))
            (dateText (mondayOf n + 6))).
Proof.
  intros Hz Hy. unfold Weekly.getWeekRange.
  rewrite noon_parse by (auto; unfold msPerHour in *; lia).
  unfold getDay. rewrite noon_local_day.
  pose proof (year_range_days n Hy) as Hn.
  pose proof (mondayOf_spec n) as (_ & Hmon).
  rewrite setDate_shift, noon_shift, mondayOf_diff.
  rewrite TimeClip_small
    by (unfold MakeDate, msPerDay, msPerHour in *; lia).
  rewrite setDate_shift, noon_shift.
  rewrite TimeClip_small
    by (unfold MakeDate, msPerDay, msPerHour in *; lia).
  unfold toISOString_slice10. rewrite !noon_utc_day by auto.
  reflexivity.
Qed.

Lemma fillDaysFrom_stop fuel dm cur endD :
  endD < cur -> Weekly.fillDaysFrom tza fuel dm cur endD = [].
Proof.
  intros H. destruct fuel; auto. cbn [Weekly.fillDaysFrom].
  apply Z.leb_gt in H. now rewrite H.
Qed.

(** The loop from local noon of day [c] to local noon of day [c + k]
    makes one entry for each of the [k + 1] days. *)
Lemma fillDaysFrom_run k :
  forall fuel dm c,
    -12 * msPerHour < tza <= 12 * msPerHour ->
    (k < fuel)%nat ->
    -1000000 <= c -> c + Z.of_nat k <= 3000000 ->
    Weekly.fillDaysFrom tza fuel dm (noon c) (noon (c + Z.of_nat k))
    = map (weekEntry dm) (daysFrom c (S k)).
Proof.
  induction k as [|k IH]; intros fuel dm c Hz Hf Hlo Hhi;
    (destruct fuel as [|fuel]; [lia|]); cbn [Weekly.fillDaysFrom].
  - replace (noon c <=? noon (c + Z.of_nat 0)) with true
      by (symmetry; apply Z.leb_le; unfold MakeDate, msPerDay; lia).
    rewrite setDate_shift, noon_shift.
    rewrite TimeClip_small
      by (unfold MakeDate, msPerDay, msPerHour in *; lia).
    rewrite fillDaysFrom_stop by (unfold MakeDate, msPerDay; lia).
    unfold toISOString_slice10, getDay.
    rewrite noon_utc_day, noon_local_day by auto.
    rewrite daysFrom_S. reflexivity.
  - replace (noon c <=? noon (c + Z.of_nat (S k))) with true
      by (symmetry; apply Z.leb_le; unfold MakeDate, msPerDay; lia).
    rewrite setDate_shift, noon_shift.
    rewrite TimeClip_small
      by (unfold MakeDate, msPerDay, msPerHour in *; lia).
    replace (c + Z.of_nat (S k)) with (c + 1 * 1 + Z.of_nat k) by lia.
    rewrite IH by (auto; lia).
    unfold toISOString_slice10, getDay.
    rewrite noon_utc_day, noon_local_day by auto.
    rewrite (daysFrom_S c (S k)). cbn [map].
    now replace (c + 1 * 1) with (c + 1) by lia.
Qed.

(** The loop of the weekly script over a week that [getWeekRange]
    returned. *)
Lemma fillDays_of_week dm mon :
  -12 * msPerHour < tza <= 12 * msPerHour ->
  0 <= YearFromDay mon <= 9999 ->
  0 <= YearFromDay (mon + 6) <= 9999 ->
  Weekly.fillDays tza implParse dm
    (Weekly.mkWeekRange (dateText mon) (dateText (mon + 6)))
  = map (weekEntry dm) (daysFrom mon 7).
Proof.
  intros Hz Hy1 Hy2. unfold Weekly.fillDays.
  cbn [Weekly.start Weekly.end_].
  rewrite !dateText_in_range by auto.
  rewrite !noon_parse by (auto; unfold msPerHour in *; lia).
  pose proof (year_range_days _ Hy1). pose proof (year_range_days _ Hy2).
  replace ((noon (mon + 6) - noon mon) / msPerDay + 1) with 7
    by (unfold MakeDate, msPerDay; floor_lia).
  change (mon + 6) with (mon + Z.of_nat 6).
  apply fillDaysFrom_run; auto; try lia.
Qed.

End Zone.

(** The week of a calendar date, where local noon and UTC agree on the
    day.  For every date [y]-[m]-[d] of the years 0 to 9999 and every
    offset above -12h and at most +12h, [getWeekRange] returns the Monday
    on or before the date and the Sunday six days later; a Sunday belongs
    to the week that began six days before it. *)
Theorem week_range_is_monday_to_sunday :
  forall (tza : Z) (implParse : string -> option Z) (y m d : Z),
    -12 * msPerHour < tza <= 12 * msPerHour ->
    0 <= y <= 9999 -> 1 <= m <= 12 -> 1 <= d <= daysInMonth y (m - 1) ->
    let n := MakeDay y (m - 1) d in
    Weekly.getWeekRange tza implParse (dateOf y m d)
    = Some (Weekly.mkWeekRange (dateText (mondayOf n))
              (dateText (mondayOf n + 6)))
    /\ WeekDay (mondayOf n) = 1
    /\ mondayOf n <= n <= mondayOf n + 6
    /\ (WeekDay n = 0 -> mondayOf n = n - 6).
Proof.
  intros tza implParse y m d Hz Hy Hm Hd n.
  destruct (fields_of_MakeDay y (m - 1) d ltac:(lia) Hd) as (Hyn & _ & _).
  fold n in Hyn. split; [|split; [|split]].
  - rewrite <- (dateOf_MakeDay y m d Hm Hd). fold n.
    apply getWeekRange_of_day; auto. now rewrite Hyn.
  - apply mondayOf_spec.
  - apply mondayOf_spec.
  - intros H0. unfold mondayOf. now rewrite H0.
Qed.

Lemma year_near n x :
  n - 6 <= x <= n + 6 -> 1 <= YearFromDay n <= 9998 ->
  0 <= YearFromDay x <= 9999.
Proof.
  intros Hx Hy.
  pose proof (YearFromDay_spec n) as Hn.
  pose proof (YearFromDay_spec x) as Hs.
  unfold DayFromYear in *. floor_lia.
Qed.

Lemma dateText_not_inherited x :
  0 <= YearFromDay x <= 9999 -> inherited (dateText x) = false.
Proof.
  intros H. apply inherited_length. rewrite dateText_in_range by auto.
  apply (isoDateOfDay_parse x H).
Qed.

(** The day breakdown of a week, where local noon and UTC agree on the
    day.  For every date of the years 1 to 9998, every offset above -12h
    and at most +12h and all rows whose day keys are not inherited names,
    the weekly script resolves the week to Monday..Sunday and its day
    breakdown has exactly seven entries, one for each day from that Monday
    to that Sunday in order, each holding the number of rows of its day
    (0 when there is none). *)
Theorem week_days_fill_monday_to_sunday :
  forall (tza : Z) (implParse : string -> option Z) (y m d : Z)
         (rows : list Row),
    -12 * msPerHour < tza <= 12 * msPerHour ->
    1 <= y <= 9998 -> 1 <= m <= 12 -> 1 <= d <= daysInMonth y (m - 1) ->
    (forall r, In r rows -> plainDay r = true) ->
    let mon := mondayOf (MakeDay y (m - 1) d) in
    exists w data,
      Weekly.getWeekRange tza implParse (dateOf y m d) = Some w
      /\ Weekly.aggregate tza implParse w rows = Some data
      /\ Weekly.start w = dateText mon
      /\ Weekly.end_ w = dateText (mon + 6)
      /\ List.length (Weekly.daySorted data) = 7%nat
      /\ map Weekly.date (Weekly.daySorted data)
         = map dateText (daysFrom mon 7)
      /\ (forall e, In e (Weekly.daySorted data) ->
            Weekly.dayCount e = countRows (onDay (Weekly.date e)) rows).
Proof.
  intros tza implParse y m d rows Hz Hy Hm Hd Hp mon.
  destruct (fields_of_MakeDay y (m - 1) d ltac:(lia) Hd) as (Hyn & _ & _).
  assert (Hw : Weekly.getWeekRange tza implParse (dateOf y m d)
               = Some (Weekly.mkWeekRange (dateText mon) (dateText (mon + 6)))).
  { rewrite <- (dateOf_MakeDay y m d Hm Hd).
    apply getWeekRange_of_day; auto. rewrite Hyn. lia. }
  pose proof (mondayOf_spec (MakeDay y (m - 1) d)) as (_ & Hmon).
  fold mon in Hmon.
  assert (Hnear : forall x, mon <= x <= mon + 6 -> 0 <= YearFromDay x <= 9999).
  { intros x Hx. apply (year_near (MakeDay y (m - 1) d)); [lia|].
    now rewrite Hyn. }
  destruct (dayMap_plain rows Hp) as [dm Hdm].
  eexists. eexists. split; [exact Hw|].
  unfold Weekly.aggregate. rewrite Hdm.
  split; [reflexivity|]. cbn [Weekly.start Weekly.end_ Weekly.daySorted].
  split; [reflexivity|]. split; [reflexivity|].
  rewrite fillDays_of_week by (auto; apply Hnear; lia).
  split; [now rewrite length_map, daysFrom_length|].
  split; [now rewrite map_map|].
  intros e He. apply in_map_iff in He. destruct He as [x [<- Hx]].
  apply daysFrom_In in Hx. cbn [weekEntry Weekly.dayCount Weekly.date].
  change (dcount (dayOrEmpty dm (dateText x))) with (dayCountAt dm (dateText x)).
  apply dayMap_dayCountAt; auto.
  apply dateText_not_inherited, Hnear. lia.
Qed.

(** 2026-01-01, a Thursday, in UTC and eight hours west of it. *)
Lemma week_range_witness :
  Weekly.getWeekRange 0 Samples.strictParse "2026-01-01"
  = Some (Weekly.mkWeekRange "2025-12-29" "2026-01-04")
  /\ Weekly.getWeekRange (Samples.hours (-8)) Samples.strictParse "2026-01-01"
     = Some (Weekly.mkWeekRange "2025-12-29" "2026-01-04").
Proof.
  split.
  - exact (proj1 (week_range_is_monday_to_sunday 0 Samples.strictParse
                    2026 1 1 ltac:(vm_compute; split; congruence)
                    ltac:(lia) ltac:(lia) ltac:(vm_compute; split; congruence))).
  - exact (proj1 (week_range_is_monday_to_sunday (Samples.hours (-8))
                    Samples.strictParse
                    2026 1 1 ltac:(vm_compute; split; congruence)
                    ltac:(lia) ltac:(lia) ltac:(vm_compute; split; congruence))).
Defined.

(** The week of 2026-01-01 in UTC with [newYearStore]: seven entries, the
    one of Saturday 2026-01-03 with count 1. *)
Lemma week_days_witness :
  exists w data,
    Weekly.getWeekRange 0 Samples.strictParse "2026-01-01" = Some w
    /\ Weekly.aggregate 0 Samples.strictParse w
         (Samples.between Samples.newYearStore "2025-12-29" "2026-01-04")
       = Some data
    /\ Weekly.start w = "2025-12-29"
    /\ Weekly.end_ w = "2026-01-04"
    /\ List.length (Weekly.daySorted data) = 7%nat
    /\ map Weekly.date (Weekly.daySorted data)
       = ["2025-12-29"; "2025-12-30"; "2025-12-31"; "2026-01-01";
          "2026-01-02"; "2026-01-03"; "2026-01-04"]
    /\ (forall e, In e (Weekly.daySorted data) ->
          Weekly.dayCount e
          = countRows (onDay (Weekly.date e))
              (Samples.between Samples.newYearStore
                 "2025-12-29" "2026-01-04")).
Proof.
  exact (week_days_fill_monday_to_sunday 0 Samples.strictParse 2026 1 1
           (Samples.between Samples.newYearStore "2025-12-29" "2026-01-04")
           ltac:(vm_compute; split; congruence)
           ltac:(lia) ltac:(lia) ltac:(vm_compute; split; congruence)
           ltac:(intros r [<- | []]; reflexivity)).
Defined.

End PeriodFacts.

(* ================================================================== *)
(** ** The month and its days *)
(* ================================================================== *)

Module MonthFacts.
Import JS Date Recap Spec Terms JSFacts RecapFacts DayFacts DateFacts PeriodFacts.

Lemma split_app sep s1 s2 :
  occurs sep s1 = false ->
  split sep (s1 ++ String sep s2) = s1 :: split sep s2.
Proof.
  induction s1 as [|c r IH]; cbn [occurs append split]; intros H.
  - now rewrite Ascii.eqb_refl.
  - apply orb_false_iff in H. destruct H as [Hc Hr].
    rewrite Hc, (IH Hr). reflexivity.
Qed.

Lemma split_none sep s : occurs sep s = false -> split sep s = [s].
Proof.
  induction s as [|c r IH]; cbn [occurs split]; intros H; auto.
  apply orb_false_iff in H. destruct H as [Hc Hr].
  now rewrite Hc, (IH Hr).
Qed.

Lemma pad2_no_hyphen_table :
  forallb (fun n => negb (occurs "-" (pad2 (Z.of_nat n)))) (seq 0 100) = true.
Proof. vm_compute. reflexivity. Qed.

Lemma isoYear_no_hyphen y : 0 <= y <= 9999 -> occurs "-" (isoYear y) = false.
Proof. intros Hy. apply (isoYear_facts y Hy). Qed.

Lemma pad2_no_hyphen n : 0 <= n <= 99 -> occurs "-" (pad2 n) = false.
Proof.
  intros Hn. pose proof pad2_no_hyphen_table as H.
  rewrite forallb_forall in H. specialize (H (Z.to_nat n)).
  rewrite Z2Nat.id in H by lia. apply negb_true_iff, H, in_seq. lia.
Qed.

(** From the year 1000 on the year prints with four digits by itself. *)
Lemma String_of_year y :
  1000 <= y <= 9999 -> String_of_N (Z.to_N y) = isoYear y.
Proof. intros Hy. apply (isoYear_facts y); lia. Qed.

Lemma Number_isoYear y : 0 <= y <= 9999 -> Monthly.Number (isoYear y) = Some y.
Proof.
  intros Hy. unfold Monthly.Number.
  destruct (isoYear_shape y Hy) as (a & b & c & d & _ & ->).
  cbn [option_map]. f_equal. lia.
Qed.

Lemma Number_pad2 n : 0 <= n <= 99 -> Monthly.Number (pad2 n) = Some n.
Proof.
  intros Hn. unfold Monthly.Number.
  destruct (pad2_shape n Hn) as (a & b & _ & ->).
  cbn [option_map]. f_equal. lia.
Qed.

Lemma split_yearMonth y m :
  0 <= y <= 9999 -> 0 <= m <= 99 ->
  split "-" (yearMonthOf y m) = [isoYear y; pad2 m].
Proof.
  intros Hy Hm. unfold yearMonthOf. cbn [append].
  rewrite split_app by now apply isoYear_no_hyphen.
  now rewrite split_none by now apply pad2_no_hyphen.
Qed.

(** Day 0 of the next month is the last day of this one. *)
Lemma MakeDay_day0 y m :
  1 <= m <= 12 -> MakeDay y m 0 = firstOf y m + lengthOf y m - 1.
Proof.
  intros Hm. unfold firstOf, lengthOf, daysInMonth, MakeDay.
  rewrite (Z.div_small (m - 1)), (Z.mod_small (m - 1)) by lia.
  replace (y + 0) with y by lia.
  replace (m - 1 + 1) with m by lia.
  assert (Hc : m = 12 \/ m < 12) by lia. destruct Hc as [-> | Hlt].
  - change (12 / 12) with 1. change (12 mod 12) with 0.
    change (12 - 1) with 11.
    rewrite DayFromYear_succ. unfold DaysInYear.
    destruct (isLeap y), (isLeap (y + 1)); eval_daysBeforeMonth; lia.
  - rewrite Z.div_small, Z.mod_small by lia.
    replace (y + 0) with y by lia. lia.
Qed.

Lemma lastOf_MakeDay y m :
  firstOf y m + lengthOf y m - 1 = MakeDay y (m - 1) (lengthOf y m).
Proof. unfold firstOf, MakeDay. lia. Qed.

Lemma lengthOf_range y m : 1 <= m <= 12 -> 28 <= lengthOf y m <= 31.
Proof. intros Hm. apply daysInMonth_le_31. lia. Qed.

Lemma month_days_range y m :
  0 <= y <= 9999 -> 1 <= m <= 12 ->
  -719528 <= firstOf y m /\ firstOf y m + lengthOf y m - 1 <= 2932896.
Proof.
  intros Hy Hm. pose proof (lengthOf_range y m Hm) as Hl.
  destruct (fields_of_MakeDay y (m - 1) 1 ltac:(lia)
              ltac:(unfold lengthOf in Hl; lia)) as (Hy1 & _ & _).
  destruct (fields_of_MakeDay y (m - 1) (lengthOf y m) ltac:(lia)
              ltac:(unfold lengthOf in *; lia)) as (Hy2 & _ & _).
  rewrite lastOf_MakeDay.
  pose proof (year_range_days (MakeDay y (m - 1) 1) ltac:(rewrite Hy1; lia)).
  pose proof (year_range_days (MakeDay y (m - 1) (lengthOf y m))
                ltac:(rewrite Hy2; lia)).
  unfold firstOf. lia.
Qed.

(** [getMonthRange] in any zone: the two dates are the UTC days of the
    local midnights, everything else is read in local time. *)
Lemma getMonthRange_any_zone tza y m :
  Z.abs tza <= 24 * msPerHour -> 100 <= y <= 9999 -> 1 <= m <= 12 ->
  Monthly.getMonthRange tza (yearMonthOf y m)
  = Some (Monthly.mkMonthRange
            (dateText (Day (MakeDate (firstOf y m) 0 - tza)))
            (dateText (Day (MakeDate (firstOf y m + lengthOf y m - 1) 0
                            - tza)))
            y m (labelOf y m) (lengthOf y m)).
Proof.
  intros Hz Hy Hm. unfold Monthly.getMonthRange.
  rewrite split_yearMonth, Number_isoYear, Number_pad2 by lia.
  unfold fromFields.
  replace ((0 <=? y) && (y <=? 99)) with false
    by (symmetry; apply andb_false_iff; right; apply Z.leb_gt; lia).
  rewrite MakeDay_day0 by auto. fold (firstOf y m).
  pose proof (month_days_range y m ltac:(lia) Hm) as Hr.
  pose proof (lengthOf_range y m Hm) as Hl.
  unfold UTC.
  rewrite !TimeClip_small
    by (unfold MakeDate, msPerDay, msPerHour in *; lia).
  f_equal.
  assert (Hloc : forall n, Day (LocalTime tza (MakeDate n 0 - tza)) = n).
  { intros n. unfold LocalTime.
    replace (MakeDate n 0 - tza + tza) with (MakeDate n 0) by lia.
    apply Day_MakeDate. unfold msPerDay. lia. }
  destruct (fields_of_MakeDay y (m - 1) 1 ltac:(lia)
              ltac:(unfold lengthOf in Hl; lia)) as (Hy1 & Hm1 & _).
  destruct (fields_of_MakeDay y (m - 1) (lengthOf y m) ltac:(lia)
              ltac:(unfold lengthOf in *; lia)) as (_ & _ & Hd2).
  unfold Monthly.monthLabel, getDate. rewrite !Hloc.
  rewrite lastOf_MakeDay, Hd2. fold (firstOf y m) in Hy1, Hm1.
  rewrite Hy1, Hm1. unfold toISOString_slice10, dateText, labelOf.
  reflexivity.
Qed.

End MonthFacts.

(* ================================================================== *)
(** ** The month range and the days of the month *)
(* ================================================================== *)

Module MonthPeriod.
Import JS Date Recap Spec Terms JSFacts RecapFacts DayFacts DateFacts PeriodFacts MonthFacts.

Lemma dateText_inj a b :
  0 <= YearFromDay a <= 9999 -> 0 <= YearFromDay b <= 9999 ->
  dateText a = dateText b -> a = b.
Proof.
  intros Ha Hb. rewrite !dateText_in_range by auto. intros E.
  destruct (isoDateOfDay_parse a Ha) as (_ & _ & Pa).
  destruct (isoDateOfDay_parse b Hb) as (_ & _ & Pb).
  rewrite E, Pb in Pa. injection Pa. unfold MakeDate, msPerDay. lia.
Qed.

Lemma year_before n :
  1 <= YearFromDay n <= 9999 -> 0 <= YearFromDay (n - 1) <= 9999.
Proof.
  intros Hy.
  pose proof (YearFromDay_spec n) as Hn.
  pose proof (YearFromDay_spec (n - 1)) as Hs.
  unfold DayFromYear in *. floor_lia.
Qed.

Lemma month_day_year y m d :
  1 <= m <= 12 -> 1 <= d <= lengthOf y m ->
  YearFromDay (firstOf y m + d - 1) = y
  /\ isoDateOfDay (firstOf y m + d - 1) = dateOf y m d
  /\ firstOf y m + d - 1 = MakeDay y (m - 1) d.
Proof.
  intros Hm Hd.
  assert (E : firstOf y m + d - 1 = MakeDay y (m - 1) d)
    by (unfold firstOf, MakeDay; lia).
  rewrite E. destruct (fields_of_MakeDay y (m - 1) d ltac:(lia) Hd) as (Hy & _).
  repeat split; auto. now apply dateOf_MakeDay.
Qed.

Lemma midnight_utc_day_west tza n :
  -24 * msPerHour < tza <= 0 -> Day (MakeDate n 0 - tza) = n.
Proof. unfold Day, MakeDate, msPerDay, msPerHour. intros H. floor_lia. Qed.

Lemma midnight_utc_day_east tza n :
  0 < tza <= 24 * msPerHour -> Day (MakeDate n 0 - tza) = n - 1.
Proof. unfold Day, MakeDate, msPerDay, msPerHour. intros H. floor_lia. Qed.

(** [getMonthRange] at and west of UTC.  For the reference [YYYY-MM] of
    a month of the years 100 to 9999 and every offset from just above
    -24h up to 0, the range starts on the first day of that month and ends
    on its last day, the day before the first of the following month; the
    label is the month's name with the year and [daysInMonth] is the
    number of days of the month. *)
Theorem month_range_is_first_to_last :
  forall (tza y m : Z),
    -24 * msPerHour < tza <= 0 -> 100 <= y <= 9999 -> 1 <= m <= 12 ->
    Monthly.getMonthRange tza (yearMonthOf y m)
    = Some (Monthly.mkMonthRange (dateOf y m 1) (dateOf y m (lengthOf y m))
              y m (labelOf y m) (lengthOf y m))
    /\ 28 <= lengthOf y m <= 31
    /\ firstOf y m + lengthOf y m = MakeDay y m 1.
Proof.
  intros tza y m Hz Hy Hm.
  pose proof (lengthOf_range y m Hm) as Hl.
  split; [|split; auto].
  - rewrite getMonthRange_any_zone
      by (auto; unfold msPerHour in *; lia).
    rewrite !midnight_utc_day_west by auto.
    destruct (month_day_year y m 1 Hm ltac:(lia)) as (Y1 & I1 & _).
    destruct (month_day_year y m (lengthOf y m) Hm ltac:(lia))
      as (Y2 & I2 & _).
    replace (firstOf y m + 1 - 1) with (firstOf y m) in * by lia.
    rewrite !dateText_in_range, I1, I2 by lia. reflexivity.
  - pose proof (MakeDay_day0 y m Hm) as H0.
    unfold MakeDay in *. lia.
Qed.

(** February 2024 in UTC and eight hours west of it. *)
Lemma month_range_witness :
  Monthly.getMonthRange 0 "2024-02"
  = Some (Monthly.mkMonthRange "2024-02-01" "2024-02-29" 2024 2
            "February 2024" 29)
  /\ Monthly.getMonthRange (Samples.hours (-8)) "2024-02"
     = Some (Monthly.mkMonthRange "2024-02-01" "2024-02-29" 2024 2
               "February 2024" 29).
Proof.
  split.
  - exact (proj1 (month_range_is_first_to_last 0 2024 2
                    ltac:(vm_compute; split; congruence)
                    ltac:(lia) ltac:(lia))).
  - exact (proj1 (month_range_is_first_to_last (Samples.hours (-8)) 2024 2
                    ltac:(vm_compute; split; congruence)
                    ltac:(lia) ltac:(lia))).
Defined.

Lemma getMonthRange_east tza y m :
  0 < tza <= 24 * msPerHour -> 100 <= y <= 9999 -> 1 <= m <= 12 ->
  Monthly.getMonthRange tza (yearMonthOf y m)
  = Some (Monthly.mkMonthRange
            (dateText (firstOf y m - 1))
            (dateText (firstOf y m + lengthOf y m - 2))
            y m (labelOf y m) (lengthOf y m)).
Proof.
  intros Hz Hy Hm.
  rewrite getMonthRange_any_zone by (auto; unfold msPerHour in *; lia).
  rewrite !midnight_utc_day_east by auto.
  replace (firstOf y m + lengthOf y m - 1 - 1)
    with (firstOf y m + lengthOf y m - 2) by lia.
  reflexivity.
Qed.

Lemma day_before_first y m :
  100 <= y <= 9999 -> 1 <= m <= 12 ->
  dateText (firstOf y m - 1) <> dateOf y m 1.
Proof.
  intros Hy Hm. pose proof (lengthOf_range y m Hm) as Hl.
  destruct (month_day_year y m 1 Hm ltac:(lia)) as (Y1 & I1 & _).
  replace (firstOf y m + 1 - 1) with (firstOf y m) in * by lia.
  assert (Y0 : 0 <= YearFromDay (firstOf y m - 1) <= 9999)
    by (apply year_before; lia).
  assert (T1 : dateOf y m 1 = dateText (firstOf y m))
    by (rewrite dateText_in_range by lia; now symmetry).
  rewrite T1. intros E. apply dateText_inj in E; lia.
Qed.

Lemma day_before_last y m :
  100 <= y <= 9999 -> 1 <= m <= 12 ->
  dateText (firstOf y m + lengthOf y m - 2) = dateOf y m (lengthOf y m - 1).
Proof.
  intros Hy Hm. pose proof (lengthOf_range y m Hm) as Hl.
  destruct (month_day_year y m (lengthOf y m - 1) Hm ltac:(lia))
    as (Y2 & I2 & _).
  replace (firstOf y m + lengthOf y m - 2)
    with (firstOf y m + (lengthOf y m - 1) - 1) by lia.
  rewrite dateText_in_range by lia. exact I2.
Qed.

(** [getMonthRange] east of UTC.  For every offset above 0 up to +24h the
    two dates are those of the day before the first and the day before the
    last day of the month: local midnight printed in UTC.  The start is
    never the first of the month; [year], [month], the label and
    [daysInMonth] are those of the month asked for. *)
Theorem month_range_east_of_utc_is_a_day_early :
  forall (tza y m : Z),
    0 < tza <= 24 * msPerHour -> 100 <= y <= 9999 -> 1 <= m <= 12 ->
    Monthly.getMonthRange tza (yearMonthOf y m)
    = Some (Monthly.mkMonthRange
              (dateText (firstOf y m - 1))
              (dateText (firstOf y m + lengthOf y m - 2))
              y m (labelOf y m) (lengthOf y m))
    /\ dateText (firstOf y m - 1) <> dateOf y m 1
    /\ dateText (firstOf y m + lengthOf y m - 2)
       = dateOf y m (lengthOf y m - 1).
Proof.
  intros tza y m Hz Hy Hm. split; [|split].
  - now apply getMonthRange_east.
  - now apply day_before_first.
  - now apply day_before_last.
Qed.

(** February 2024 one hour east of UTC. *)
Lemma month_range_east_witness :
  Monthly.getMonthRange (Samples.hours 1) "2024-02"
  = Some (Monthly.mkMonthRange "2024-01-31" "2024-02-28" 2024 2
            "February 2024" 29).
Proof.
  exact (proj1 (month_range_east_of_utc_is_a_day_early (Samples.hours 1)
                  2024 2 ltac:(vm_compute; split; congruence)
                  ltac:(lia) ltac:(lia))).
Defined.

Lemma dateOf_length y m d :
  0 <= y <= 9999 -> 1 <= m <= 12 -> 1 <= d <= lengthOf y m ->
  String.length (dateOf y m d) = 10%nat.
Proof.
  intros Hy Hm Hd. rewrite <- (dateOf_MakeDay y m d Hm Hd).
  apply isoDateOfDay_parse.
  destruct (fields_of_MakeDay y (m - 1) d ltac:(lia) Hd) as (-> & _). lia.
Qed.

(** One turn of the loop that fills the days of the month. *)
Lemma dayEntry_of_month tza implParse s e lab dim dm y m d :
  Z.abs tza <= 24 * msPerHour -> 1000 <= y <= 9999 -> 1 <= m <= 12 ->
  1 <= d <= lengthOf y m ->
  Monthly.dayEntry tza implParse (Monthly.mkMonthRange s e y m lab dim) dm d
  = Monthly.mkDayEntry (dateOf y m d)
      (Some (WeekDay (MakeDay y (m - 1) d))) d
      (dcount (dayOrEmpty dm (dateOf y m d)))
      (dwords (dayOrEmpty dm (dateOf y m d)))
      (Z.of_nat (List.length (dapps (dayOrEmpty dm (dateOf y m d))))).
Proof.
  intros Hz Hy Hm Hd. unfold Monthly.dayEntry.
  cbn [Monthly.year Monthly.month].
  rewrite String_of_year by auto. fold (dateOf y m d).
  destruct (fields_of_MakeDay y (m - 1) d ltac:(lia) Hd) as (Yd & _).
  assert (P : Date_parse tza implParse (dateOf y m d ++ "T12:00:00")
              = Some (MakeDate (MakeDay y (m - 1) d) (12 * msPerHour) - tza)).
  { rewrite <- (dateOf_MakeDay y m d Hm Hd).
    apply noon_parse; auto. rewrite Yd. lia. }
  rewrite P. cbn [option_map]. unfold getDay. rewrite noon_local_day.
  reflexivity.
Qed.

(** The loop over the days of the month, for any range texts. *)
Lemma fillDays_of_month tza implParse s e lab dm y m :
  Z.abs tza <= 24 * msPerHour -> 1000 <= y <= 9999 -> 1 <= m <= 12 ->
  Monthly.fillDays tza implParse
    (Monthly.mkMonthRange s e y m lab (lengthOf y m)) dm
  = map (fun d =>
           Monthly.mkDayEntry (dateOf y m (Z.of_nat d))
             (Some (WeekDay (MakeDay y (m - 1) (Z.of_nat d)))) (Z.of_nat d)
             (dcount (dayOrEmpty dm (dateOf y m (Z.of_nat d))))
             (dwords (dayOrEmpty dm (dateOf y m (Z.of_nat d))))
             (Z.of_nat (List.length
                          (dapps (dayOrEmpty dm (dateOf y m (Z.of_nat d)))))))
      (seq 1 (Z.to_nat (lengthOf y m))).
Proof.
  intros Hz Hy Hm. unfold Monthly.fillDays. cbn [Monthly.daysInMonth].
  apply map_ext_in. intros d Hd. apply in_seq in Hd.
  apply dayEntry_of_month; auto. lia.
Qed.

(** The day breakdown of a month.  For the reference [YYYY-MM] of a month
    of the years 1000 to 9999, every offset of at most 24 hours either
    way and all rows whose day keys are not inherited names, the monthly
    script lists the days of that calendar month and no others: one entry
    for each day number from 1 to the length of the month, in order, with
    that day's date, its day of the week, and the number of rows of that
    date (0 when there is none).  This holds whatever range the rows were
    queried for. *)
Theorem month_days_fill_first_to_last :
  forall (tza : Z) (implParse : string -> option Z) (y m : Z)
         (rows : list Row),
    Z.abs tza <= 24 * msPerHour -> 1000 <= y <= 9999 -> 1 <= m <= 12 ->
    (forall r, In r rows -> plainDay r = true) ->
    exists mr data,
      Monthly.getMonthRange tza (yearMonthOf y m) = Some mr
      /\ Monthly.aggregate tza implParse mr rows = Some data
      /\ map Monthly.dayNum (Monthly.allDays data)
         = map Z.of_nat (seq 1 (Z.to_nat (lengthOf y m)))
      /\ map Monthly.date (Monthly.allDays data) = monthDates y m
      /\ (forall e, In e (Monthly.allDays data) ->
            Monthly.date e = dateOf y m (Monthly.dayNum e)
            /\ Monthly.dayOfWeek e
               = Some (WeekDay (MakeDay y (m - 1) (Monthly.dayNum e)))
            /\ Monthly.dayCount e
               = countRows (onDay (Monthly.date e)) rows).
Proof.
  intros tza implParse y m rows Hz Hy Hm Hp.
  destruct (dayMap_plain rows Hp) as [dm Hdm].
  eexists. eexists.
  split; [apply getMonthRange_any_zone; auto; lia|].
  unfold Monthly.aggregate. rewrite Hdm.
  split; [reflexivity|]. cbn [Monthly.allDays].
  rewrite fillDays_of_month by auto. split; [|split].
  - rewrite map_map. reflexivity.
  - rewrite map_map. reflexivity.
  - intros e He. apply in_map_iff in He. destruct He as [d [<- Hd]].
    apply in_seq in Hd. cbn [Monthly.date Monthly.dayNum Monthly.dayOfWeek
                               Monthly.dayCount].
    repeat split.
    change (dcount (dayOrEmpty dm ?k)) with (dayCountAt dm k).
    apply dayMap_dayCountAt; auto.
    apply inherited_length, dateOf_length; lia.
Qed.

(** February 2024 one hour east of UTC, with the two rows of
    [leapStore]. *)
Lemma month_days_witness :
  exists mr data,
    Monthly.getMonthRange (Samples.hours 1) "2024-02" = Some mr
    /\ Monthly.aggregate (Samples.hours 1) Samples.strictParse mr
         Samples.leapStore = Some data
    /\ map Monthly.dayNum (Monthly.allDays data)
       = map Z.of_nat (seq 1 29)
    /\ map Monthly.date (Monthly.allDays data) = monthDates 2024 2
    /\ (forall e, In e (Monthly.allDays data) ->
          Monthly.date e = dateOf 2024 2 (Monthly.dayNum e)
          /\ Monthly.dayOfWeek e
             = Some (WeekDay (MakeDay 2024 (2 - 1) (Monthly.dayNum e)))
          /\ Monthly.dayCount e
             = countRows (onDay (Monthly.date e)) Samples.leapStore).
Proof.
  exact (month_days_fill_first_to_last (Samples.hours 1) Samples.strictParse
           2024 2 Samples.leapStore
           ltac:(vm_compute; congruence) ltac:(lia) ltac:(lia)
           ltac:(intros r [<- | [<- | []]]; reflexivity)).
Defined.
End MonthPeriod.

(* ================================================================== *)
(** ** Weeks in every zone *)
(* ================================================================== *)

Module WeekFacts.
Import JS Date Recap Spec Terms JSFacts RecapFacts DayFacts DateFacts PeriodFacts.

Lemma mondayOf_same mon i :
  WeekDay mon = 1 -> 0 <= i <= 6 -> mondayOf (mon + i) = mon.
Proof. unfold mondayOf, WeekDay. intros H Hi. floor_lia. Qed.

Lemma year_within_a_week n x :
  n - 7 <= x <= n + 7 -> 1 <= YearFromDay n <= 9998 ->
  0 <= YearFromDay x <= 9999.
Proof.
  intros Hx Hy.
  pose proof (YearFromDay_spec n) as Hn.
  pose proof (YearFromDay_spec x) as Hs.
  unfold DayFromYear in *. floor_lia.
Qed.

(** The UTC day of local noon, for any offset. *)
Lemma noon_utc_day_any tza n :
  Day (MakeDate n (12 * msPerHour) - tza)
  = n + (12 * msPerHour - tza) / msPerDay.
Proof. unfold Day, MakeDate, msPerDay, msPerHour. floor_lia. Qed.

(** [getWeekRange] in any zone: the Monday and the Sunday are found in
    local time and printed as the UTC days of their local noons. *)
Lemma getWeekRange_any_zone tza implParse n :
  Z.abs tza <= 24 * msPerHour ->
  0 <= YearFromDay n <= 9999 ->
  Weekly.getWeekRange tza implParse (isoDateOfDay n)
  = Some (Weekly.mkWeekRange
            (dateText (mondayOf n + (12 * msPerHour - tza) / msPerDay))
            (dateText (mondayOf n + 6 + (12 * msPerHour - tza) / msPerDay))).
Proof.
  intros Hz Hy. unfold Weekly.getWeekRange.
  rewrite noon_parse by auto.
  unfold getDay. rewrite noon_local_day.
  pose proof (year_range_days n Hy) as Hn.
  pose proof (mondayOf_spec n) as (_ & Hmon).
  rewrite setDate_shift, noon_shift, mondayOf_diff.
  rewrite TimeClip_small
    by (unfold MakeDate, msPerDay, msPerHour in *; lia).
  rewrite setDate_shift, noon_shift.
  rewrite TimeClip_small
    by (unfold MakeDate, msPerDay, msPerHour in *; lia).
  unfold toISOString_slice10. rewrite !noon_utc_day_any.
  reflexivity.
Qed.

(** Every day of a week resolves to that week.  For every date of the
    years 1 to 9998 and every offset above -12h and at most +12h: if
    [getWeekRange] gives the week [w] for the date, it gives the same [w]
    for each of the seven days from the Monday of [w] on, so in particular
    for the week's own start and end date. *)
Theorem week_of_any_day_of_the_week :
  forall (tza : Z) (implParse : string -> option Z) (y m d : Z)
         (w : Weekly.WeekRange),
    -12 * msPerHour < tza <= 12 * msPerHour ->
    1 <= y <= 9998 -> 1 <= m <= 12 -> 1 <= d <= daysInMonth y (m - 1) ->
    Weekly.getWeekRange tza implParse (dateOf y m d) = Some w ->
    (forall i, 0 <= i <= 6 ->
       Weekly.getWeekRange tza implParse
         (dateText (mondayOf (MakeDay y (m - 1) d) + i)) = Some w)
    /\ Weekly.getWeekRange tza implParse (Weekly.start w) = Some w
    /\ Weekly.getWeekRange tza implParse (Weekly.end_ w) = Some w.
Proof.
  intros tza implParse y m d w Hz Hy Hm Hd Hw.
  destruct (fields_of_MakeDay y (m - 1) d ltac:(lia) Hd) as (Hyn & _ & _).
  set (n := MakeDay y (m - 1) d) in *.
  rewrite <- (dateOf_MakeDay y m d Hm Hd) in Hw. fold n in Hw.
  rewrite getWeekRange_of_day in Hw by (auto; lia).
  injection Hw as <-.
  pose proof (mondayOf_spec n) as (Hmon & Hin).
  assert (Hall : forall i, 0 <= i <= 6 ->
            Weekly.getWeekRange tza implParse (dateText (mondayOf n + i))
            = Some (Weekly.mkWeekRange (dateText (mondayOf n))
                      (dateText (mondayOf n + 6)))).
  { intros i Hi.
    assert (Hyi : 0 <= YearFromDay (mondayOf n + i) <= 9999)
      by (apply (year_near n); lia).
    rewrite dateText_in_range by auto.
    rewrite getWeekRange_of_day by auto.
    now rewrite mondayOf_same by auto. }
  split; [exact Hall|]. cbn [Weekly.start Weekly.end_]. split.
  - specialize (Hall 0 ltac:(lia)). now rewrite Z.add_0_r in Hall.
  - apply (Hall 6). lia.
Qed.

(** The week of 2026-01-01 in UTC, asked again for its own start and
    end. *)
Lemma week_of_any_day_witness :
  Weekly.getWeekRange 0 Samples.strictParse "2025-12-29"
  = Some (Weekly.mkWeekRange "2025-12-29" "2026-01-04")
  /\ Weekly.getWeekRange 0 Samples.strictParse "2026-01-04"
     = Some (Weekly.mkWeekRange "2025-12-29" "2026-01-04").
Proof.
  exact (proj2 (week_of_any_day_of_the_week 0 Samples.strictParse 2026 1 1
                  (Weekly.mkWeekRange "2025-12-29" "2026-01-04")
                  ltac:(vm_compute; split; congruence)
                  ltac:(lia) ltac:(lia) ltac:(vm_compute; split; congruence)
                  ltac:(vm_compute; reflexivity))).
Defined.

(** [getWeekRange] more than twelve hours east of UTC.  For every date of
    the years 1 to 9998 and every offset above +12h up to +24h the range
    runs from the Sunday before the date's Monday to the Saturday after
    it: local noon printed in UTC is the day before. *)
Theorem week_range_beyond_plus_12h_is_a_day_early :
  forall (tza : Z) (implParse : string -> option Z) (y m d : Z),
    12 * msPerHour < tza <= 24 * msPerHour ->
    1 <= y <= 9998 -> 1 <= m <= 12 -> 1 <= d <= daysInMonth y (m - 1) ->
    let mon := mondayOf (MakeDay y (m - 1) d) in
    Weekly.getWeekRange tza implParse (dateOf y m d)
    = Some (Weekly.mkWeekRange (dateText (mon - 1)) (dateText (mon + 5)))
    /\ WeekDay (mon - 1) = 0 /\ WeekDay (mon + 5) = 6
    /\ dateText (mon - 1) <> dateText mon.
Proof.
  intros tza implParse y m d Hz Hy Hm Hd mon.
  destruct (fields_of_MakeDay y (m - 1) d ltac:(lia) Hd) as (Hyn & _ & _).
  pose proof (mondayOf_spec (MakeDay y (m - 1) d)) as (Hmon & Hin).
  fold mon in Hmon, Hin.
  split; [|split; [|split]].
  - rewrite <- (dateOf_MakeDay y m d Hm Hd).
    rewrite getWeekRange_any_zone
      by (try rewrite Hyn; unfold msPerHour in *; lia).
    fold mon.
    replace ((12 * msPerHour - tza) / msPerDay) with (-1)
      by (unfold msPerHour, msPerDay in *; floor_lia).
    now replace (mon + 6 + -1) with (mon + 5) by lia.
  - unfold WeekDay in *. floor_lia.
  - unfold WeekDay in *. floor_lia.
  - intros E. apply MonthPeriod.dateText_inj in E; try lia;
      apply (year_within_a_week (MakeDay y (m - 1) d)); lia.
Qed.

(** 2026-01-01 thirteen hours east of UTC. *)
Lemma week_range_beyond_plus_12h_witness :
  Weekly.getWeekRange (Samples.hours 13) Samples.strictParse "2026-01-01"
  = Some (Weekly.mkWeekRange "2025-12-28" "2026-01-03").
Proof.
  exact (proj1 (week_range_beyond_plus_12h_is_a_day_early (Samples.hours 13)
                  Samples.strictParse 2026 1 1
                  ltac:(vm_compute; split; congruence)
                  ltac:(lia) ltac:(lia) ltac:(vm_compute; split; congruence))).
Defined.
End WeekFacts.

(* ================================================================== *)
(** ** What the breakdowns add up to *)
(* ================================================================== *)

Module Totals.
Import JS Date Recap Spec Terms JSFacts RecapFacts DayFacts DateFacts.

Lemma sumZ_app l1 l2 : sumZ (l1 ++ l2) = sumZ l1 + sumZ l2.
Proof.
  unfold sumZ. induction l1 as [|a l1 IH];
    rewrite ?app_nil_l, <- ?app_comm_cons; cbn [fold_right]; lia.
Qed.

Lemma sumZ_perm l l' : Permutation l l' -> sumZ l = sumZ l'.
Proof.
  unfold sumZ. induction 1; cbn [fold_right]; lia.
Qed.

Lemma total_perm {V} (f : V -> Z) (l l' : list (string * V)) :
  Permutation l l' -> total f l = total f l'.
Proof. intros H. unfold total. apply sumZ_perm. now apply Permutation_map. Qed.

Lemma total_setOwn {V} (f : V -> Z) (o : obj V) k v :
  total f (setOwn o k v)
  = total f o - match getOwn o k with Some u => f u | None => 0 end + f v.
Proof.
  unfold total. induction o as [|[k' v'] o IH]; cbn [setOwn getOwn].
  - cbn. lia.
  - unfold sumZ in *.
    destruct (String.eqb k k'); cbn [map fold_right snd] in *; lia.
Qed.

Lemma countRows_app p l1 l2 :
  countRows p (l1 ++ l2) = countRows p l1 + countRows p l2.
Proof. unfold countRows. rewrite filter_app, length_app. lia. Qed.

Lemma countRows_negb p rows :
  countRows p rows + countRows (fun r => negb (p r)) rows
  = Z.of_nat (List.length rows).
Proof.
  induction rows as [|r rows IH]; [reflexivity|].
  rewrite !countRows_cons. cbn [List.length]. destruct (p r); cbn [negb]; lia.
Qed.

(** One row adds one to the counts of the buckets, and its words to their
    words, unless its name is inherited. *)
Lemma appStep_total (f : AppStats -> Z) (g : Row -> Z) o r :
  (forall st, f (mkAppStats (count st + 1) (words st + numWordsOr0 r)
                   (bundleId st)) = f st + g r) ->
  f (mkAppStats 0 0 (appOrUnknown r)) = 0 ->
  (forall k, In k (map fst o) -> inherited k = false) ->
  total f (appStep o r) = total f o + (if plainName r then g r else 0).
Proof.
  intros Hf H0 Hinv. unfold appStep, plainName. cbv zeta.
  destruct (hasOwn o (resolvedName r)) eqn:Ho.
  - cbn [orb]. unfold hasOwn in Ho.
    destruct (getOwn o (resolvedName r)) as [st|] eqn:G; [|discriminate].
    rewrite (Hinv (resolvedName r))
      by (apply in_map_iff; exists (resolvedName r, st); split; auto;
          apply getOwn_In, G).
    cbn [negb]. rewrite total_setOwn, G, Hf. lia.
  - cbn [orb]. destruct (inherited (resolvedName r)) eqn:Hi; cbn [negb].
    + unfold hasOwn in Ho.
      destruct (getOwn o (resolvedName r)); [discriminate|]. lia.
    + rewrite getOwn_setOwn_same, !total_setOwn, getOwn_setOwn_same.
      unfold hasOwn in Ho.
      destruct (getOwn o (resolvedName r)); [discriminate|].
      rewrite Hf, H0. cbn [count words bundleId]. lia.
Qed.

Lemma appMap_total (f : AppStats -> Z) (g : Row -> Z) rows :
  (forall r st, f (mkAppStats (count st + 1) (words st + numWordsOr0 r)
                     (bundleId st)) = f st + g r) ->
  (forall r, f (mkAppStats 0 0 (appOrUnknown r)) = 0) ->
  total f (appMapOf rows) = sumZ (map g (filter plainName rows)).
Proof.
  intros Hf H0. induction rows as [|r rows IH] using rev_ind; [reflexivity|].
  rewrite appMapOf_snoc, appStep_total with (g := g); auto.
  - rewrite IH, filter_app, map_app, sumZ_app. cbn [filter].
    destruct (plainName r); cbn; lia.
  - intros k Hk. now apply appMap_keys_In in Hk.
Qed.

Lemma appsSorted_permutation rows :
  Permutation (appsSorted rows) (appMapOf rows).
Proof.
  unfold appsSorted. etransitivity; [apply sort_perm | apply entries_perm].
Qed.

Lemma sumZ_ones {A} (l : list A) :
  sumZ (map (fun _ => 1) l) = Z.of_nat (List.length l).
Proof.
  unfold sumZ. induction l as [|a l IH]; cbn [map fold_right List.length]; lia.
Qed.

(** The application breakdown accounts for every row whose name is not
    that of an inherited member, and for no other: the counts of its
    buckets add up to the number of those rows, and with the rows of
    inherited names they make up [totalDictations].  The words of its
    buckets add up to the words of those rows as long as the absolute
    values of the words of the rows stay below 2^53 in total, where the
    additions of the script are exact. *)
Theorem app_breakdown_accounts_for_plain_names :
  forall rows : list Row,
    total count (appsSorted rows) = countRows plainName rows
    /\ total count (appsSorted rows)
       + countRows (fun r => inherited (resolvedName r)) rows
       = totalDictations rows
    /\ (wordsMass rows < 2 ^ 53 ->
        total words (appsSorted rows)
        = sumZ (map numWordsOr0 (filter plainName rows))).
Proof.
  intros rows.
  assert (Hc : total count (appsSorted rows) = countRows plainName rows).
  { rewrite (total_perm _ _ _ (appsSorted_permutation rows)).
    rewrite (appMap_total count (fun _ => 1)); try reflexivity.
    unfold countRows. apply sumZ_ones. }
  split; [exact Hc|]. apply and_comm. split.
  - intros _. rewrite (total_perm _ _ _ (appsSorted_permutation rows)).
    apply appMap_total; reflexivity.
  - rewrite Hc. unfold totalDictations.
    rewrite <- (countRows_negb plainName rows). f_equal.
    apply countRows_ext. intros r _. unfold plainName.
    now rewrite negb_involutive.
Qed.

(** At [inheritedNameRows]: the Safari row makes up the breakdown, with
    its seven words; the row of [toString] is in no bucket. *)
Lemma app_breakdown_witness :
  total count (appsSorted Samples.inheritedNameRows)
  = countRows plainName Samples.inheritedNameRows
  /\ total count (appsSorted Samples.inheritedNameRows)
     + countRows (fun r => inherited (resolvedName r))
         Samples.inheritedNameRows
     = totalDictations Samples.inheritedNameRows
  /\ total words (appsSorted Samples.inheritedNameRows)
     = sumZ (map numWordsOr0 (filter plainName Samples.inheritedNameRows)).
Proof.
  destruct (app_breakdown_accounts_for_plain_names Samples.inheritedNameRows)
    as (Hc & Ht & Hw).
  split; [exact Hc|]. split; [exact Ht|].
  apply Hw. vm_compute. reflexivity.
Defined.



(** *** Hours *)

Section Hours.
Variable tza : Z.
Variable implParse : string -> option Z.

Lemma hourStep_total o r :
  sumZ (map snd (hourStep tza implParse o r)) = sumZ (map snd o) + 1.
Proof.
  unfold hourStep. cbv zeta.
  change (fun o => sumZ (map snd o)) with (fun o : obj Z => sumZ (map snd o)).
  pose proof (total_setOwn (fun c : Z => c) o (hourKey tza implParse r)
                (match getOwn o (hourKey tza implParse r) with
                 | Some c => c | None => 0 end + 1)) as H.
  unfold total in H.
  change (map (fun e : string * Z => snd e)) with (map (@snd string Z)) in H.
  rewrite H. lia.
Qed.

Lemma hourMap_total rows :
  sumZ (map snd (hourMapOf tza implParse rows)) = Z.of_nat (List.length rows).
Proof.
  induction rows as [|r rows IH] using rev_ind; [reflexivity|].
  rewrite hourMapOf_snoc, hourStep_total, IH, length_app. cbn [List.length].
  lia.
Qed.

(** The key of a row is the text of [h] exactly when the row is stamped
    at the hour [h]. *)
Lemma hourKey_eqb_atHour r h :
  0 <= h ->
  String.eqb (hourKey tza implParse r) (String_of_N (Z.to_N h))
  = atHour tza implParse h r.
Proof.
  intros Hh. destruct (parses tza implParse r) eqn:Hp.
  - now apply hourKey_atHour.
  - unfold parses in Hp. unfold hourKey, atHour, hourOf.
    destruct (Date_parse tza implParse (timestamp r)); [discriminate|].
    cbn [option_map]. apply String.eqb_neq. intros E. symmetry in E.
    now apply String_of_N_not_NaN in E.
Qed.

Lemma hourMap_at_hour rows h :
  0 <= h ->
  valueAt (hourMapOf tza implParse rows) (String_of_N (Z.to_N h))
  = countRows (atHour tza implParse h) rows.
Proof.
  intros Hh. rewrite hourMap_valueAt. apply countRows_ext. intros r _.
  now apply hourKey_eqb_atHour.
Qed.

End Hours.

(** The hour histogram accounts for every row.  Its values add up to
    [totalDictations]; the value under the text of an hour is the number of
    rows stamped at that hour, and the value under [NaN] the number of rows
    whose timestamp is no valid date. *)
Theorem hour_histogram_accounts_for_every_row :
  forall (tza : Z) (implParse : string -> option Z) (rows : list Row),
    sumZ (map snd (hourMapOf tza implParse rows)) = totalDictations rows
    /\ (forall h, 0 <= h ->
          valueAt (hourMapOf tza implParse rows) (String_of_N (Z.to_N h))
          = countRows (atHour tza implParse h) rows)
    /\ valueAt (hourMapOf tza implParse rows) "NaN"
       = countRows (fun r => negb (parses tza implParse r)) rows.
Proof.
  intros tza implParse rows. split; [apply hourMap_total|]. split.
  - intros h Hh. now apply hourMap_at_hour.
  - rewrite hourMap_valueAt. apply countRows_ext. intros r _.
    unfold hourKey, parses.
    destruct (Date_parse tza implParse (timestamp r)); cbn [negb].
    + apply String.eqb_neq. apply String_of_N_not_NaN.
    + reflexivity.
Qed.

(** *** Sums of counts over disjoint classes of rows *)

Lemma sumZ_map_add {A} (a b : A -> Z) (l : list A) :
  sumZ (map (fun x => a x + b x) l) = sumZ (map a l) + sumZ (map b l).
Proof.
  unfold sumZ. induction l as [|x l IH]; cbn [map fold_right]; lia.
Qed.

Lemma sum_of_counts {A} (p : A -> Row -> bool) (q : Row -> bool)
    (keys : list A) (rows : list Row) :
  (forall r, sumZ (map (fun k => if p k r then 1 else 0) keys)
             = if q r then 1 else 0) ->
  sumZ (map (fun k => countRows (p k) rows) keys) = countRows q rows.
Proof.
  intros H. induction rows as [|r rows IH].
  - clear H. unfold countRows, sumZ.
    induction keys as [|k keys IHk];
      cbn [map fold_right filter List.length] in *; lia.
  - rewrite countRows_cons, <- IH, <- H, <- sumZ_map_add.
    f_equal. apply map_ext. intros k. apply countRows_cons.
Qed.

Lemma sum_onDay keys r :
  NoDup keys ->
  sumZ (map (fun k => if onDay k r then 1 else 0) keys)
  = if inDays keys r then 1 else 0.
Proof.
  unfold inDays, onDay, mem, sumZ.
  induction 1 as [|k keys Hk Hn IH]; cbn [map fold_right existsb]; auto.
  rewrite IH. destruct (String.eqb (slice0 10 (timestamp r)) k) eqn:E;
    cbn [orb]; auto.
  apply String.eqb_eq in E. subst k.
  replace (existsb _ keys) with false; [lia|].
  symmetry. apply mem_false. exact Hk.
Qed.

Lemma day_counts_add_up keys rows :
  NoDup keys ->
  sumZ (map (fun k => countRows (onDay k) rows) keys)
  = countRows (inDays keys) rows.
Proof. intros H. apply sum_of_counts. intros r. now apply sum_onDay. Qed.

End Totals.

(* ================================================================== *)
(** ** Periods and percentages at particular inputs *)
(* ================================================================== *)

Module Periods.
Import JS Date Recap Spec.

(** C3.  [getWeekRange] reads the day of the week in local time and
    prints the dates in UTC.  In UTC the reference date 2026-01-01 gives
    Monday 2025-12-29 to Sunday 2026-01-04.  Thirteen hours east of UTC,
    where local noon is 23:00 of the day before in UTC, it gives Sunday
    2025-12-28 to Saturday 2026-01-03. *)
Theorem week_of_2026_01_01_by_zone :
  Weekly.getWeekRange 0 Samples.strictParse "2026-01-01"
  = Some (Weekly.mkWeekRange "2025-12-29" "2026-01-04")
  /\ Weekly.getWeekRange (Samples.hours 13) Samples.strictParse "2026-01-01"
     = Some (Weekly.mkWeekRange "2025-12-28" "2026-01-03")
  /\ WeekDay (MakeDay 2025 11 28) = 0
  /\ WeekDay (MakeDay 2026 0 3) = 6.
Proof. repeat split; vm_compute; reflexivity. Qed.

(** C4.  [getMonthRange] builds the first and the last day at local
    midnight and prints them in UTC.  In UTC the reference 2024-02-15
    gives 2024-02-01 to 2024-02-29.  One hour east of UTC, where local
    midnight is 23:00 of the day before in UTC, it gives 2024-01-31 to
    2024-02-28, with [daysInMonth] still 29. *)
Theorem month_of_2024_02_by_zone :
  Monthly.getMonthRange 0 "2024-02-15"
  = Some (Monthly.mkMonthRange "2024-02-01" "2024-02-29" 2024 2
            "February 2024" 29)
  /\ Monthly.getMonthRange (Samples.hours 1) "2024-02-15"
     = Some (Monthly.mkMonthRange "2024-01-31" "2024-02-28" 2024 2
               "February 2024" 29).
Proof. repeat split; vm_compute; reflexivity. Qed.

(** C2.  One hour east of UTC the monthly script queries 2024-01-31 to
    2024-02-28 and fills the days 2024-02-01 to 2024-02-29: of the two
    dictations in [leapStore] the one of 2024-01-31 is loaded and has no
    day entry, and the one of 2024-02-29 is not loaded and its day is
    listed with count 0.  Thirteen hours east of UTC the weekly script
    queries 2025-12-28 to 2026-01-03 and fills 2025-12-27 to 2026-01-02:
    the dictation of 2026-01-03 is loaded and has no day entry. *)
Theorem day_breakdown_beside_the_period :
  (let o := Monthly.main (Samples.hours 1) Samples.strictParse false
              "2024-02" true (Samples.between Samples.leapStore) in
   option_map (fun d => (Monthly.start (Monthly.monthRange d),
                         Monthly.end_ (Monthly.monthRange d),
                         Monthly.totalDictations d))
     (reported o)
   = Some ("2024-01-31", "2024-02-28", 1)
   /\ map fst (monthDays o)
      = map (fun d => "2024-02-" ++ pad2 (Z.of_nat d)) (seq 1 29)
   /\ Forall (fun e => snd e = 0) (monthDays o))
  /\ (let o := Weekly.main (Samples.hours 13) Samples.strictParse false
                 "2026-01-01" true (Samples.between Samples.newYearStore) in
      option_map (fun d => (Weekly.week d, Weekly.totalDictations d))
        (reported o)
      = Some (Weekly.mkWeekRange "2025-12-28" "2026-01-03", 1)
      /\ weekDays o
         = [ ("2025-12-27", 0); ("2025-12-28", 0); ("2025-12-29", 0);
             ("2025-12-30", 0); ("2025-12-31", 0); ("2026-01-01", 0);
             ("2026-01-02", 0) ]).
Proof.
  split.
  - cbv zeta. split; [vm_compute; reflexivity|].
    split; [vm_compute; reflexivity|].
    apply Forall_forall. intros e He. vm_compute in He.
    repeat (destruct He as [<- | He]; [reflexivity|]). destruct He.
  - cbv zeta. split; vm_compute; reflexivity.
Qed.

(** C9.  An application whose identifier ends in the name of a member of
    [Object.prototype] gets no bucket: [inheritedNameRows] has two
    dictations and a breakdown of one application at 50 percent.  And
    the quotient is rounded before it is multiplied by 100: 23 of 40 is
    57.5 percent, [(23 / 40) * 100] is a double just below 57.5, and the
    script prints 57 where rounding the half up gives 58. *)
Theorem percentages_at_two_inputs :
  map fst (appsSorted Samples.inheritedNameRows) = ["Safari"]
  /\ totalDictations Samples.inheritedNameRows = 2
  /\ percentages (appsSorted Samples.inheritedNameRows)
       (totalDictations Samples.inheritedNameRows)
     = [Some 50]
  /\ map (fun e => (fst e, count (snd e))) (appsSorted Samples.fortyRows)
     = [("Safari", 23); ("Mail", 17)]
  /\ percentages (appsSorted Samples.fortyRows)
       (totalDictations Samples.fortyRows)
     = [Some 57; Some 43]
  /\ Math_round ((23 # 40) * 100)%Q = 58.
Proof. repeat split; vm_compute; reflexivity. Qed.

End Periods.

(* ================================================================== *)
(** ** What the day counts add up to *)
(* ================================================================== *)

Module DaySums.
Import JS Date Recap Spec Terms JSFacts RecapFacts DayFacts DateFacts PeriodFacts
       MonthFacts MonthPeriod WeekFacts Totals.

Lemma daysFrom_NoDup c k : NoDup (daysFrom c k).
Proof.
  unfold daysFrom. apply NoDup_map_NoDup_ForallPairs; [|apply seq_NoDup].
  intros i j _ _ E. lia.
Qed.

Lemma week_dates_NoDup mon :
  (forall x, mon <= x <= mon + 6 -> 0 <= YearFromDay x <= 9999) ->
  NoDup (map dateText (daysFrom mon 7)).
Proof.
  intros Hy. apply NoDup_map_NoDup_ForallPairs; [|apply daysFrom_NoDup].
  intros a b Ha Hb E. apply daysFrom_In in Ha, Hb.
  apply dateText_inj in E; auto; apply Hy; lia.
Qed.

Lemma month_dates_NoDup y m :
  0 <= y <= 9999 -> 1 <= m <= 12 -> NoDup (monthDates y m).
Proof.
  intros Hy Hm. unfold monthDates.
  apply NoDup_map_NoDup_ForallPairs; [|apply seq_NoDup].
  intros a b Ha Hb E. apply in_seq in Ha, Hb.
  destruct (month_day_year y m (Z.of_nat a) Hm ltac:(lia)) as (Ya & Ia & _).
  destruct (month_day_year y m (Z.of_nat b) Hm ltac:(lia)) as (Yb & Ib & _).
  rewrite <- Ia, <- Ib in E.
  rewrite <- !dateText_in_range in E by lia.
  apply dateText_inj in E; lia.
Qed.

(** The day counts of a week add up to the rows of its seven dates.  For
    every date of the years 1 to 9998, every offset above -12h and at most
    +12h and all rows whose day keys are not inherited names: the counts
    of the seven day entries add up to the number of rows whose day key is
    one of the seven dates from Monday to Sunday, and so to
    [totalDictations] when every row lies within the week. *)
Theorem week_day_counts_add_up :
  forall (tza : Z) (implParse : string -> option Z) (y m d : Z)
         (rows : list Row),
    -12 * msPerHour < tza <= 12 * msPerHour ->
    1 <= y <= 9998 -> 1 <= m <= 12 -> 1 <= d <= daysInMonth y (m - 1) ->
    (forall r, In r rows -> plainDay r = true) ->
    let week := map dateText (daysFrom (mondayOf (MakeDay y (m - 1) d)) 7) in
    exists w data,
      Weekly.getWeekRange tza implParse (dateOf y m d) = Some w
      /\ Weekly.aggregate tza implParse w rows = Some data
      /\ sumZ (map Weekly.dayCount (Weekly.daySorted data))
         = countRows (inDays week) rows
      /\ ((forall r, In r rows -> inDays week r = true) ->
          sumZ (map Weekly.dayCount (Weekly.daySorted data))
          = Weekly.totalDictations data).
Proof.
  intros tza implParse y m d rows Hz Hy Hm Hd Hp week.
  destruct (fields_of_MakeDay y (m - 1) d ltac:(lia) Hd) as (Hyn & _ & _).
  set (mon := mondayOf (MakeDay y (m - 1) d)) in *.
  pose proof (mondayOf_spec (MakeDay y (m - 1) d)) as (_ & Hmon).
  fold mon in Hmon.
  assert (Hnear : forall x, mon <= x <= mon + 6 -> 0 <= YearFromDay x <= 9999).
  { intros x Hx. apply (year_near (MakeDay y (m - 1) d)); [lia|].
    now rewrite Hyn. }
  destruct (dayMap_plain rows Hp) as [dm Hdm].
  assert (Hsum : sumZ (map Weekly.dayCount (map (weekEntry dm) (daysFrom mon 7)))
                 = countRows (inDays week) rows).
  { rewrite map_map. unfold week.
    rewrite <- (day_counts_add_up _ rows (week_dates_NoDup mon Hnear)).
    rewrite map_map. f_equal. apply map_ext_in. intros x Hx.
    apply daysFrom_In in Hx. cbn [weekEntry Weekly.dayCount].
    change (dcount (dayOrEmpty dm (dateText x)))
      with (dayCountAt dm (dateText x)).
    apply dayMap_dayCountAt; auto.
    apply dateText_not_inherited, Hnear. lia. }
  exists (Weekly.mkWeekRange (dateText mon) (dateText (mon + 6))).
  eexists. split.
  { rewrite <- (dateOf_MakeDay y m d Hm Hd).
    apply getWeekRange_of_day; auto; rewrite Hyn; lia. }
  unfold Weekly.aggregate. rewrite Hdm.
  split; [reflexivity|].
  cbn [Weekly.daySorted Weekly.totalDictations].
  rewrite fillDays_of_week by (auto; apply Hnear; lia).
  split; [exact Hsum|].
  intros Hall. rewrite Hsum. unfold countRows, totalDictations.
  f_equal. f_equal. apply forallb_filter_id. apply forallb_forall. exact Hall.
Qed.

(** The week of 2026-01-01 in UTC with the rows of [newYearStore] that
    lie in it. *)
Lemma week_day_counts_witness :
  let rows := Samples.between Samples.newYearStore "2025-12-29" "2026-01-04" in
  let week := map dateText (daysFrom (mondayOf (MakeDay 2026 (1 - 1) 1)) 7) in
  exists w data,
    Weekly.getWeekRange 0 Samples.strictParse (dateOf 2026 1 1) = Some w
    /\ Weekly.aggregate 0 Samples.strictParse w rows = Some data
    /\ sumZ (map Weekly.dayCount (Weekly.daySorted data))
       = countRows (inDays week) rows
    /\ ((forall r, In r rows -> inDays week r = true) ->
        sumZ (map Weekly.dayCount (Weekly.daySorted data))
        = Weekly.totalDictations data).
Proof.
  exact (week_day_counts_add_up 0 Samples.strictParse 2026 1 1
           (Samples.between Samples.newYearStore "2025-12-29" "2026-01-04")
           ltac:(vm_compute; split; congruence)
           ltac:(lia) ltac:(lia) ltac:(vm_compute; split; congruence)
           ltac:(intros r [<- | []]; reflexivity)).
Defined.

(** The day counts of a month add up to the rows of its dates.  For the
    reference [YYYY-MM] of a month of the years 1000 to 9999, every offset
    of at most 24 hours either way and all rows whose day keys are not
    inherited names: the counts of the day entries add up to the number of
    rows whose day key is a date of that calendar month, and so to
    [totalDictations] when every row lies within the month. *)
Theorem month_day_counts_add_up :
  forall (tza : Z) (implParse : string -> option Z) (y m : Z)
         (rows : list Row),
    Z.abs tza <= 24 * msPerHour -> 1000 <= y <= 9999 -> 1 <= m <= 12 ->
    (forall r, In r rows -> plainDay r = true) ->
    exists mr data,
      Monthly.getMonthRange tza (yearMonthOf y m) = Some mr
      /\ Monthly.aggregate tza implParse mr rows = Some data
      /\ sumZ (map Monthly.dayCount (Monthly.allDays data))
         = countRows (inDays (monthDates y m)) rows
      /\ ((forall r, In r rows -> inDays (monthDates y m) r = true) ->
          sumZ (map Monthly.dayCount (Monthly.allDays data))
          = Monthly.totalDictations data).
Proof.
  intros tza implParse y m rows Hz Hy Hm Hp.
  destruct (dayMap_plain rows Hp) as [dm Hdm].
  eexists. eexists.
  split; [apply getMonthRange_any_zone; auto; lia|].
  unfold Monthly.aggregate. rewrite Hdm.
  split; [reflexivity|]. cbn [Monthly.allDays Monthly.totalDictations].
  rewrite fillDays_of_month by auto.
  assert (Hsum :
    sumZ (map Monthly.dayCount
            (map (fun d =>
               Monthly.mkDayEntry (dateOf y m (Z.of_nat d))
                 (Some (WeekDay (MakeDay y (m - 1) (Z.of_nat d)))) (Z.of_nat d)
                 (dcount (dayOrEmpty dm (dateOf y m (Z.of_nat d))))
                 (dwords (dayOrEmpty dm (dateOf y m (Z.of_nat d))))
                 (Z.of_nat (List.length
                    (dapps (dayOrEmpty dm (dateOf y m (Z.of_nat d)))))))
               (seq 1 (Z.to_nat (lengthOf y m)))))
    = countRows (inDays (monthDates y m)) rows).
  { rewrite <- (day_counts_add_up _ rows
                  (month_dates_NoDup y m ltac:(lia) Hm)).
    unfold monthDates. rewrite !map_map. f_equal.
    apply map_ext_in. intros d Hd. apply in_seq in Hd.
    cbn [Monthly.dayCount].
    change (dcount (dayOrEmpty dm ?k)) with (dayCountAt dm k).
    apply dayMap_dayCountAt; auto.
    apply inherited_length, dateOf_length; lia. }
  split; [exact Hsum|].
  intros Hall. rewrite Hsum. unfold countRows, totalDictations.
  f_equal. f_equal. apply forallb_filter_id. apply forallb_forall. exact Hall.
Qed.

(** February 2024 one hour east of UTC with the rows of [leapStore], one
    of which lies in January. *)
Lemma month_day_counts_witness :
  exists mr data,
    Monthly.getMonthRange (Samples.hours 1) (yearMonthOf 2024 2) = Some mr
    /\ Monthly.aggregate (Samples.hours 1) Samples.strictParse mr
         Samples.leapStore = Some data
    /\ sumZ (map Monthly.dayCount (Monthly.allDays data))
       = countRows (inDays (monthDates 2024 2)) Samples.leapStore
    /\ ((forall r, In r Samples.leapStore ->
           inDays (monthDates 2024 2) r = true) ->
        sumZ (map Monthly.dayCount (Monthly.allDays data))
        = Monthly.totalDictations data).
Proof.
  exact (month_day_counts_add_up (Samples.hours 1) Samples.strictParse
           2024 2 Samples.leapStore
           ltac:(vm_compute; congruence) ltac:(lia) ltac:(lia)
           ltac:(intros r [<- | [<- | []]]; reflexivity)).
Defined.
End DaySums.

(* ================================================================== *)
(** ** The hourly heatmap *)
(* ================================================================== *)

Module Heatmap.
Import JS Date Recap Spec Terms Helpers JSFacts RecapFacts DateFacts Totals.

Section Cells.
Variable tza : Z.
Variable implParse : string -> option Z.

Lemma hourOf_range r h :
  hourOf tza implParse r = Some h -> 0 <= h < 24.
Proof.
  unfold hourOf. destruct (Date_parse tza implParse (timestamp r)) as [t|];
    [|discriminate].
  cbn [option_map]. intros [= <-]. apply getHours_range.
Qed.

(** A row is at exactly one of the hours 6 to 23, or at none of them. *)
Lemma cells_of_a_row r :
  sumZ (map (fun h => if atHour tza implParse (Z.of_nat h) r then 1 else 0)
          (seq 6 18))
  = if fromHour tza implParse 6 r then 1 else 0.
Proof.
  unfold atHour, fromHour.
  destruct (hourOf tza implParse r) as [h|] eqn:E; [|reflexivity].
  apply hourOf_range in E.
  assert (Hc : h = 0 \/ h = 1 \/ h = 2 \/ h = 3 \/ h = 4 \/ h = 5 \/ h = 6
               \/ h = 7 \/ h = 8 \/ h = 9 \/ h = 10 \/ h = 11 \/ h = 12
               \/ h = 13 \/ h = 14 \/ h = 15 \/ h = 16 \/ h = 17 \/ h = 18
               \/ h = 19 \/ h = 20 \/ h = 21 \/ h = 22 \/ h = 23) by lia.
  repeat destruct Hc as [-> | Hc]; try subst h; reflexivity.
Qed.

Lemma cell_count rows h :
  match getOwn (hourMapOf tza implParse rows)
          (String_of_N (N.of_nat h)) with
  | Some c => if c =? 0 then 0 else c
  | None => 0
  end = countRows (atHour tza implParse (Z.of_nat h)) rows.
Proof.
  rewrite <- hourMap_at_hour by lia.
  replace (Z.to_N (Z.of_nat h)) with (N.of_nat h) by lia.
  unfold valueAt.
  destruct (getOwn _ _) as [c|]; auto. destruct (c =? 0) eqn:E; auto.
  apply Z.eqb_eq in E. now subst.
Qed.

Lemma heatmapCells_counts rows :
  heatmapCells (hourMapOf tza implParse rows)
  = map (fun h => (Z.of_nat h,
                   countRows (atHour tza implParse (Z.of_nat h)) rows))
      (seq 6 18).
Proof.
  unfold heatmapCells. apply map_ext. intros h. f_equal. apply cell_count.
Qed.
End Cells.

(** The hourly heatmap of the weekly and the monthly page has eighteen
    cells, for the hours 6 to 23 in order.  Each cell holds the number of
    rows stamped at its hour; together they account for the rows stamped
    at 6 o'clock or later, so a row stamped before 6, or with an invalid
    timestamp, is in no cell. *)
Theorem heatmap_covers_hours_6_to_23 :
  forall (tza : Z) (implParse : string -> option Z) (rows : list Row),
    map fst (heatmapCells (hourMapOf tza implParse rows))
    = [6; 7; 8; 9; 10; 11; 12; 13; 14; 15; 16; 17; 18; 19; 20; 21; 22; 23]
    /\ (forall h c, In (h, c) (heatmapCells (hourMapOf tza implParse rows)) ->
          c = countRows (atHour tza implParse h) rows)
    /\ sumZ (map snd (heatmapCells (hourMapOf tza implParse rows)))
       = countRows (fromHour tza implParse 6) rows
    /\ sumZ (map snd (heatmapCells (hourMapOf tza implParse rows)))
       + countRows (fun r => negb (fromHour tza implParse 6 r)) rows
       = totalDictations rows.
Proof.
  intros tza implParse rows. rewrite heatmapCells_counts.
  assert (Hs : sumZ (map snd
                 (map (fun h => (Z.of_nat h,
                         countRows (atHour tza implParse (Z.of_nat h)) rows))
                    (seq 6 18)))
               = countRows (fromHour tza implParse 6) rows).
  { rewrite map_map. cbn [snd].
    apply (sum_of_counts (fun h => atHour tza implParse (Z.of_nat h))).
    apply cells_of_a_row. }
  split; [reflexivity|]. split; [|split].
  - intros h c Hin. apply in_map_iff in Hin.
    destruct Hin as (n & [= <- <-] & _). reflexivity.
  - exact Hs.
  - rewrite Hs. apply countRows_negb.
Qed.
End Heatmap.

(* ================================================================== *)
(** ** The busiest day and the number of applications *)
(* ================================================================== *)

Module OverviewFacts.
Import JS Date Recap Spec Terms Overview JSFacts RecapFacts.

Section Busiest.
Context {E : Type} (count : E -> Z).

Lemma fold_busier (l : list E) :
  forall b,
    let r := fold_left (busier count) l b in
    (r = b /\ forall e, In e l -> count e <= count b)
    \/ (exists l1 l2,
          l = (l1 ++ r :: l2)%list /\ count b < count r
          /\ (forall e, In e l1 -> count e < count r)
          /\ (forall e, In e l2 -> count e <= count r)).
Proof.
  induction l as [|x l IH]; intros b; cbn [fold_left].
  - left. split; auto. intros e [].
  - cbv zeta. specialize (IH (busier count b x)). cbv zeta in IH.
    assert (Hb : busier count b x = x /\ count b < count x
                 \/ busier count b x = b /\ count x <= count b).
    { unfold busier. destruct (count b <? count x) eqn:C;
        [left; apply Z.ltb_lt in C | right; apply Z.ltb_ge in C]; auto. }
    set (r := fold_left (busier count) l (busier count b x)) in *.
    destruct Hb as [(Hb & C) | (Hb & C)]; rewrite Hb in IH;
      destruct IH as [(Hr & Hall) | (l1 & l2 & Hl & Hlt & H1 & H2)].
    + right. exists [], l. rewrite Hr. repeat split; auto. intros e [].
    + right. exists (x :: l1), l2. rewrite Hl at 1.
      repeat split; auto; try lia. intros e [<- | He]; auto.
    + left. split; auto. intros e [<- | He]; auto.
    + right. exists (x :: l1), l2. rewrite Hl at 1. repeat split; auto.
      intros e [<- | He]; auto. lia.
Qed.
End Busiest.

(** The busiest day is the first of the days with the greatest count.
    For the day entries of either script, when there is at least one: the
    busiest day is one of the entries, every entry before it has a smaller
    count and no entry after it has a greater one. *)
Theorem busiest_day_is_first_maximum :
  forall (E : Type) (count : E -> Z) (days : list E),
    days <> [] ->
    exists before d after,
      busiestDay count days = Some d
      /\ days = (before ++ d :: after)%list
      /\ (forall e, In e before -> count e < count d)
      /\ (forall e, In e after -> count e <= count d).
Proof.
  intros E count days Hne. destruct days as [|first rest]; [congruence|].
  unfold busiestDay.
  destruct (fold_busier count (first :: rest) first)
    as [(Hr & Hall) | (l1 & l2 & Hl & _ & H1 & H2)].
  - exists [], first, rest. rewrite Hr. repeat split; auto.
    + intros e [].
    + intros e He. apply Hall. now right.
  - exists l1, (fold_left (busier count) (first :: rest) first), l2.
    repeat split; auto.
Qed.

(** A week with two days of three dictations: the earlier one is the
    busiest. *)
Lemma busiest_day_witness :
  exists before d after,
    busiestDay Weekly.dayCount
      [ Weekly.mkDayEntry "2025-12-29" "Mon" 1 10 1;
        Weekly.mkDayEntry "2025-12-30" "Tue" 3 30 2;
        Weekly.mkDayEntry "2025-12-31" "Wed" 0 0 0;
        Weekly.mkDayEntry "2026-01-01" "Thu" 3 45 1 ] = Some d
    /\ [ Weekly.mkDayEntry "2025-12-29" "Mon" 1 10 1;
         Weekly.mkDayEntry "2025-12-30" "Tue" 3 30 2;
         Weekly.mkDayEntry "2025-12-31" "Wed" 0 0 0;
         Weekly.mkDayEntry "2026-01-01" "Thu" 3 45 1 ]
       = (before ++ d :: after)%list
    /\ (forall e, In e before -> Weekly.dayCount e < Weekly.dayCount d)
    /\ (forall e, In e after -> Weekly.dayCount e <= Weekly.dayCount d).
Proof.
  apply (busiest_day_is_first_maximum Weekly.DayEntry Weekly.dayCount).
  discriminate.
Defined.

(** *** Distinct applications *)

Lemma setAdd_spec s x :
  NoDup s -> NoDup (setAdd s x) /\ (forall a, In a (setAdd s x) <-> In a s \/ a = x).
Proof.
  intros Hs. unfold setAdd. destruct (mem x s) eqn:M.
  - split; auto. intros a. split; auto. intros [H | ->]; auto.
    now apply mem_In.
  - apply mem_false in M. split.
    + apply NoDup_app; auto.
      * constructor; [intros []|constructor].
      * intros a Ha [<- | []]. contradiction.
    + intros a. rewrite in_app_iff. cbn [In]. intuition.
Qed.

Lemma fold_setAdd l :
  forall s, NoDup s ->
    NoDup (fold_left setAdd l s)
    /\ (forall a, In a (fold_left setAdd l s) <-> In a s \/ In a l).
Proof.
  induction l as [|x l IH]; intros s Hs; cbn [fold_left].
  - split; auto. intros a. cbn [In]. intuition.
  - destruct (setAdd_spec s x Hs) as (Hn & Hi).
    destruct (IH (setAdd s x) Hn) as (Hn' & Hi').
    split; auto. intros a. rewrite Hi', Hi. cbn [In]. intuition.
Qed.

Lemma truthyApps_In rows a :
  In a (truthyApps rows)
  <-> a <> "" /\ exists r, In r rows /\ app r = Some a.
Proof.
  unfold truthyApps. rewrite in_flat_map. split.
  - intros (r & Hr & Ha). destruct (app r) as [b|] eqn:Eb; [|destruct Ha].
    destruct (String.eqb b "") eqn:E; [destruct Ha|].
    destruct Ha as [<- | []]. apply String.eqb_neq in E. split; auto.
    exists r. auto.
  - intros (Hne & r & Hr & Ha). exists r. split; auto. rewrite Ha.
    apply String.eqb_neq in Hne. rewrite Hne. now left.
Qed.

Lemma truthyApps_length rows :
  (List.length (truthyApps rows) <= List.length rows)%nat.
Proof.
  unfold truthyApps. induction rows as [|r rows IH]; cbn [flat_map]; auto.
  rewrite length_app. cbn [List.length].
  destruct (app r) as [a|]; [destruct (String.eqb a "")|];
    cbn [List.length]; lia.
Qed.

(** The name of a row is that of its identifier, or [Unknown]. *)
Lemma resolvedName_cases r :
  resolvedName r = "Unknown"
  \/ exists a, a <> "" /\ app r = Some a
               /\ resolvedName r = toPropertyKey (friendlyAppName a).
Proof.
  unfold resolvedName, appOrUnknown. destruct (app r) as [a|]; [|now left].
  destruct (String.eqb a "") eqn:E; [now left|].
  right. exists a. apply String.eqb_neq in E. auto.
Qed.

(** [uniqueApps] counts identifiers, the breakdown counts names.
    [uniqueApps] is the number of distinct non-empty application
    identifiers among the rows, at most [totalDictations]; the breakdown
    has at most one bucket more than that (the one named [Unknown] for the
    rows without an identifier). *)
Theorem unique_apps_counts_distinct_identifiers :
  forall rows : list Row,
    exists ids : list string,
      NoDup ids
      /\ (forall a, In a ids
                    <-> a <> "" /\ exists r, In r rows /\ app r = Some a)
      /\ uniqueApps rows = Z.of_nat (List.length ids)
      /\ uniqueApps rows <= totalDictations rows
      /\ Z.of_nat (List.length (appsSorted rows)) <= uniqueApps rows + 1.
Proof.
  intros rows. exists (newSet (truthyApps rows)).
  destruct (fold_setAdd (truthyApps rows) [] (NoDup_nil _)) as (Hn & Hi).
  fold (newSet (truthyApps rows)) in Hn, Hi.
  assert (Hin : forall a, In a (newSet (truthyApps rows))
                          <-> a <> "" /\ exists r, In r rows /\ app r = Some a).
  { intros a. rewrite Hi, <- truthyApps_In. cbn [In]. intuition. }
  split; auto. split; auto. split; [reflexivity|]. split.
  - unfold uniqueApps, totalDictations.
    pose proof (truthyApps_length rows) as Hl.
    assert (Hle : (List.length (newSet (truthyApps rows))
                   <= List.length (truthyApps rows))%nat).
    { apply NoDup_incl_length; auto. intros a Ha. apply Hi in Ha.
      destruct Ha as [[] | Ha]; auto. }
    lia.
  - unfold uniqueApps.
    assert (Hk : (List.length (map fst (appMapOf rows))
                  <= List.length
                       ("Unknown"
                        :: map (fun a => toPropertyKey (friendlyAppName a))
                             (newSet (truthyApps rows))))%nat).
    { apply NoDup_incl_length; [apply appMap_keys_NoDup|].
      intros k Hk. apply appMap_keys_In in Hk. destruct Hk as (_ & Hk).
      apply in_map_iff in Hk. destruct Hk as (r & <- & Hr).
      destruct (resolvedName_cases r) as [-> | (a & Hne & Ha & ->)];
        [now left|].
      right. apply in_map_iff. exists a. split; auto.
      apply Hin. split; auto. exists r. auto. }
    cbn [List.length] in Hk. rewrite !length_map in Hk.
    rewrite (Permutation_length (Totals.appsSorted_permutation rows)).
    lia.
Qed.
End OverviewFacts.

(* ================================================================== *)
(** ** The helpers of the renderers *)
(* ================================================================== *)

Module HelperFacts.
Import JS Date Recap Spec Terms Helpers JSFacts.

(** *** Texts *)

Lemma length_append (a b : string) :
  String.length (a ++ b) = (String.length a + String.length b)%nat.
Proof.
  induction a as [|c a IH]; cbn [append String.length Nat.add]; auto.
Qed.

Lemma length_slice0 n s : (String.length (slice0 n s) <= n)%nat.
Proof.
  unfold slice0. revert s.
  induction n as [|n IH]; intros [|c s]; cbn [substring String.length];
    try lia.
  specialize (IH s). lia.
Qed.

Lemma append_assoc (a b c : string) : ((a ++ b) ++ c = a ++ (b ++ c))%string.
Proof. induction a as [|x a IH]; cbn [append]; auto. now rewrite IH. Qed.

Lemma occurs_append c a b : occurs c (a ++ b) = occurs c a || occurs c b.
Proof.
  induction a as [|x a IH]; cbn [append occurs]; auto.
  now rewrite IH, orb_assoc.
Qed.

Lemma eachChar_append f a b :
  eachChar f (a ++ b) = eachChar f a ++ eachChar f b.
Proof.
  induction a as [|x a IH]; cbn [append eachChar]; auto.
  rewrite IH. now rewrite append_assoc.
Qed.

Lemma replaceAll_eachChar c t s :
  replaceAll c t s
  = eachChar (fun x => if Ascii.eqb x c then t else String x EmptyString) s.
Proof.
  induction s as [|x s IH]; cbn [replaceAll eachChar]; auto.
  rewrite IH. destruct (Ascii.eqb x c); reflexivity.
Qed.

Lemma replaceAll_append c t a b :
  replaceAll c t (a ++ b) = replaceAll c t a ++ replaceAll c t b.
Proof. rewrite !replaceAll_eachChar. apply eachChar_append. Qed.

(** *** [escapeHTML] *)

Lemma entity_cases c :
  (special c = false /\ entity c = String c EmptyString)
  \/ (c = "&"%char /\ entity c = "&amp;")
  \/ (c = "<"%char /\ entity c = "&lt;")
  \/ (c = ">"%char /\ entity c = "&gt;")
  \/ (c = quote /\ entity c = "&quot;").
Proof.
  unfold special, entity.
  destruct (Ascii.eqb c "&") eqn:E1;
    [apply Ascii.eqb_eq in E1; subst; auto|].
  destruct (Ascii.eqb c "<") eqn:E2;
    [apply Ascii.eqb_eq in E2; subst; auto 6|].
  destruct (Ascii.eqb c ">") eqn:E3;
    [apply Ascii.eqb_eq in E3; subst; auto 6|].
  destruct (Ascii.eqb c quote) eqn:E4;
    [apply Ascii.eqb_eq in E4; subst; auto 8|].
  auto.
Qed.

(** The four replacements, one after the other, come to replacing each
    character of the text by its entity. *)
Lemma escapeHTML_eachChar s : escapeHTML s = eachChar entity s.
Proof.
  induction s as [|c s IH]; [reflexivity|].
  cbn [eachChar]. rewrite <- IH. unfold escapeHTML.
  cbn [replaceAll]. unfold entity.
  destruct (Ascii.eqb c "&") eqn:E1.
  { rewrite !replaceAll_append. reflexivity. }
  cbn [replaceAll]. destruct (Ascii.eqb c "<") eqn:E2.
  { rewrite !replaceAll_append. reflexivity. }
  cbn [replaceAll]. destruct (Ascii.eqb c ">") eqn:E3.
  { rewrite !replaceAll_append. reflexivity. }
  cbn [replaceAll]. destruct (Ascii.eqb c quote) eqn:E4; reflexivity.
Qed.

Lemma entity_plain c x :
  special x = true -> x <> "&"%char -> occurs x (entity c) = false.
Proof.
  intros Hx Hamp.
  destruct (entity_cases c) as [(Hs & ->) | [(-> & ->) | [(-> & ->) |
                                [(-> & ->) | (-> & ->)]]]].
  - cbn [occurs]. rewrite orb_false_r. apply Ascii.eqb_neq. intros ->.
    congruence.
  - unfold special in Hx.
    destruct (Ascii.eqb x "&") eqn:E1;
      [apply Ascii.eqb_eq in E1; congruence|].
    destruct (Ascii.eqb x "<") eqn:E2;
      [apply Ascii.eqb_eq in E2; subst; reflexivity|].
    destruct (Ascii.eqb x ">") eqn:E3;
      [apply Ascii.eqb_eq in E3; subst; reflexivity|].
    destruct (Ascii.eqb x quote) eqn:E4;
      [apply Ascii.eqb_eq in E4; subst; reflexivity|discriminate].
  - unfold special in Hx.
    destruct (Ascii.eqb x "&") eqn:E1;
      [apply Ascii.eqb_eq in E1; congruence|].
    destruct (Ascii.eqb x "<") eqn:E2;
      [apply Ascii.eqb_eq in E2; subst; reflexivity|].
    destruct (Ascii.eqb x ">") eqn:E3;
      [apply Ascii.eqb_eq in E3; subst; reflexivity|].
    destruct (Ascii.eqb x quote) eqn:E4;
      [apply Ascii.eqb_eq in E4; subst; reflexivity|discriminate].
  - unfold special in Hx.
    destruct (Ascii.eqb x "&") eqn:E1;
      [apply Ascii.eqb_eq in E1; congruence|].
    destruct (Ascii.eqb x "<") eqn:E2;
      [apply Ascii.eqb_eq in E2; subst; reflexivity|].
    destruct (Ascii.eqb x ">") eqn:E3;
      [apply Ascii.eqb_eq in E3; subst; reflexivity|].
    destruct (Ascii.eqb x quote) eqn:E4;
      [apply Ascii.eqb_eq in E4; subst; reflexivity|discriminate].
  - unfold special in Hx.
    destruct (Ascii.eqb x "&") eqn:E1;
      [apply Ascii.eqb_eq in E1; congruence|].
    destruct (Ascii.eqb x "<") eqn:E2;
      [apply Ascii.eqb_eq in E2; subst; reflexivity|].
    destruct (Ascii.eqb x ">") eqn:E3;
      [apply Ascii.eqb_eq in E3; subst; reflexivity|].
    destruct (Ascii.eqb x quote) eqn:E4;
      [apply Ascii.eqb_eq in E4; subst; reflexivity|discriminate].
Qed.

Lemma eachChar_entity_plain s x :
  special x = true -> x <> "&"%char -> occurs x (eachChar entity s) = false.
Proof.
  intros Hx Hamp. induction s as [|c s IH]; [reflexivity|].
  cbn [eachChar]. now rewrite occurs_append, IH, entity_plain.
Qed.

Lemma eachChar_entity_inj s1 :
  forall s2, eachChar entity s1 = eachChar entity s2 -> s1 = s2.
Proof.
  induction s1 as [|c1 s1 IH]; intros [|c2 s2]; cbn [eachChar]; intros H.
  - reflexivity.
  - destruct (entity_cases c2) as [(_ & E) | [(_ & E) | [(_ & E) |
                                  [(_ & E) | (_ & E)]]]];
      rewrite E in H; discriminate H.
  - destruct (entity_cases c1) as [(_ & E) | [(_ & E) | [(_ & E) |
                                  [(_ & E) | (_ & E)]]]];
      rewrite E in H; discriminate H.
  - destruct (entity_cases c1) as [(S1 & E1) | [(-> & E1) | [(-> & E1) |
                                  [(-> & E1) | (-> & E1)]]]];
      destruct (entity_cases c2) as [(S2 & E2) | [(-> & E2) | [(-> & E2) |
                                    [(-> & E2) | (-> & E2)]]]];
      rewrite ?E1, ?E2 in H; cbn [append] in H;
      try (injection H as H; f_equal; now apply IH);
      try discriminate H;
      try (injection H as -> _; discriminate S1);
      try (injection H as <- _; discriminate S2).
    injection H as -> H. f_equal. now apply IH.
Qed.

(** [escapeHTML] replaces every character by its entity in one pass, so
    the ampersand of an entity it has written is not escaped again.  Its
    result contains no [<], no [>] and no double quote, and two different
    texts have different results. *)
Theorem escapeHTML_is_one_pass_and_injective :
  forall s : string,
    escapeHTML s = eachChar entity s
    /\ occurs "<" (escapeHTML s) = false
    /\ occurs ">" (escapeHTML s) = false
    /\ occurs quote (escapeHTML s) = false
    /\ (forall s', escapeHTML s = escapeHTML s' -> s = s').
Proof.
  intros s. split; [apply escapeHTML_eachChar|].
  rewrite escapeHTML_eachChar.
  repeat split; try (apply eachChar_entity_plain; [reflexivity|discriminate]).
  intros s'. rewrite escapeHTML_eachChar. apply eachChar_entity_inj.
Qed.

(** *** [truncate] *)

Lemma trimStart_occurs c s : occurs c s = false -> occurs c (trimStart s) = false.
Proof.
  induction s as [|x s IH]; cbn [trimStart occurs]; auto.
  intros H. destruct (isWhiteSpace x); auto.
  apply IH. now apply orb_false_iff in H.
Qed.

Lemma trimEnd_occurs c s : occurs c s = false -> occurs c (trimEnd s) = false.
Proof.
  induction s as [|x s IH]; cbn [trimEnd occurs]; auto.
  intros H. apply orb_false_iff in H. destruct H as [Hx Hs].
  specialize (IH Hs). destruct (trimEnd s) as [|y k].
  - destruct (isWhiteSpace x); cbn [occurs]; auto. now rewrite Hx.
  - cbn [occurs] in *. now rewrite Hx, IH.
Qed.

Lemma slice0_occurs c n s : occurs c s = false -> occurs c (slice0 n s) = false.
Proof.
  unfold slice0. revert s.
  induction n as [|n IH]; intros [|x s]; cbn [substring occurs]; auto.
  intros H. apply orb_false_iff in H. destruct H as [Hx Hs].
  now rewrite Hx, IH.
Qed.

Lemma replaceAll_occurs c t s :
  occurs c t = false -> occurs c (replaceAll c t s) = false.
Proof.
  intros Ht. induction s as [|x s IH]; cbn [replaceAll occurs]; auto.
  destruct (Ascii.eqb x c) eqn:E.
  - now rewrite occurs_append, Ht, IH.
  - cbn [occurs]. now rewrite E, IH.
Qed.

(** What [truncate] returns is never longer than [len] characters and
    the three dots, and contains no line feed. *)
Theorem truncate_is_short_and_on_one_line :
  forall (str : string) (len : nat),
    (String.length (truncate str len) <= len + 3)%nat
    /\ occurs lineFeed (truncate str len) = false.
Proof.
  intros str len. unfold truncate.
  destruct (String.eqb str ""); [split; [cbn; lia|reflexivity]|].
  set (clean := trim (replaceAll lineFeed " " str)).
  assert (Hc : occurs lineFeed clean = false).
  { unfold clean, trim. apply trimEnd_occurs, trimStart_occurs.
    apply replaceAll_occurs. reflexivity. }
  destruct (len <? String.length clean)%nat eqn:E.
  - split.
    + rewrite length_append. pose proof (length_slice0 len clean).
      cbn [String.length]. lia.
    + rewrite occurs_append, slice0_occurs by auto. reflexivity.
  - apply Nat.ltb_ge in E. split; [lia|exact Hc].
Qed.

(** *** [formatHour] *)

Lemma formatHour_table :
  forallb (fun i =>
    String.eqb (formatHour (Some (Z.of_nat i)))
      (String_of_Z ((Z.of_nat i + 11) mod 12 + 1)
       ++ (if Z.of_nat i <? 12 then " AM" else " PM"))
    && match parseInt (String_of_N (N.of_nat i)) with
       | Some v => v =? Z.of_nat i
       | None => false
       end
    && negb (String.eqb (formatHour (Some (Z.of_nat i))) "NaN PM")
    && forallb (fun j =>
         implb (String.eqb (formatHour (Some (Z.of_nat i)))
                  (formatHour (Some (Z.of_nat j))))
               (Nat.eqb i j)) (seq 0 24)) (seq 0 24) = true.
Proof. vm_compute. reflexivity. Qed.

Lemma formatHour_facts h :
  0 <= h < 24 ->
  formatHour (Some h)
  = String_of_Z ((h + 11) mod 12 + 1) ++ (if h <? 12 then " AM" else " PM")
  /\ parseInt (String_of_N (Z.to_N h)) = Some h
  /\ formatHour (Some h) <> "NaN PM"
  /\ (forall h', 0 <= h' < 24 ->
        formatHour (Some h) = formatHour (Some h') -> h = h').
Proof.
  intros Hh. pose proof formatHour_table as T.
  rewrite forallb_forall in T. specialize (T (Z.to_nat h)).
  rewrite Z2Nat.id in T by lia.
  replace (N.of_nat (Z.to_nat h)) with (Z.to_N h) in T by lia.
  specialize (T ltac:(apply in_seq; lia)).
  apply andb_true_iff in T. destruct T as (T & T4).
  apply andb_true_iff in T. destruct T as (T & T3).
  apply andb_true_iff in T. destruct T as (T1 & T2).
  split; [now apply String.eqb_eq|]. split; [|split].
  - destruct (parseInt _) as [v|]; [|discriminate].
    apply Z.eqb_eq in T2. now subst.
  - apply negb_true_iff, String.eqb_neq in T3. exact T3.
  - intros h' Hh' E. rewrite forallb_forall in T4.
    specialize (T4 (Z.to_nat h') ltac:(apply in_seq; lia)).
    rewrite Z2Nat.id in T4 by lia. rewrite E, String.eqb_refl in T4.
    cbn [implb] in T4. apply Nat.eqb_eq in T4. lia.
Qed.

(** [formatHour] on the hours of a day.  For every hour from 0 to 23 the
    label is the hour on the twelve-hour clock (12, 1, ..., 11) followed
    by AM before noon and PM from noon on; the 24 labels are all
    different; and [parseInt] reads the key of the hour in [hourMap] back
    as the hour. *)
Theorem formatHour_labels_the_24_hours :
  forall h : Z,
    0 <= h < 24 ->
    formatHour (Some h)
    = String_of_Z ((h + 11) mod 12 + 1) ++ (if h <? 12 then " AM" else " PM")
    /\ parseInt (String_of_N (Z.to_N h)) = Some h
    /\ (forall h', 0 <= h' < 24 ->
          formatHour (Some h) = formatHour (Some h') -> h = h').
Proof.
  intros h Hh. destruct (formatHour_facts h Hh) as (H1 & H2 & _ & H4).
  auto.
Qed.

(** Midnight, noon and 11 in the evening. *)
Lemma formatHour_witness :
  formatHour (Some 0) = "12 AM"
  /\ formatHour (Some 12) = "12 PM"
  /\ formatHour (Some 23) = "11 PM".
Proof.
  split; [|split].
  - exact (proj1 (formatHour_labels_the_24_hours 0 ltac:(lia))).
  - exact (proj1 (formatHour_labels_the_24_hours 12 ltac:(lia))).
  - exact (proj1 (formatHour_labels_the_24_hours 23 ltac:(lia))).
Defined.

(** *** [friendlyAppName] *)

Lemma split_last sep s :
  exists hd tl,
    split sep s = hd :: tl
    /\ occurs sep (last (hd :: tl) "") = false
    /\ ((tl = [] /\ hd = s)
        \/ (tl <> [] /\ exists p, s = p ++ String sep (last (hd :: tl) ""))).
Proof.
  induction s as [|c s (hd & tl & Hs & Ho & Hc)].
  - exists "", []. repeat split. now left.
  - cbn [split]. rewrite Hs. destruct (Ascii.eqb c sep) eqn:E.
    + apply Ascii.eqb_eq in E. subst c.
      exists "", (hd :: tl). split; [reflexivity|].
      change (last ("" :: hd :: tl) "") with (last (hd :: tl) "").
      split; [exact Ho|]. right. split; [discriminate|].
      destruct Hc as [(-> & ->) | (_ & p & ->)].
      * exists "". reflexivity.
      * exists (String sep p). reflexivity.
    + exists (String c hd), tl. split; [reflexivity|].
      destruct Hc as [(-> & ->) | (Hne & p & Hp)].
      * cbn [last occurs] in *. rewrite E, Ho. split; auto.
      * destruct tl as [|t tl]; [congruence|].
        change (last (String c hd :: t :: tl) "") with (last (t :: tl) "").
        change (last (hd :: t :: tl) "") with (last (t :: tl) "") in *.
        split; [exact Ho|]. right. split; [discriminate|].
        exists (String c p). rewrite Hp at 1. reflexivity.
Qed.

Lemma replace_hyphens_occurs s : occurs "-" (replace_hyphens s) = false.
Proof.
  induction s as [|c s IH]; cbn [replace_hyphens occurs]; auto.
  rewrite IH, orb_false_r. destruct (Ascii.eqb c "-") eqn:E; auto.
Qed.

Lemma replace_hyphens_keeps c s :
  c <> " "%char -> occurs c s = false -> occurs c (replace_hyphens s) = false.
Proof.
  intros Hc. induction s as [|x s IH]; cbn [replace_hyphens occurs]; auto.
  intros H. apply orb_false_iff in H. destruct H as [Hx Hs].
  rewrite (IH Hs), orb_false_r. destruct (Ascii.eqb x "-"); auto.
  apply Ascii.eqb_neq. congruence.
Qed.

(** The name of an application that is not in the table.  For an
    identifier that is not empty, not one of the 23 of the table and not
    the name of a member of [Object.prototype], the name is what follows
    the last dot of the identifier (the whole identifier when it has no
    dot) with every hyphen replaced by a blank: it contains neither a dot
    nor a hyphen. *)
Theorem unlisted_app_is_named_after_its_last_segment :
  forall id : string,
    id <> "" -> getOwn appNames id = None -> inherited id = false ->
    exists tail,
      friendlyAppName id = Str (replace_hyphens tail)
      /\ occurs "." tail = false
      /\ (id = tail \/ exists p, id = p ++ String "." tail)
      /\ occurs "." (replace_hyphens tail) = false
      /\ occurs "-" (replace_hyphens tail) = false.
Proof.
  intros id Hne Hn Hi. unfold friendlyAppName.
  apply String.eqb_neq in Hne. rewrite Hne, Hn, Hi.
  destruct (split_last "." id) as (hd & tl & Hs & Ho & Hc).
  rewrite Hs. exists (last (hd :: tl) ""). split; [reflexivity|].
  split; [exact Ho|]. split.
  - destruct Hc as [(-> & ->) | (_ & p & Hp)]; [now left|right; eauto].
  - split; [apply replace_hyphens_keeps; [discriminate|exact Ho]
           |apply replace_hyphens_occurs].
Qed.

(** An identifier outside the table, with a hyphen in its last segment. *)
Lemma unlisted_app_witness :
  exists tail,
    friendlyAppName "com.example.my-app" = Str (replace_hyphens tail)
    /\ occurs "." tail = false
    /\ ("com.example.my-app" = tail
        \/ exists p, "com.example.my-app" = p ++ String "." tail)
    /\ occurs "." (replace_hyphens tail) = false
    /\ occurs "-" (replace_hyphens tail) = false.
Proof.
  apply unlisted_app_is_named_after_its_last_segment;
    [discriminate | reflexivity | reflexivity].
Defined.
End HelperFacts.

(* ================================================================== *)
(** ** The label of the peak hour *)
(* ================================================================== *)

Module PeakLabel.
Import JS Date Recap Spec Terms Helpers JSFacts RecapFacts Totals HelperFacts.

Section Order.
Context {A : Type} (cmp : A -> A -> Z) (key : A -> Z).
Hypothesis cmp_key : forall a b, cmp a b = key b - key a.

(** Sorting a list whose last element is [x]: [x] comes out first exactly
    when every other element has a smaller key. *)
Lemma hd_fold_insert (x : A) (l : list A) :
  (forall a, In a l -> a <> x) ->
  exists y, hd_error (fold_right (insertSorted cmp) [x] l) = Some y
            /\ (y = x <-> forall a, In a l -> key a < key x)
            /\ (y = x \/ In y l).
Proof.
  induction l as [|a l IH]; intros Hne; cbn [fold_right].
  - exists x. split; [reflexivity|]. split; [|now left].
    split; auto. intros _ a [].
  - destruct IH as (y & Hy & Hiff & Hin).
    { intros b Hb. apply Hne. now right. }
    destruct (fold_right (insertSorted cmp) [x] l) as [|z rest];
      [discriminate|].
    cbn [hd_error] in Hy. injection Hy as ->.
    cbn [insertSorted]. rewrite cmp_key.
    destruct (0 <? key y - key a) eqn:C.
    + apply Z.ltb_lt in C. exists y. split; [reflexivity|]. split.
      * split.
        -- intros ->. intros b [<- | Hb]; [lia|]. now apply Hiff.
        -- intros H. apply Hiff. intros b Hb. apply H. now right.
      * destruct Hin; auto. right. now right.
    + apply Z.ltb_ge in C. exists a. split; [reflexivity|]. split.
      * split.
        -- intros ->. exfalso. apply (Hne x); auto. now left.
        -- intros H. exfalso.
           assert (Hyx : y = x).
           { apply Hiff. intros b Hb. apply H. now right. }
           subst y. specialize (H a ltac:(now left)). lia.
      * right. now left.
Qed.

Lemma sort_snoc (x : A) (l : list A) :
  sort cmp (l ++ [x]) = fold_right (insertSorted cmp) [x] l.
Proof. unfold sort. now rewrite fold_right_app. Qed.
End Order.

Section Label.
Variable tza : Z.
Variable implParse : string -> option Z.

Local Abbreviation hm rows := (hourMapOf tza implParse rows).
Local Abbreviation bad rows :=
  (countRows (fun r => negb (parses tza implParse r)) rows).

Lemma hourKey_cases r :
  hourKey tza implParse r = "NaN"
  \/ exists h, 0 <= h < 24
               /\ hourKey tza implParse r = String_of_N (Z.to_N h).
Proof.
  destruct (parses tza implParse r) eqn:P.
  - right. destruct (hourKey_parses tza implParse r P) as (h & _ & Hh & Hk).
    eauto.
  - left. pose proof (Runs.hourKey_NaN tza implParse r) as H.
    rewrite P in H. now apply String.eqb_eq in H.
Qed.

(** An entry of the histogram is the one of [NaN] or that of an hour. *)
Lemma hourMap_entry_cases rows k c :
  In (k, c) (hm rows) ->
  (k = "NaN" /\ c = bad rows /\ 0 < c)
  \/ (exists h, 0 <= h < 24 /\ k = String_of_N (Z.to_N h)
                /\ c = countRows (atHour tza implParse h) rows /\ 0 < c).
Proof.
  intros Hin.
  destruct (hourMap_In_value tza implParse rows k c Hin) as (Hc & Hpos).
  pose proof Hin as Hk. apply (in_map fst) in Hk.
  apply hourMap_keys_In, in_map_iff in Hk. destruct Hk as (r & Hk & _).
  cbn [fst] in Hk.
  destruct (hourKey_cases r) as [E | (h & Hh & E)]; rewrite E in Hk; subst k.
  - left. repeat split; auto. rewrite Hc. apply countRows_ext.
    intros r' _. apply Runs.hourKey_NaN.
  - right. exists h. repeat split; try lia. rewrite Hc.
    apply countRows_ext. intros r' _. apply hourKey_eqb_atHour. lia.
Qed.

Lemma isIndex_hour h : 0 <= h < 24 -> isIndex (String_of_N (Z.to_N h)) = true.
Proof.
  intros Hh. unfold isIndex. rewrite arrayIndex_String_of_N; auto. lia.
Qed.

Lemma NaN_entry rows :
  0 < bad rows -> In ("NaN", bad rows) (hm rows).
Proof.
  intros Hb. apply countRows_pos in Hb. destruct Hb as (r & Hr & Hp).
  assert (Hk : In "NaN" (map fst (hm rows))).
  { apply hourMap_keys_In, in_map_iff. exists r. split; auto.
    apply String.eqb_eq. now rewrite Runs.hourKey_NaN. }
  apply in_map_iff in Hk. destruct Hk as ((k & c) & Hk & Hin).
  cbn [fst] in Hk. subst k.
  destruct (hourMap_entry_cases rows _ _ Hin) as [(_ & -> & _) | (h & _ & E & _)];
    auto.
  symmetry in E. now apply String_of_N_not_NaN in E.
Qed.

(** The entries of the histogram that are not array indices. *)
Lemma not_index_entries rows :
  filter (fun e => negb (isIndex (fst e))) (hm rows)
  = if 0 <? bad rows then [("NaN", bad rows)] else [].
Proof.
  pose proof (hourMap_keys_NoDup tza implParse rows) as Hnd.
  assert (Hall : forall e, In e (filter (fun e => negb (isIndex (fst e)))
                                   (hm rows)) ->
                           e = ("NaN", bad rows) /\ 0 < bad rows).
  { intros (k & c) He. apply filter_In in He. destruct He as (Hin & Hi).
    cbn [fst] in Hi.
    destruct (hourMap_entry_cases rows k c Hin)
      as [(-> & -> & Hp) | (h & Hh & -> & _)]; auto.
    rewrite isIndex_hour in Hi by auto. discriminate. }
  assert (Hnd' : NoDup (filter (fun e => negb (isIndex (fst e))) (hm rows))).
  { apply NoDup_filter. apply (NoDup_map_inv fst). exact Hnd. }
  destruct (0 <? bad rows) eqn:B.
  - apply Z.ltb_lt in B. pose proof (NaN_entry rows B) as Hin.
    assert (Hf : In ("NaN", bad rows)
                   (filter (fun e => negb (isIndex (fst e))) (hm rows))).
    { apply filter_In. split; auto. }
    destruct (filter _ (hm rows)) as [|e1 [|e2 rest]].
    + destruct Hf.
    + destruct (Hall e1 ltac:(now left)) as (-> & _). reflexivity.
    + destruct (Hall e1 ltac:(now left)) as (-> & _).
      destruct (Hall e2 ltac:(right; now left)) as (-> & _).
      inversion Hnd' as [|? ? Hn _]. exfalso. apply Hn. now left.
  - apply Z.ltb_ge in B.
    destruct (filter _ (hm rows)) as [|e1 rest]; auto.
    destruct (Hall e1 ltac:(now left)) as (_ & Hp). lia.
Qed.

Lemma hour_label_not_NaN h :
  0 <= h < 24 ->
  formatHour (parseInt (String_of_N (Z.to_N h))) <> "NaN PM".
Proof.
  intros Hh. destruct (formatHour_facts h Hh) as (_ & -> & Hn & _). exact Hn.
Qed.

(** When the overview names [NaN PM] as the peak hour.  The text printed
    for the peak hour is [NaN PM] exactly when there are rows with an
    invalid timestamp and they outnumber the rows of every single hour of
    the day. *)
Theorem peak_label_is_NaN_when_invalid_rows_outnumber_every_hour :
  forall rows : list Row,
    peakHourText (peakHour tza implParse rows) = "NaN PM"
    <-> 0 < countRows (fun r => negb (parses tza implParse r)) rows
        /\ forall h, 0 <= h < 24 ->
             countRows (atHour tza implParse h) rows
             < countRows (fun r => negb (parses tza implParse r)) rows.
Proof.
  intros rows.
  unfold peakHour, entries. rewrite not_index_entries.
  set (idx := sortIndexed (filter (fun e => isIndex (fst e)) (hm rows))).
  assert (Hidx : forall e, In e idx <-> In e (hm rows) /\ isIndex (fst e) = true).
  { intros e. unfold idx. split.
    - intros He. apply (Permutation_in _ (sortIndexed_perm _)) in He.
      now apply filter_In in He.
    - intros He.
      apply (Permutation_in _ (Permutation_sym (sortIndexed_perm _))).
      now apply filter_In. }
  assert (Hhour : forall k c, In (k, c) idx ->
            exists h, 0 <= h < 24 /\ k = String_of_N (Z.to_N h)
                      /\ c = countRows (atHour tza implParse h) rows).
  { intros k c He. apply Hidx in He. destruct He as (Hin & Hi).
    destruct (hourMap_entry_cases rows k c Hin)
      as [(-> & _) | (h & Hh & -> & -> & _)]; [discriminate|eauto]. }
  destruct (0 <? bad rows) eqn:B.
  - apply Z.ltb_lt in B. rewrite (sort_snoc byValueDesc).
    destruct (hd_fold_insert byValueDesc snd ltac:(reflexivity)
                ("NaN", bad rows) idx) as (y & Hy & Hiff & Hin).
    { intros (k & c) He [= -> ->]. apply Hhour in He.
      destruct He as (h & _ & E & _). symmetry in E.
      now apply String_of_N_not_NaN in E. }
    rewrite Hy. cbn [peakHourText]. split.
    + intros Ht. split; auto.
      assert (Hyx : y = ("NaN", bad rows)).
      { destruct Hin as [-> | Hin]; auto. destruct y as (k & c).
        apply Hhour in Hin. destruct Hin as (h & Hh & -> & _).
        cbn [fst] in Ht. now apply hour_label_not_NaN in Ht. }
      intros h Hh. destruct (Z_le_gt_dec (countRows (atHour tza implParse h) rows) 0)
        as [Hz | Hpos]; [lia|].
      apply Hiff with (a := (String_of_N (Z.to_N h),
                             countRows (atHour tza implParse h) rows)) in Hyx.
      * exact Hyx.
      * apply Hidx. cbn [fst]. split; [|now apply isIndex_hour].
        pose proof (hourMap_at_hour tza implParse rows h ltac:(lia)) as Hv.
        unfold valueAt in Hv.
        destruct (getOwn (hm rows) (String_of_N (Z.to_N h))) as [c|] eqn:G;
          [|lia].
        apply getOwn_In in G. now subst c.
    + intros (_ & Hall).
      assert (Hyx : y = ("NaN", bad rows)).
      { apply Hiff. intros (k & c) He. apply Hhour in He.
        destruct He as (h & Hh & -> & ->). cbn [snd]. now apply Hall. }
      subst y. reflexivity.
  - apply Z.ltb_ge in B. rewrite app_nil_r. split; [|lia].
    intros Ht. exfalso.
    destruct (hd_error (sort byValueDesc idx)) as [(k & c)|] eqn:Hd;
      [|discriminate Ht].
    assert (Hin : In (k, c) idx).
    { apply (sort_In byValueDesc). destruct (sort byValueDesc idx);
        [discriminate|]. injection Hd as <-. now left. }
    apply Hhour in Hin. destruct Hin as (h & Hh & -> & _).
    cbn [peakHourText fst] in Ht. now apply hour_label_not_NaN in Ht.
Qed.
End Label.

End PeakLabel.

(* ================================================================== *)
(** ** The day-of-week and week-by-week views *)
(* ================================================================== *)

Module MonthViewFacts.
Import JS Date Recap Spec Terms Helpers MonthViews JSFacts RecapFacts DayFacts
       DateFacts PeriodFacts MonthFacts MonthPeriod Totals.

(** *** Days of the week *)

Lemma addAt_length i x a : List.length (addAt i x a) = List.length a.
Proof.
  revert i. induction a as [|v a IH]; intros [|i]; cbn [addAt List.length];
    auto.
Qed.

Lemma nth_addAt i x a j :
  (i < List.length a)%nat ->
  nth j (addAt i x a) 0 = nth j a 0 + (if Nat.eqb j i then x else 0).
Proof.
  revert i j. induction a as [|v a IH]; intros i j Hi;
    cbn [List.length] in Hi; [lia|].
  destruct i as [|i], j as [|j]; cbn [addAt nth Nat.eqb]; try lia.
  apply IH. lia.
Qed.

Lemma dowStep_nth a d j :
  List.length a = 7%nat ->
  (forall i, Monthly.dayOfWeek d = Some i -> 0 <= i <= 6) ->
  List.length (dowStep a d) = 7%nat
  /\ nth j (dowStep a d) 0
     = nth j a 0 + (if onWeekday (Z.of_nat j) d then Monthly.dayCount d else 0).
Proof.
  intros Hl Hd. unfold dowStep, onWeekday.
  destruct (Monthly.dayOfWeek d) as [i|]; [|split; auto; lia].
  specialize (Hd i eq_refl). rewrite addAt_length. split; auto.
  rewrite nth_addAt by lia.
  destruct (Nat.eqb j (Z.to_nat i)) eqn:E.
  - apply Nat.eqb_eq in E. replace (i =? Z.of_nat j) with true; auto.
    symmetry. apply Z.eqb_eq. lia.
  - apply Nat.eqb_neq in E. replace (i =? Z.of_nat j) with false; auto.
    symmetry. apply Z.eqb_neq. lia.
Qed.

Lemma dow_fold days :
  forall a j,
    List.length a = 7%nat ->
    (forall e i, In e days -> Monthly.dayOfWeek e = Some i -> 0 <= i <= 6) ->
    List.length (fold_left dowStep days a) = 7%nat
    /\ nth j (fold_left dowStep days a) 0
       = nth j a 0
         + sumZ (map Monthly.dayCount (filter (onWeekday (Z.of_nat j)) days)).
Proof.
  induction days as [|d days IH]; intros a j Hl Hd; cbn [fold_left filter].
  - split; auto. cbn. lia.
  - destruct (dowStep_nth a d j Hl) as (Hl' & Hn).
    { intros i. apply Hd. now left. }
    destruct (IH (dowStep a d) j Hl') as (Hl2 & Hn2).
    { intros e i He. apply Hd. now right. }
    split; auto. rewrite Hn2, Hn.
    destruct (onWeekday (Z.of_nat j) d); cbn [map]; unfold sumZ;
      cbn [fold_right]; lia.
Qed.

Lemma weekday_classes (e : Monthly.DayEntry) :
  (forall i, Monthly.dayOfWeek e = Some i -> 0 <= i <= 6) ->
  sumZ (map (fun i => if onWeekday i e then Monthly.dayCount e else 0)
          [1; 2; 3; 4; 5; 6; 0])
  = match Monthly.dayOfWeek e with
    | Some _ => Monthly.dayCount e
    | None => 0
    end.
Proof.
  intros H. unfold onWeekday. destruct (Monthly.dayOfWeek e) as [i|];
    [|reflexivity].
  specialize (H i eq_refl).
  assert (Hc : i = 0 \/ i = 1 \/ i = 2 \/ i = 3 \/ i = 4 \/ i = 5 \/ i = 6)
    by lia.
  repeat destruct Hc as [-> | Hc]; try subst i; cbn; lia.
Qed.

(** The day-of-week view.  For day entries whose day of the week is a
    number from 0 to 6 or [NaN] (as [getDay] gives it): the seven values
    are, from Monday to Sunday, the sums of the counts of the entries that
    fall on that day of the week, and together they add up to the counts
    of the entries whose day of the week is a number. *)
Theorem weekday_values_are_sums_by_weekday :
  forall days : list Monthly.DayEntry,
    (forall e i, In e days -> Monthly.dayOfWeek e = Some i -> 0 <= i <= 6) ->
    dowValues days
    = map (fun i => sumZ (map Monthly.dayCount (filter (onWeekday i) days)))
        [1; 2; 3; 4; 5; 6; 0]
    /\ sumZ (dowValues days)
       = sumZ (map Monthly.dayCount
                 (filter (fun e => match Monthly.dayOfWeek e with
                                   | Some _ => true
                                   | None => false
                                   end) days)).
Proof.
  intros days Hd.
  assert (Hv : dowValues days
    = map (fun i => sumZ (map Monthly.dayCount (filter (onWeekday i) days)))
        [1; 2; 3; 4; 5; 6; 0]).
  { unfold dowValues, dowAggregate. cbv zeta. cbn [map].
    repeat match goal with
           | |- context [nth ?j (fold_left dowStep days ?a) 0] =>
               rewrite (proj2 (dow_fold days a j eq_refl Hd))
           end.
    cbn [nth Z.of_nat]. repeat f_equal. }
  split; [exact Hv|]. rewrite Hv. clear Hv.
  induction days as [|e days IH].
  - reflexivity.
  - assert (He := weekday_classes e (fun i => Hd e i (or_introl eq_refl))).
    specialize (IH (fun e i H => Hd e i (or_intror H))).
    assert (Hsplit :
      sumZ (map (fun i => sumZ (map Monthly.dayCount
                                  (filter (onWeekday i) (e :: days))))
              [1; 2; 3; 4; 5; 6; 0])
      = sumZ (map (fun i => if onWeekday i e then Monthly.dayCount e else 0)
                [1; 2; 3; 4; 5; 6; 0])
        + sumZ (map (fun i => sumZ (map Monthly.dayCount
                                      (filter (onWeekday i) days)))
                  [1; 2; 3; 4; 5; 6; 0])).
    { rewrite <- sumZ_map_add. f_equal. apply map_ext. intros i.
      cbn [filter]. destruct (onWeekday i e); cbn [map]; unfold sumZ;
        cbn [fold_right]; lia. }
    rewrite Hsplit, He, IH. cbn [filter].
    destruct (Monthly.dayOfWeek e); cbn [map]; unfold sumZ; cbn [fold_right];
      lia.
Qed.

(** Three days: a Monday, a Sunday and another Monday. *)
Lemma weekday_values_witness :
  dowValues [ Monthly.mkDayEntry "2024-02-05" (Some 1) 5 2 20 1;
              Monthly.mkDayEntry "2024-02-11" (Some 0) 11 3 30 1;
              Monthly.mkDayEntry "2024-02-12" (Some 1) 12 4 40 2 ]
  = [6; 0; 0; 0; 0; 0; 3].
Proof.
  exact (proj1 (weekday_values_are_sums_by_weekday
                  [ Monthly.mkDayEntry "2024-02-05" (Some 1) 5 2 20 1;
                    Monthly.mkDayEntry "2024-02-11" (Some 0) 11 3 30 1;
                    Monthly.mkDayEntry "2024-02-12" (Some 1) 12 4 40 2 ]
                  ltac:(intros e i [<- | [<- | [<- | []]]] [= <-]; lia))).
Defined.

(** *** Weeks of the month *)

Section Weeks.
Variable tza : Z.
Variable implParse : string -> option Z.

Lemma midnight_local_day n : Day (LocalTime tza (MakeDate n 0 - tza)) = n.
Proof.
  unfold LocalTime. replace (MakeDate n 0 - tza + tza) with (MakeDate n 0)
    by lia.
  apply Day_MakeDate. unfold msPerDay. lia.
Qed.

(** [getWeekOfMonth] on a date of the month, in terms of day numbers. *)
Lemma getWeekOfMonth_of_day y m d :
  Z.abs tza <= 24 * msPerHour -> 100 <= y <= 9999 -> 1 <= m <= 12 ->
  1 <= d <= lengthOf y m ->
  getWeekOfMonth tza implParse (dateOf y m d)
  = Some ((d - 1 + (WeekDay (firstOf y m) + 6) mod 7) / 7).
Proof.
  intros Hz Hy Hm Hd. unfold getWeekOfMonth.
  destruct (fields_of_MakeDay y (m - 1) d ltac:(lia) Hd) as (Yd & Md & Dd).
  assert (P : Date_parse tza implParse (dateOf y m d ++ "T12:00:00")
              = Some (MakeDate (MakeDay y (m - 1) d) (12 * msPerHour) - tza)).
  { rewrite <- (dateOf_MakeDay y m d Hm Hd).
    apply noon_parse; auto. rewrite Yd. lia. }
  rewrite P. unfold getFullYear, getMonth, getDate.
  rewrite noon_local_day, Yd, Md, Dd.
  unfold fromFields.
  replace ((0 <=? y) && (y <=? 99)) with false
    by (symmetry; apply andb_false_iff; right; apply Z.leb_gt; lia).
  fold (firstOf y m).
  pose proof (month_days_range y m ltac:(lia) Hm) as Hr.
  pose proof (lengthOf_range y m Hm) as Hl.
  unfold UTC. rewrite TimeClip_small
    by (unfold MakeDate, msPerDay, msPerHour in *; lia).
  unfold getDay. rewrite midnight_local_day.
  f_equal. f_equal. f_equal. pose proof (WeekDay_range (firstOf y m)).
  destruct (WeekDay (firstOf y m) =? 0) eqn:E; bool_to_Z; floor_lia.
Qed.
End Weeks.

(** The week of the month a day belongs to.  For every date of a month of
    the years 100 to 9999 and every offset of at most 24 hours either way,
    [getWeekOfMonth] gives a number from 0 to 5: the number of weeks
    between the Monday on or before the first of the month and the Monday
    on or before the date.  So two days of the month have the same number
    exactly when they lie in the same week from Monday to Sunday. *)
Theorem week_of_month_counts_mondays :
  forall (tza : Z) (implParse : string -> option Z) (y m d : Z),
    Z.abs tza <= 24 * msPerHour -> 100 <= y <= 9999 -> 1 <= m <= 12 ->
    1 <= d <= lengthOf y m ->
    exists w,
      getWeekOfMonth tza implParse (dateOf y m d) = Some w
      /\ 0 <= w <= 5
      /\ mondayOf (MakeDay y (m - 1) d) = mondayOf (firstOf y m) + 7 * w.
Proof.
  intros tza implParse y m d Hz Hy Hm Hd.
  eexists. split; [now apply getWeekOfMonth_of_day|].
  pose proof (lengthOf_range y m Hm) as Hl.
  replace (MakeDay y (m - 1) d) with (firstOf y m + (d - 1))
    by (unfold firstOf, MakeDay; lia).
  unfold mondayOf, WeekDay. split; floor_lia.
Qed.

(** Thursday 2024-02-29: its Monday is four weeks after the Monday on or
    before the first of the month. *)
Lemma week_of_month_witness :
  exists w,
    getWeekOfMonth 0 Samples.strictParse (dateOf 2024 2 29) = Some w
    /\ 0 <= w <= 5
    /\ mondayOf (MakeDay 2024 (2 - 1) 29) = mondayOf (firstOf 2024 2) + 7 * w.
Proof.
  exact (week_of_month_counts_mondays 0 Samples.strictParse 2024 2 29
           ltac:(vm_compute; congruence) ltac:(lia) ltac:(lia)
           ltac:(vm_compute; split; congruence)).
Defined.

(** *** Week by week *)

Section WeekMap.
Variable tza : Z.
Variable implParse : string -> option Z.
Variable dayMap : obj DayStats.

Lemma weekStep_total (f : WeekStats -> Z) (g : Monthly.DayEntry -> Z) wm d :
  (forall st apps,
     f (mkWeekStats (wcount st + Monthly.dayCount d)
          (wwords st + Monthly.dayWords d) apps (startDate st))
     = f st + g d) ->
  f (mkWeekStats 0 0 [] (Monthly.date d)) = 0 ->
  total f (weekStep tza implParse dayMap wm d) = total f wm + g d.
Proof.
  intros Hf H0. unfold weekStep. cbv zeta.
  set (k := weekKey tza implParse (Monthly.date d)).
  unfold hasOwn. destruct (getOwn wm k) as [st|] eqn:G.
  - rewrite G, total_setOwn, G, Hf. lia.
  - rewrite getOwn_setOwn_same, !total_setOwn, getOwn_setOwn_same, G, Hf, H0.
    cbn [wcount wwords startDate]. lia.
Qed.

Lemma weekMap_total (f : WeekStats -> Z) (g : Monthly.DayEntry -> Z) days :
  (forall d st apps,
     f (mkWeekStats (wcount st + Monthly.dayCount d)
          (wwords st + Monthly.dayWords d) apps (startDate st))
     = f st + g d) ->
  (forall d, f (mkWeekStats 0 0 [] (Monthly.date d)) = 0) ->
  total f (weekMapOf tza implParse dayMap days) = sumZ (map g days).
Proof.
  intros Hf H0. unfold weekMapOf.
  induction days as [|d days IH] using rev_ind; [reflexivity|].
  rewrite fold_left_app. cbn [fold_left].
  rewrite weekStep_total with (g := g) by auto.
  rewrite IH, map_app, sumZ_app. cbn. lia.
Qed.

Lemma weeksSorted_perm days :
  Permutation (sort (byWeekIndex) (entries (weekMapOf tza implParse dayMap days)))
    (weekMapOf tza implParse dayMap days).
Proof. etransitivity; [apply sort_perm | apply entries_perm]. Qed.
End WeekMap.

(** The weeks of the month account for every day.  Whatever the day
    entries and the day map, the counts of the week entries add up to the
    counts of the day entries.  Their words add up to the words of the
    day entries as long as the absolute values of the words of the day
    entries stay below 2^53 in total, where the additions of the script
    are exact. *)
Theorem week_entries_add_up_to_the_days :
  forall (tza : Z) (implParse : string -> option Z) (dayMap : obj DayStats)
         (days : list Monthly.DayEntry),
    sumZ (map weekCount (weeksSorted tza implParse dayMap days))
    = sumZ (map Monthly.dayCount days)
    /\ (mass (map Monthly.dayWords days) < 2 ^ 53 ->
        sumZ (map weekWords (weeksSorted tza implParse dayMap days))
        = sumZ (map Monthly.dayWords days)).
Proof.
  intros tza implParse dayMap days. unfold weeksSorted.
  rewrite !map_map. cbn [weekCount weekWords]. split; [|intros _].
  - change (sumZ (map (fun x : string * WeekStats => wcount (snd x)) ?l))
      with (total wcount l).
    rewrite (total_perm _ _ _ (weeksSorted_perm tza implParse dayMap days)).
    apply weekMap_total; reflexivity.
  - change (sumZ (map (fun x : string * WeekStats => wwords (snd x)) ?l))
      with (total wwords l).
    rewrite (total_perm _ _ _ (weeksSorted_perm tza implParse dayMap days)).
    apply weekMap_total; reflexivity.
Qed.

(** The days of February 2024 with [threeDayRows]: thirty dictations and
    three thousand words, in the weeks as in the days. *)
Lemma week_entries_witness :
  sumZ (map weekCount
          (weeksSorted 0 Samples.strictParse Samples.threeDayMap
             Samples.threeDayEntries))
  = sumZ (map Monthly.dayCount Samples.threeDayEntries)
  /\ sumZ (map weekWords
             (weeksSorted 0 Samples.strictParse Samples.threeDayMap
                Samples.threeDayEntries))
     = sumZ (map Monthly.dayWords Samples.threeDayEntries).
Proof.
  destruct (week_entries_add_up_to_the_days 0 Samples.strictParse
              Samples.threeDayMap Samples.threeDayEntries) as (Hc & Hw).
  split; [exact Hc|]. apply Hw. vm_compute. reflexivity.
Defined.
End MonthViewFacts.

(* ================================================================== *)
(** ** The week-by-week view in order *)
(* ================================================================== *)

Module WeekOrder.
Import JS Date Recap Spec Terms Helpers MonthViews JSFacts RecapFacts DayFacts
       DateFacts PeriodFacts MonthFacts MonthPeriod Totals MonthViewFacts.

(** *** Lists that are in order already *)

Lemma sortIndexed_in_order {V} (l : list (string * V)) :
  Sorted (fun e1 e2 => (indexOr0 (fst e1) <= indexOr0 (fst e2))%N) l ->
  sortIndexed l = l.
Proof.
  induction 1 as [|x l Hs IH Hd]; [reflexivity|].
  cbn [sortIndexed fold_right]. fold (sortIndexed l). rewrite IH.
  destruct Hd as [|y l' Hxy]; [reflexivity|].
  cbn [insertIndexed]. apply N.leb_le in Hxy. now rewrite Hxy.
Qed.

Lemma sort_in_order {A} (cmp : A -> A -> Z) (l : list A) :
  Sorted (fun x y => cmp x y <= 0) l -> sort cmp l = l.
Proof.
  induction 1 as [|x l Hs IH Hd]; [reflexivity|].
  cbn [sort fold_right]. fold (sort cmp l). rewrite IH.
  destruct Hd as [|y l' Hxy]; [reflexivity|].
  cbn [insertSorted]. apply Z.ltb_ge in Hxy. now rewrite Hxy.
Qed.

Lemma Sorted_weaken {A} (R R' : A -> A -> Prop) (l : list A) :
  (forall a b, R a b -> R' a b) -> Sorted R l -> Sorted R' l.
Proof.
  intros H. induction 1 as [|x l Hs IH Hd]; constructor; auto.
  destruct Hd; constructor; auto.
Qed.

Lemma Sorted_by_key {V} (R : string -> string -> Prop) (o : list (string * V)) :
  Sorted R (map fst o) -> Sorted (fun e1 e2 => R (fst e1) (fst e2)) o.
Proof.
  induction o as [|e o IH]; cbn [map]; intros H; [constructor|].
  inversion H as [|? ? Hs Hd]; subst. constructor; [now apply IH|].
  destruct o as [|e' o]; constructor. now inversion Hd.
Qed.

Lemma weekKeys_facts k :
  (k <= 5)%nat ->
  Sorted (fun a b => (indexOr0 a <= indexOr0 b)%N) (weekKeys k)
  /\ Sorted (fun a b => match parseInt a, parseInt b with
                        | Some x, Some y => x - y
                        | _, _ => 0
                        end <= 0) (weekKeys k)
  /\ forallb isIndex (weekKeys k) = true
  /\ NoDup (weekKeys k).
Proof.
  intros Hk.
  assert (Hc : (k = 0 \/ k = 1 \/ k = 2 \/ k = 3 \/ k = 4 \/ k = 5)%nat) by lia.
  repeat destruct Hc as [-> | Hc]; try subst k;
    (split; [repeat constructor; vm_compute; congruence|]);
    (split; [repeat constructor; vm_compute; congruence|]);
    (split; [reflexivity|]);
    repeat constructor; cbn [In]; intuition discriminate.
Qed.

Lemma entries_and_sort_of_weeks {V} (cmp : string * V -> string * V -> Z)
    (o : list (string * V)) k :
  (k <= 5)%nat -> map fst o = weekKeys k ->
  (forall a b, cmp a b = match parseInt (fst a), parseInt (fst b) with
                         | Some x, Some y => x - y
                         | _, _ => 0
                         end) ->
  sort cmp (entries o) = o.
Proof.
  intros Hk Ho Hcmp. destruct (weekKeys_facts k Hk) as (S1 & S2 & Hi & _).
  rewrite <- Ho in S1, S2, Hi.
  assert (Hall : forall e, In e o -> isIndex (fst e) = true).
  { intros e He. rewrite forallb_forall in Hi. apply Hi. now apply in_map. }
  unfold entries.
  rewrite (PeakHour.filter_none (fun e => negb (isIndex (fst e))))
    by (intros e He; now rewrite (Hall e He)).
  rewrite app_nil_r.
  replace (filter (fun e => isIndex (fst e)) o) with o
    by (symmetry; apply forallb_filter_id, forallb_forall; exact Hall).
  rewrite sortIndexed_in_order
    by exact (Sorted_by_key (fun a b => (indexOr0 a <= indexOr0 b)%N) o S1).
  apply sort_in_order.
  pose proof (Sorted_by_key _ o S2) as S3. cbv beta in S3.
  revert S3. apply Sorted_weaken. intros a b Hab. now rewrite Hcmp.
Qed.

(** *** The week map of the days 1 to [n] *)

Lemma week_key_inj w w' :
  String_of_Z (Z.of_nat w) = String_of_Z (Z.of_nat w') -> w = w'.
Proof.
  unfold String_of_Z.
  replace (Z.of_nat w <? 0) with false by (symmetry; apply Z.ltb_ge; lia).
  replace (Z.of_nat w' <? 0) with false by (symmetry; apply Z.ltb_ge; lia).
  intros H. apply String_of_N_inj in H. lia.
Qed.

Section Keyed.
Context {V : Type}.

Lemma getOwn_keyed (g : nat -> V) l w0 :
  getOwn (map (fun w => (String_of_Z (Z.of_nat w), g w)) l)
         (String_of_Z (Z.of_nat w0))
  = if existsb (Nat.eqb w0) l then Some (g w0) else None.
Proof.
  induction l as [|w l IH]; cbn [map getOwn existsb]; auto.
  destruct (Nat.eqb w0 w) eqn:E.
  - apply Nat.eqb_eq in E. subst. now rewrite String.eqb_refl.
  - cbn [orb]. rewrite <- IH.
    replace (String.eqb _ _) with false; auto.
    symmetry. apply String.eqb_neq. intros H. apply week_key_inj in H.
    apply Nat.eqb_neq in E. contradiction.
Qed.

Lemma setOwn_keyed_present (g : nat -> V) l w0 v :
  NoDup l -> In w0 l ->
  setOwn (map (fun w => (String_of_Z (Z.of_nat w), g w)) l)
         (String_of_Z (Z.of_nat w0)) v
  = map (fun w => (String_of_Z (Z.of_nat w), if Nat.eqb w w0 then v else g w))
      l.
Proof.
  induction 1 as [|w l Hn Hnd IH]; intros Hin; [destruct Hin|].
  cbn [map setOwn]. destruct (Nat.eqb w w0) eqn:E.
  - apply Nat.eqb_eq in E. subst w0. rewrite String.eqb_refl. f_equal.
    apply map_ext_in. intros w' Hw'.
    replace (Nat.eqb w' w) with false; auto.
    symmetry. apply Nat.eqb_neq. intros ->. contradiction.
  - apply Nat.eqb_neq in E.
    replace (String.eqb _ _) with false
      by (symmetry; apply String.eqb_neq; intros H;
          apply week_key_inj in H; congruence).
    f_equal. apply IH. destruct Hin; congruence.
Qed.

Lemma setOwn_keyed_absent (g : nat -> V) l w0 v :
  ~ In w0 l ->
  setOwn (map (fun w => (String_of_Z (Z.of_nat w), g w)) l)
         (String_of_Z (Z.of_nat w0)) v
  = (map (fun w => (String_of_Z (Z.of_nat w), g w)) l
     ++ [(String_of_Z (Z.of_nat w0), v)])%list.
Proof.
  induction l as [|w l IH]; intros Hin; [reflexivity|].
  cbn [map setOwn].
  replace (String.eqb _ _) with false
    by (symmetry; apply String.eqb_neq; intros H;
        apply week_key_inj in H; subst; apply Hin; now left).
  rewrite <- app_comm_cons. f_equal. apply IH. intros H. apply Hin. now right.
Qed.
End Keyed.

Lemma setOwn_twice {V} (o : obj V) k v v' :
  setOwn (setOwn o k v) k v' = setOwn o k v'.
Proof.
  induction o as [|[k0 v0] o IH]; cbn [setOwn].
  - now rewrite String.eqb_refl.
  - destruct (String.eqb k k0) eqn:E; cbn [setOwn]; rewrite E; auto.
    now rewrite IH.
Qed.

Section Fold.
Variable tza : Z.
Variable implParse : string -> option Z.
Variable dm : obj DayStats.
Variable E : nat -> Monthly.DayEntry.
Variable a : Z.
Variable len : nat.
Hypothesis a_range : 0 <= a <= 6.
Hypothesis key_of_day :
  forall d, (1 <= d <= len)%nat ->
    weekKey tza implParse (Monthly.date (E d))
    = String_of_Z (weekIndex a (Z.of_nat d)).

Local Abbreviation G n w :=
  (weekStatsOf dm (map E (daysOfWeek a (Z.of_nat w) n))
     (Monthly.date (E (Z.to_nat (weekStartDay a (Z.of_nat w)))))).
Local Abbreviation last n := (Z.to_nat (weekIndex a (Z.of_nat n))).

Lemma weekIndex_nonneg d : 1 <= d -> 0 <= weekIndex a d.
Proof. unfold weekIndex. intros H. floor_lia. Qed.

Lemma weekIndex_step n :
  (1 <= n)%nat ->
  weekIndex a (Z.of_nat (S n)) = weekIndex a (Z.of_nat n)
  \/ (weekIndex a (Z.of_nat (S n)) = weekIndex a (Z.of_nat n) + 1
      /\ weekStartDay a (weekIndex a (Z.of_nat (S n))) = Z.of_nat (S n)).
Proof.
  intros Hn. unfold weekIndex, weekStartDay.
  replace (Z.of_nat (S n)) with (Z.of_nat n + 1) by lia.
  assert (H : (Z.of_nat n + 1 - 1 + a) / 7 = (Z.of_nat n - 1 + a) / 7
              \/ ((Z.of_nat n + 1 - 1 + a) / 7 = (Z.of_nat n - 1 + a) / 7 + 1
                  /\ Z.of_nat n + a = 7 * ((Z.of_nat n + 1 - 1 + a) / 7)))
    by floor_lia.
  destruct H as [H | (H & H')]; [now left|right]. split; auto. lia.
Qed.

Lemma weekIndex_mono d d' : d <= d' -> weekIndex a d <= weekIndex a d'.
Proof. unfold weekIndex. intros H. floor_lia. Qed.

Lemma daysOfWeek_S w n :
  daysOfWeek a w (S n)
  = (daysOfWeek a w n
     ++ (if weekIndex a (Z.of_nat (S n)) =? w then [S n] else []))%list.
Proof.
  unfold daysOfWeek. rewrite seq_S, filter_app. cbn [filter Nat.add].
  replace (1 + n)%nat with (S n) by lia.
  now destruct (weekIndex a (Z.of_nat (S n)) =? w).
Qed.

Lemma daysOfWeek_later w n :
  weekIndex a (Z.of_nat n) < w -> daysOfWeek a w n = [].
Proof.
  intros H. unfold daysOfWeek. apply PeakHour.filter_none.
  intros d Hd. apply in_seq in Hd. apply Z.eqb_neq.
  pose proof (weekIndex_mono (Z.of_nat d) (Z.of_nat n) ltac:(lia)). lia.
Qed.

Lemma weekStatsOf_snoc days d sd :
  weekStatsOf dm (days ++ [d]) sd
  = mkWeekStats
      (wcount (weekStatsOf dm days sd) + Monthly.dayCount d)
      (wwords (weekStatsOf dm days sd) + Monthly.dayWords d)
      (match getOwn dm (Monthly.date d) with
       | Some x => fold_left setAdd (dapps x) (wapps (weekStatsOf dm days sd))
       | None => wapps (weekStatsOf dm days sd)
       end)
      sd.
Proof.
  unfold weekStatsOf, appsOfDays. cbn [wcount wwords wapps].
  rewrite !map_app, !sumZ_app, fold_left_app. cbn [map fold_left].
  f_equal; unfold sumZ; cbn [fold_right]; lia.
Qed.

(** The week map after the days 1 to [n]: one bucket for each week from 0
    to the week of day [n], in that order. *)
Lemma weekMap_of_days n :
  (1 <= n <= len)%nat ->
  weekMapOf tza implParse dm (map E (seq 1 n))
  = map (fun w => (String_of_Z (Z.of_nat w), G n w)) (seq 0 (S (last n))).
Proof.
  intros (Hn & Hlen). induction n as [|n IH]; [lia|].
  assert (Hkey := key_of_day (S n) ltac:(lia)).
  pose proof (weekIndex_nonneg (Z.of_nat (S n)) ltac:(lia)) as Hnn.
  assert (HK : String_of_Z (weekIndex a (Z.of_nat (S n)))
               = String_of_Z (Z.of_nat (last (S n))))
    by (now rewrite Z2Nat.id).
  unfold weekMapOf. rewrite seq_S, map_app, fold_left_app.
  cbn [map fold_left Nat.add]. replace (1 + n)%nat with (S n) by lia.
  fold (weekMapOf tza implParse dm (map E (seq 1 n))).
  unfold weekStep. cbv zeta. rewrite Hkey, HK.
  destruct (Nat.eq_dec n 0) as [-> | Hpos].
  - (* the first day *)
    cbn [seq map weekMapOf fold_left]. unfold weekMapOf. cbn [fold_left].
    assert (H0 : last 1 = 0%nat).
    { assert (Hz : weekIndex a (Z.of_nat 1) = 0)
        by (unfold weekIndex; cbn [Z.of_nat Pos.of_succ_nat]; floor_lia).
      now rewrite Hz. }
    rewrite H0. cbn [hasOwn getOwn setOwn seq map].
    rewrite !String.eqb_refl. cbn [wcount wwords wapps startDate].
    f_equal. f_equal.
    assert (Hd : daysOfWeek a (Z.of_nat 0) 1 = [1%nat]).
    { unfold daysOfWeek. cbn [seq filter].
      replace (weekIndex a (Z.of_nat 1) =? Z.of_nat 0) with true; auto.
      symmetry. apply Z.eqb_eq. unfold weekIndex. cbn. floor_lia. }
    rewrite Hd. cbn [map].
    replace (Z.to_nat (weekStartDay a (Z.of_nat 0))) with 1%nat
      by (unfold weekStartDay; lia).
    unfold weekStatsOf, appsOfDays. cbn [map fold_left wcount wwords].
    f_equal; unfold sumZ; cbn [fold_right]; lia.
  - rewrite IH by lia. clear IH.
    pose proof (weekIndex_nonneg (Z.of_nat n) ltac:(lia)) as Hn0.
    destruct (weekIndex_step n ltac:(lia)) as [Hsame | (Hnext & Hstart)].
    + (* the same week as the day before *)
      assert (Hl : last (S n) = last n) by now rewrite Hsame.
      rewrite Hl. unfold hasOwn. rewrite getOwn_keyed.
      replace (existsb (Nat.eqb (last n)) (seq 0 (S (last n)))) with true
        by (symmetry; apply existsb_exists; exists (last n); split;
            [apply in_seq; lia | apply Nat.eqb_refl]).
      rewrite getOwn_keyed.
      replace (existsb (Nat.eqb (last n)) (seq 0 (S (last n)))) with true
        by (symmetry; apply existsb_exists; exists (last n); split;
            [apply in_seq; lia | apply Nat.eqb_refl]).
      rewrite setOwn_keyed_present
        by (try apply seq_NoDup; apply in_seq; lia).
      apply map_ext_in. intros w Hw. f_equal.
      rewrite daysOfWeek_S.
      destruct (Nat.eqb w (last n)) eqn:Ew.
      * apply Nat.eqb_eq in Ew. subst w.
        replace (weekIndex a (Z.of_nat (S n)) =? Z.of_nat (last n)) with true
          by (symmetry; apply Z.eqb_eq; lia).
        rewrite map_app. cbn [map]. now rewrite weekStatsOf_snoc.
      * apply Nat.eqb_neq in Ew.
        replace (weekIndex a (Z.of_nat (S n)) =? Z.of_nat w) with false
          by (symmetry; apply Z.eqb_neq; lia).
        now rewrite app_nil_r.
    + (* the first day of the next week *)
      assert (Hl : last (S n) = S (last n)) by lia.
      rewrite Hl. unfold hasOwn. rewrite getOwn_keyed.
      replace (existsb (Nat.eqb (S (last n))) (seq 0 (S (last n)))) with false.
      2:{ symmetry. apply not_true_iff_false. intros Hex.
          apply existsb_exists in Hex. destruct Hex as (x & Hx & Hxe).
          apply in_seq in Hx. apply Nat.eqb_eq in Hxe. lia. }
      rewrite getOwn_setOwn_same, setOwn_twice.
      rewrite setOwn_keyed_absent by (rewrite in_seq; lia).
      rewrite (seq_S (S (last n))), map_app. cbn [map Nat.add]. f_equal.
      * apply map_ext_in. intros w Hw. apply in_seq in Hw. f_equal.
        rewrite daysOfWeek_S.
        replace (weekIndex a (Z.of_nat (S n)) =? Z.of_nat w) with false
          by (symmetry; apply Z.eqb_neq; lia).
        now rewrite app_nil_r.
      * f_equal. f_equal. rewrite daysOfWeek_S.
        rewrite daysOfWeek_later by lia.
        replace (weekIndex a (Z.of_nat (S n)) =? Z.of_nat (S (last n)))
          with true by (symmetry; apply Z.eqb_eq; lia).
        rewrite app_nil_l.
        replace (Z.of_nat (S (last n))) with (weekIndex a (Z.of_nat (S n)))
          by lia.
        rewrite Hstart, Nat2Z.id.
        unfold weekStatsOf, appsOfDays.
        cbn [map fold_left wcount wwords wapps startDate].
        f_equal; unfold sumZ; cbn [fold_right]; lia.
Qed.
End Fold.

Lemma filter_map_comm {A B} (f : A -> B) (p : B -> bool) (l : list A) :
  filter p (map f l) = map f (filter (fun x => p (f x)) l).
Proof.
  induction l as [|x l IH]; cbn [map filter]; auto.
  destruct (p (f x)); cbn [map]; now rewrite IH.
Qed.

Section Month.
Variable tza : Z.
Variable implParse : string -> option Z.

Lemma shortDate_of_day y m d :
  Z.abs tza <= 24 * msPerHour -> 100 <= y <= 9999 -> 1 <= m <= 12 ->
  1 <= d <= lengthOf y m ->
  shortDate tza implParse (dateOf y m d)
  = nth (Z.to_nat (m - 1)) monthShortNames "" ++ " " ++ String_of_Z d.
Proof.
  intros Hz Hy Hm Hd. unfold shortDate.
  destruct (fields_of_MakeDay y (m - 1) d ltac:(lia) Hd) as (Yd & Md & Dd).
  assert (P : Date_parse tza implParse (dateOf y m d ++ "T12:00:00")
              = Some (MakeDate (MakeDay y (m - 1) d) (12 * msPerHour) - tza)).
  { rewrite <- (dateOf_MakeDay y m d Hm Hd).
    apply noon_parse; auto. rewrite Yd. lia. }
  rewrite P. unfold getMonth, getDate. now rewrite noon_local_day, Md, Dd.
Qed.

Lemma weekKey_of_day y m d :
  Z.abs tza <= 24 * msPerHour -> 100 <= y <= 9999 -> 1 <= m <= 12 ->
  1 <= d <= lengthOf y m ->
  weekKey tza implParse (dateOf y m d)
  = String_of_Z (weekIndex (daysAfterMonday y m) d).
Proof.
  intros Hz Hy Hm Hd. unfold weekKey.
  now rewrite getWeekOfMonth_of_day by auto.
Qed.
End Month.

(** The week-by-week view of a month.  For the reference [YYYY-MM] of a
    month of the years 1000 to 9999, every offset of at most 24 hours
    either way and all rows whose day keys are not inherited names: the
    view lists the weeks of the month from the one that holds the first of
    the month on, in order, four to six of them.  Each week is labelled
    [Week of] with the short name of the month and the day number of its
    first day in the month (the 1st for the first week, a Monday for the
    others), and holds the sums of the counts and of the words of its days
    and the number of distinct applications of its days.  The words are
    added in double precision: the statement is for rows whose words stay
    below 2^53 in total, in absolute value, where those additions are
    exact. *)
Theorem weeks_are_listed_from_the_first_week_on :
  forall (tza : Z) (implParse : string -> option Z) (y m : Z)
         (rows : list Row),
    Z.abs tza <= 24 * msPerHour -> 1000 <= y <= 9999 -> 1 <= m <= 12 ->
    (forall r, In r rows -> plainDay r = true) ->
    wordsMass rows < 2 ^ 53 ->
    exists mr data dm,
      Monthly.getMonthRange tza (yearMonthOf y m) = Some mr
      /\ dayMapOf rows = Some dm
      /\ Monthly.aggregate tza implParse mr rows = Some data
      /\ (4 <= List.length (weeksSorted tza implParse dm (Monthly.allDays data))
          <= 6)%nat
      /\ weeksSorted tza implParse dm (Monthly.allDays data)
         = map (fun w =>
                  let days :=
                    filter (fun e => weekIndex (daysAfterMonday y m)
                                       (Monthly.dayNum e) =? Z.of_nat w)
                      (Monthly.allDays data) in
                  mkWeekEntry
                    ("Week of " ++ nth (Z.to_nat (m - 1)) monthShortNames ""
                     ++ " "
                     ++ String_of_Z
                          (weekStartDay (daysAfterMonday y m) (Z.of_nat w)))
                    (sumZ (map Monthly.dayCount days))
                    (sumZ (map Monthly.dayWords days))
                    (Z.of_nat (List.length (appsOfDays dm days))))
             (seq 0 (S (Z.to_nat (weekIndex (daysAfterMonday y m)
                                    (lengthOf y m))))).
Proof.
  intros tza implParse y m rows Hz Hy Hm Hp _.
  destruct (dayMap_plain rows Hp) as [dm Hdm].
  pose proof (lengthOf_range y m Hm) as Hl.
  set (a := daysAfterMonday y m).
  assert (Ha : 0 <= a <= 6) by (unfold a, daysAfterMonday; floor_lia).
  set (len := Z.to_nat (lengthOf y m)).
  set (E := fun d : nat =>
         Monthly.mkDayEntry (dateOf y m (Z.of_nat d))
           (Some (WeekDay (MakeDay y (m - 1) (Z.of_nat d)))) (Z.of_nat d)
           (dcount (dayOrEmpty dm (dateOf y m (Z.of_nat d))))
           (dwords (dayOrEmpty dm (dateOf y m (Z.of_nat d))))
           (Z.of_nat (List.length
                        (dapps (dayOrEmpty dm (dateOf y m (Z.of_nat d))))))).
  eexists. eexists. exists dm.
  split; [apply getMonthRange_any_zone; auto; lia|].
  split; [exact Hdm|].
  unfold Monthly.aggregate. rewrite Hdm.
  split; [reflexivity|]. cbn [Monthly.allDays].
  rewrite fillDays_of_month by auto. fold E. fold len.
  assert (Hk : (Z.to_nat (weekIndex a (Z.of_nat len)) <= 5)%nat).
  { unfold weekIndex, len. rewrite Z2Nat.id by lia.
    apply Nat2Z.inj_le. rewrite Z2Nat.id by floor_lia. floor_lia. }
  assert (Hk3 : (3 <= Z.to_nat (weekIndex a (Z.of_nat len)))%nat).
  { unfold weekIndex, len. rewrite Z2Nat.id by lia.
    apply Nat2Z.inj_le. rewrite Z2Nat.id by floor_lia. floor_lia. }
  assert (Hweeks :
    weeksSorted tza implParse dm (map E (seq 1 len))
    = map (fun w =>
             mkWeekEntry
               ("Week of "
                ++ shortDate tza implParse
                     (dateOf y m (weekStartDay a (Z.of_nat w))))
               (sumZ (map Monthly.dayCount
                        (map E (daysOfWeek a (Z.of_nat w) len))))
               (sumZ (map Monthly.dayWords
                        (map E (daysOfWeek a (Z.of_nat w) len))))
               (Z.of_nat (List.length
                  (appsOfDays dm (map E (daysOfWeek a (Z.of_nat w) len))))))
        (seq 0 (S (Z.to_nat (weekIndex a (Z.of_nat len)))))).
  { unfold weeksSorted.
    rewrite (weekMap_of_days tza implParse dm E a len Ha).
    - rewrite (entries_and_sort_of_weeks (byWeekIndex) _
                 (Z.to_nat (weekIndex a (Z.of_nat len))) Hk).
      + rewrite map_map. apply map_ext_in. intros w Hw. apply in_seq in Hw.
        cbn [snd weekStatsOf startDate wcount wwords wapps].
        unfold weekStatsOf. cbn [startDate wcount wwords wapps].
        unfold E at 1. cbn [Monthly.date].
        rewrite Z2Nat.id by (unfold weekStartDay; lia). reflexivity.
      + rewrite map_map. reflexivity.
      + reflexivity.
    - intros d Hd. unfold E. cbn [Monthly.date].
      apply weekKey_of_day; auto; unfold len in Hd; lia.
    - unfold len. lia. }
  rewrite Hweeks. split.
  - rewrite length_map, length_seq. lia.
  - replace (Z.of_nat len) with (lengthOf y m) by (unfold len; lia).
    apply map_ext_in. intros w Hw. apply in_seq in Hw. cbv zeta.
    assert (Hf : filter (fun e => weekIndex a (Monthly.dayNum e) =? Z.of_nat w)
                   (map E (seq 1 len))
                 = map E (daysOfWeek a (Z.of_nat w) len)).
    { rewrite filter_map_comm. reflexivity. }
    rewrite Hf. f_equal. f_equal.
    apply shortDate_of_day; auto; try lia.
    assert (Hi : 0 <= weekIndex a (lengthOf y m))
      by (unfold weekIndex; floor_lia).
    assert (Hw' : Z.of_nat w <= weekIndex a (lengthOf y m)) by lia.
    clear Hw Hi Hk Hk3 Hweeks Hf.
    unfold weekStartDay, weekIndex in *. floor_lia.
Qed.

(** February 2024 in UTC, which begins on a Thursday: five weeks, the
    first from the 1st and the others from the Mondays 5, 12, 19 and
    26. *)
Lemma weeks_witness :
  exists mr data dm,
    Monthly.getMonthRange 0 (yearMonthOf 2024 2) = Some mr
    /\ dayMapOf Samples.threeDayRows = Some dm
    /\ Monthly.aggregate 0 Samples.strictParse mr Samples.threeDayRows
       = Some data
    /\ (4 <= List.length (weeksSorted 0 Samples.strictParse dm
                            (Monthly.allDays data)) <= 6)%nat
    /\ weeksSorted 0 Samples.strictParse dm (Monthly.allDays data)
       = map (fun w =>
                let days :=
                  filter (fun e => weekIndex (daysAfterMonday 2024 2)
                                     (Monthly.dayNum e) =? Z.of_nat w)
                    (Monthly.allDays data) in
                mkWeekEntry
                  ("Week of " ++ nth (Z.to_nat (2 - 1)) monthShortNames ""
                   ++ " "
                   ++ String_of_Z
                        (weekStartDay (daysAfterMonday 2024 2) (Z.of_nat w)))
                  (sumZ (map Monthly.dayCount days))
                  (sumZ (map Monthly.dayWords days))
                  (Z.of_nat (List.length (appsOfDays dm days))))
           (seq 0 (S (Z.to_nat (weekIndex (daysAfterMonday 2024 2)
                                  (lengthOf 2024 2))))).
Proof.
  apply (weeks_are_listed_from_the_first_week_on 0 Samples.strictParse 2024 2
           Samples.threeDayRows).
  - vm_compute. congruence.
  - lia.
  - lia.
  - intros r Hr. unfold Samples.threeDayRows, Samples.rowsOn in Hr.
    rewrite !in_app_iff in Hr.
    destruct Hr as [Hr | [Hr | Hr]]; apply repeat_spec in Hr; subst r;
      reflexivity.
  - vm_compute. reflexivity.
Defined.
End WeekOrder.

(* ================================================================== *)
(** ** The transcripts loop *)
(* ================================================================== *)

Module TranscriptFacts.
Import JS Date Recap Spec Terms Transcripts JSFacts RecapFacts.

(** The texts under a name, none when there is no such entry. *)
Local Abbreviation textsAt t k :=
  (match getOwn t k with Some texts => texts | None => [] end).

Lemma transcriptStep_spec t d :
  (forall k, In k (map fst t) -> inherited k = false) ->
  (inherited (resolvedName (row d)) = true /\ transcriptStep t d = None)
  \/ (inherited (resolvedName (row d)) = false
      /\ exists t',
           transcriptStep t d = Some t'
           /\ (forall k, In k (map fst t') -> inherited k = false)
           /\ (forall k, textsAt t' k
                         = (textsAt t k
                            ++ (if named k (row d) then [formattedText d]
                                else []))%list)).
Proof.
  intros Hinv. unfold transcriptStep. cbv zeta.
  set (name := resolvedName (row d)).
  destruct (inherited name) eqn:Hi.
  - left. split; auto. rewrite orb_true_r.
    destruct (getOwn t name) as [x|] eqn:G; auto.
    apply getOwn_In in G. apply (in_map fst) in G. cbn [fst] in G.
    rewrite (Hinv _ G) in Hi. discriminate.
  - right. split; auto. rewrite orb_false_r. unfold hasOwn.
    destruct (getOwn t name) as [x|] eqn:G.
    + rewrite G. eexists. split; [reflexivity|]. split.
      * intros k Hk. rewrite keys_setOwn in Hk. unfold hasOwn in Hk.
        rewrite G in Hk. auto.
      * intros k. unfold named. fold name.
        destruct (String.eqb name k) eqn:E.
        -- apply String.eqb_eq in E. subst k.
           now rewrite getOwn_setOwn_same, G.
        -- apply String.eqb_neq in E.
           rewrite getOwn_setOwn_other by congruence.
           now rewrite app_nil_r.
    + rewrite getOwn_setOwn_same. eexists. split; [reflexivity|]. split.
      * intros k Hk. rewrite WeekOrder.setOwn_twice, keys_setOwn in Hk.
        unfold hasOwn in Hk. rewrite G in Hk. apply in_app_iff in Hk.
        destruct Hk as [Hk | [<- | []]]; auto.
      * intros k. unfold named. fold name.
        destruct (String.eqb name k) eqn:E.
        -- apply String.eqb_eq in E. subst k.
           now rewrite getOwn_setOwn_same, G.
        -- apply String.eqb_neq in E.
           rewrite !getOwn_setOwn_other by congruence.
           now rewrite app_nil_r.
Qed.

Lemma transcriptsFrom_spec ds :
  forall acc,
    (forall k, In k (map fst acc) -> inherited k = false) ->
    (transcriptsFrom acc ds = None
     <-> exists d, In d ds /\ inherited (resolvedName (row d)) = true)
    /\ (forall t, transcriptsFrom acc ds = Some t ->
          forall k, textsAt t k
                    = (textsAt acc k
                       ++ map formattedText
                            (filter (fun d => named k (row d)) ds))%list).
Proof.
  induction ds as [|d ds IH]; intros acc Hinv; cbn [transcriptsFrom].
  - split.
    + split; [discriminate|]. intros (d & [] & _).
    + intros t [= <-] k. cbn [filter map]. now rewrite app_nil_r.
  - destruct (transcriptStep_spec acc d Hinv)
      as [(Hi & ->) | (Hi & t' & -> & Hinv' & Ht')].
    + split; [|discriminate]. split; auto. intros _. exists d. split; auto.
      now left.
    + destruct (IH t' Hinv') as (Hnone & Hsome). split.
      * rewrite Hnone. split.
        -- intros (d' & Hd' & Hi'). exists d'. split; auto. now right.
        -- intros (d' & [<- | Hd'] & Hi'); [congruence|]. exists d'. auto.
      * intros t Ht k. rewrite (Hsome t Ht k), Ht'. cbn [filter].
        rewrite <- app_assoc. f_equal.
        now destruct (named k (row d)).
Qed.

Lemma transcripts_spec_none ds :
  transcriptsByApp ds = None
  <-> exists d, In d ds /\ inherited (resolvedName (row d)) = true.
Proof. exact (proj1 (transcriptsFrom_spec ds [] ltac:(intros k []))). Qed.

(** The texts of the rows, grouped by application.  The loop throws
    exactly when some row resolves to the name of a member of
    [Object.prototype].  When it does not throw, the texts under a name
    are the texts of the rows of that name, in the order of the rows. *)
Theorem transcripts_throw_on_an_inherited_name :
  forall ds : list Dictation,
    (transcriptsByApp ds = None
     <-> exists d, In d ds /\ inherited (resolvedName (row d)) = true)
    /\ (forall t, transcriptsByApp ds = Some t ->
          forall name,
            match getOwn t name with Some texts => texts | None => [] end
            = map formattedText (filter (fun d => named name (row d)) ds)).
Proof.
  intros ds. destruct (transcriptsFrom_spec ds [] ltac:(intros k []))
    as (Hn & Hs).
  split; [exact Hn|]. intros t Ht name. exact (Hs t Ht name).
Qed.

Lemma thenTranscripts_throws {Data} (o : Outcome Data) ds :
  transcriptsByApp ds = None ->
  (exists d, reported o = Some d) \/ o = Threw ->
  thenTranscripts o ds = Threw.
Proof.
  intros Hn [(d & Hd) | ->]; [|reflexivity].
  destruct o; try discriminate; cbn [thenTranscripts]; now rewrite Hn.
Qed.

Lemma thenTranscripts_passes {Data} (o : Outcome Data) ds :
  transcriptsByApp ds <> None -> thenTranscripts o ds = o.
Proof.
  intros Hn. destruct o; cbn [thenTranscripts]; auto;
    destruct (transcriptsByApp ds); congruence.
Qed.

(** A row of an inherited name ends the daily and the weekly run.  With
    the store present: if one of the rows of the period resolves to the
    name of a member of [Object.prototype] (an application identifier that
    ends in [.toString], say), the daily and the weekly script throw
    before they print or write anything and end with code 1.  If no row
    does, the loop changes nothing. *)
Theorem daily_and_weekly_runs_throw_on_an_inherited_name :
  forall (tza : Z) (implParse : string -> option Z) (flagHTML : bool),
    (forall targetDate query,
       (exists d, In d (query targetDate)
                  /\ inherited (resolvedName (row d)) = true) ->
       let o := daily tza implParse flagHTML targetDate true query in
       o = Threw /\ exitCode o = 1 /\ filesWritten o = []
       /\ reported o = None)
    /\ (forall refDate w query,
          Weekly.getWeekRange tza implParse refDate = Some w ->
          (exists d, In d (query (Weekly.start w) (Weekly.end_ w))
                     /\ inherited (resolvedName (row d)) = true) ->
          let o := weekly tza implParse flagHTML refDate true query in
          o = Threw /\ exitCode o = 1 /\ filesWritten o = []
          /\ reported o = None)
    /\ (forall targetDate dbExists query,
          (forall d, In d (query targetDate) ->
                     inherited (resolvedName (row d)) = false) ->
          daily tza implParse flagHTML targetDate dbExists query
          = Daily.main tza implParse flagHTML targetDate dbExists
              (fun x => map row (query x))).
Proof.
  intros tza implParse flagHTML. split; [|split].
  - intros targetDate query Hex. cbv zeta.
    assert (Ho : daily tza implParse flagHTML targetDate true query = Threw).
    { unfold daily. apply thenTranscripts_throws.
      - now apply transcripts_spec_none.
      - left. unfold Daily.main. cbn [negb]. cbv beta.
        destruct Hex as (d & Hd & _).
        destruct (query targetDate) as [|d0 rest]; [destruct Hd|].
        cbn [map List.length Nat.eqb].
        destruct flagHTML; eexists; reflexivity. }
    rewrite Ho. repeat split.
  - intros refDate w query Hw Hex. cbv zeta.
    assert (Ho : weekly tza implParse flagHTML refDate true query = Threw).
    { unfold weekly. rewrite Hw. apply thenTranscripts_throws.
      - now apply transcripts_spec_none.
      - unfold Weekly.main. rewrite Hw. cbn [negb]. cbv beta.
        destruct Hex as (d & Hd & _).
        destruct (query (Weekly.start w) (Weekly.end_ w)) as [|d0 rest];
          [destruct Hd|].
        cbn [map List.length Nat.eqb].
        destruct (Weekly.aggregate _ _ _ _); [left|right; reflexivity].
        destruct flagHTML; eexists; reflexivity. }
    rewrite Ho. repeat split.
  - intros targetDate dbExists query Hall. unfold daily.
    apply thenTranscripts_passes. intros Hn.
    apply transcripts_spec_none in Hn. destruct Hn as (d & Hd & Hi).
    rewrite (Hall d Hd) in Hi. discriminate.
Qed.

(** The two rows of [inheritedNameDictations], the second of which is in
    an application whose identifier ends in [.toString]. *)
Lemma inherited_name_run_witness :
  let o := daily 0 Samples.strictParse false "2026-01-01" true
             (fun _ => Samples.inheritedNameDictations) in
  o = Threw /\ exitCode o = 1 /\ filesWritten o = [] /\ reported o = None.
Proof.
  apply (proj1 (daily_and_weekly_runs_throw_on_an_inherited_name
                  0 Samples.strictParse false)).
  eexists. split; [right; left; reflexivity|reflexivity].
Defined.
End TranscriptFacts.

(* ================================================================== *)
(** ** The timeline of the daily report *)
(* ================================================================== *)

Module TimelineFacts.
Import JS Date Recap Spec Terms Helpers Transcripts Timeline JSFacts RecapFacts
       Totals HelperFacts PeakLabel WeekOrder.

Section Keyed.
Context {V W : Type}.

Local Abbreviation keyed f := (fun e : string * V => (fst e, f (fst e))).

Lemma getOwn_map_key (f : string -> W) (o : obj V) k :
  getOwn (map (keyed f) o) k = option_map (fun _ => f k) (getOwn o k).
Proof.
  induction o as [|[k1 v1] o IH]; cbn [map getOwn fst option_map]; auto.
  destruct (String.eqb k k1) eqn:E; auto.
  apply String.eqb_eq in E. now subst.
Qed.

Lemma setOwn_map_key (f f' : string -> W) (o : obj V) k w :
  NoDup (map fst o) -> (forall k', k' <> k -> f' k' = f k') ->
  setOwn (map (keyed f) o) k (f' k) = map (keyed f') (setOwn o k w).
Proof.
  intros Hnd Hf. induction o as [|[k1 v1] o IH]; cbn [map setOwn fst].
  - reflexivity.
  - inversion Hnd as [|? ? Hn Hnd']; subst.
    destruct (String.eqb k k1) eqn:E; cbn [map fst].
    + apply String.eqb_eq in E. subst k1. f_equal.
      apply map_ext_in. intros [k2 v2] Hin. cbn [fst]. f_equal.
      symmetry. apply Hf. intros ->. apply Hn.
      apply (in_map fst) in Hin. exact Hin.
    + rewrite IH by auto. f_equal. f_equal. symmetry. apply Hf.
      apply String.eqb_neq in E. congruence.
Qed.

Lemma insertIndexed_map_key (f : string -> W) e (l : list (string * V)) :
  insertIndexed (keyed f e) (map (keyed f) l)
  = map (keyed f) (insertIndexed e l).
Proof.
  induction l as [|e' l IH]; cbn [map insertIndexed fst]; auto.
  destruct (indexOr0 (fst e) <=? indexOr0 (fst e'))%N; cbn [map]; auto.
  now rewrite IH.
Qed.

Lemma sortIndexed_map_key (f : string -> W) (l : list (string * V)) :
  sortIndexed (map (keyed f) l) = map (keyed f) (sortIndexed l).
Proof.
  induction l as [|e l IH]; cbn [map sortIndexed fold_right]; auto.
  fold (sortIndexed (map (keyed f) l)). fold (sortIndexed l).
  now rewrite IH, insertIndexed_map_key.
Qed.

Lemma NoDup_keys_filter (p : string * V -> bool) (o : obj V) :
  NoDup (map fst o) -> NoDup (map fst (filter p o)).
Proof.
  induction o as [|e o IH]; cbn [map filter]; auto.
  intros Hnd. inversion Hnd as [|? ? Hn Hnd']; subst.
  destruct (p e); cbn [map]; auto. constructor; auto.
  intros Hin. apply Hn. apply in_map_iff in Hin.
  destruct Hin as (e' & <- & He'). apply filter_In in He'.
  apply in_map. tauto.
Qed.

Lemma entries_map_key (f : string -> W) (o : obj V) :
  entries (map (keyed f) o) = map (keyed f) (entries o).
Proof.
  unfold entries. rewrite !filter_map_comm. cbn [fst].
  now rewrite sortIndexed_map_key, map_app.
Qed.
End Keyed.

Section Blocks.
Variable tza : Z.
Variable implParse : string -> option Z.

Local Abbreviation hm rows := (hourMapOf tza implParse rows).
Local Abbreviation keyOf d := (hourKey tza implParse (row d)).
Local Abbreviation grp ds :=
  (fun k => filter (fun d => String.eqb (keyOf d) k) ds).
Local Abbreviation grouped ds :=
  (fun e : string * Z => (fst e, grp ds (fst e))).

Lemma groupStep_eq g d :
  groupStep tza implParse g d
  = setOwn g (keyOf d)
      (match getOwn g (keyOf d) with Some l => l | None => [] end ++ [d])%list.
Proof.
  unfold groupStep, hasOwn.
  destruct (getOwn g (keyOf d)) as [l|] eqn:G.
  - now rewrite G.
  - now rewrite getOwn_setOwn_same, setOwn_twice.
Qed.

(** The groups have the keys of the histogram, in the same order, and
    each holds the dictations of its hour in the order of the rows. *)
Lemma hourGroups_grouped ds :
  hourGroupsOf tza implParse ds = map (grouped ds) (hm (map row ds)).
Proof.
  induction ds as [|d ds IH] using rev_ind; [reflexivity|].
  unfold hourGroupsOf in *. rewrite fold_left_app. cbn [fold_left].
  rewrite IH, groupStep_eq, map_app. cbn [map].
  rewrite hourMapOf_snoc. unfold hourStep.
  rewrite (getOwn_map_key (fun k => grp ds k)).
  assert (Hold : match option_map (fun _ => grp ds (keyOf d))
                         (getOwn (hm (map row ds)) (keyOf d)) with
                 | Some l => l | None => [] end = grp ds (keyOf d)).
  { destruct (getOwn (hm (map row ds)) (keyOf d)) eqn:G; [reflexivity|].
    cbn [option_map]. symmetry. apply getOwn_None in G.
    apply PeakHour.filter_none. intros d' Hd'.
    apply String.eqb_neq. intros E. apply G.
    apply hourMap_keys_In. rewrite map_map. apply in_map_iff.
    exists d'. split; auto. }
  rewrite Hold.
  assert (Hnew : (grp ds (keyOf d) ++ [d])%list = grp (ds ++ [d]) (keyOf d)).
  { rewrite filter_app. cbn [filter]. now rewrite String.eqb_refl. }
  rewrite Hnew.
  apply (setOwn_map_key (fun k => grp ds k) (fun k => grp (ds ++ [d]) k)).
  - apply hourMap_keys_NoDup.
  - intros k' Hk. rewrite filter_app. cbn [filter].
    destruct (String.eqb (keyOf d) k') eqn:E.
    + apply String.eqb_eq in E. congruence.
    + apply app_nil_r.
Qed.

Lemma rows_of_hour ds h :
  0 <= h ->
  map row (grp ds (String_of_N (Z.to_N h)))
  = filter (atHour tza implParse h) (map row ds).
Proof.
  intros Hh. rewrite filter_map_comm. f_equal. apply filter_ext.
  intros d. now apply hourKey_eqb_atHour.
Qed.

Lemma rows_of_NaN ds :
  map row (grp ds "NaN")
  = filter (fun r => negb (parses tza implParse r)) (map row ds).
Proof.
  rewrite filter_map_comm. f_equal. apply filter_ext.
  intros d. apply Runs.hourKey_NaN.
Qed.

Lemma block_of_group k g :
  (label (blockOf (k, g)), count (blockOf (k, g)), words (blockOf (k, g)))
  = (formatHour (parseInt k), totalDictations (map row g),
     totalWords (map row g)).
Proof.
  unfold blockOf, totalDictations, totalWords. cbn [label count words fst snd].
  rewrite length_map. f_equal.
  generalize 0. induction g as [|d g IH]; intros acc; cbn [fold_left map]; auto.
Qed.

Lemma indexOr0_hour h : 0 <= h < 24 -> indexOr0 (String_of_N (Z.to_N h)) = Z.to_N h.
Proof.
  intros Hh. unfold indexOr0. rewrite arrayIndex_String_of_N; auto. lia.
Qed.

Lemma Number_hour h : 0 <= h -> Monthly.Number (String_of_N (Z.to_N h)) = Some h.
Proof.
  intros Hh. unfold Monthly.Number. rewrite digits_String_of_N.
  cbn [option_map]. f_equal. lia.
Qed.

Local Abbreviation keyText h := (String_of_N (Z.to_N h)).
Local Abbreviation byKey :=
  (fun a b : string =>
     match Monthly.Number a, Monthly.Number b with
     | Some x, Some y => x - y
     | _, _ => 0
     end <= 0).

Lemma hours_ascending {V} (c : Z -> V) hs :
  (forall h, In h hs -> 0 <= h < 24) ->
  StronglySorted ascIndex (map (fun h => (keyText h, c h)) hs) ->
  NoDup hs -> StronglySorted Z.lt hs.
Proof.
  induction hs as [|h hs IH]; intros Hr Hs Hnd; [constructor|].
  cbn [map] in Hs. inversion Hs as [|? ? Hs' Hall]; subst.
  inversion Hnd as [|? ? Hn Hnd']; subst.
  constructor.
  - apply IH; auto. intros x Hx. apply Hr. now right.
  - apply Forall_forall. intros x Hx.
    rewrite Forall_forall in Hall.
    specialize (Hall _ (in_map (fun h => (keyText h, c h)) _ _ Hx)).
    unfold ascIndex in Hall. cbn [fst] in Hall.
    rewrite !indexOr0_hour in Hall
      by (apply Hr; (now left) || (now right)).
    assert (h <> x) by congruence.
    pose proof (Hr h ltac:(now left)). pose proof (Hr x ltac:(now right)).
    lia.
Qed.

Lemma keys_in_order hs (tail : list string) :
  (forall h, In h hs -> 0 <= h) ->
  StronglySorted Z.lt hs ->
  tail = [] \/ tail = ["NaN"] ->
  Sorted byKey (map (fun h => keyText h) hs ++ tail)%list.
Proof.
  intros Hr Hs Ht. induction Hs as [|h hs Hs IH Hall]; cbn [map app].
  - destruct Ht as [-> | ->]; repeat constructor.
  - constructor; [apply IH; intros x Hx; apply Hr; now right|].
    destruct hs as [|x hs]; cbn [map app].
    + destruct Ht as [-> | ->]; constructor.
      rewrite Number_hour by (apply Hr; now left). cbn. lia.
    + constructor. rewrite !Number_hour
        by (apply Hr; (now left) || (right; now left)).
      inversion Hall; subst. lia.
Qed.

(** The timeline of the daily report follows the hour histogram.  Its
    blocks are those of the hours of the day that have rows, in ascending
    order and each once, followed by one block labelled [NaN PM] when some
    rows have an invalid timestamp.  Every block counts the rows of its
    hour and adds up their words.  The words are added in double
    precision: the statement is for rows whose words stay below 2^53 in
    total, in absolute value, where those additions are exact. *)
Theorem timeline_blocks_follow_the_hours :
  forall ds : list Dictation,
  wordsMass (map row ds) < 2 ^ 53 ->
  exists hs : list Z,
    StronglySorted Z.lt hs
    /\ (forall h, In h hs
                  <-> 0 < countRows (atHour tza implParse h) (map row ds))
    /\ map (fun b => (label b, count b, words b))
          (timelineBlocks tza implParse ds)
       = (map (fun h =>
                 (formatHour (Some h),
                  countRows (atHour tza implParse h) (map row ds),
                  totalWords (filter (atHour tza implParse h) (map row ds))))
            hs
          ++ (if 0 <? countRows (fun r => negb (parses tza implParse r))
                        (map row ds)
              then [("NaN PM",
                     countRows (fun r => negb (parses tza implParse r))
                       (map row ds),
                     totalWords
                       (filter (fun r => negb (parses tza implParse r))
                          (map row ds)))]
              else []))%list.
Proof.
  intros ds _. set (rows := map row ds).
  set (idx := sortIndexed (filter (fun e => isIndex (fst e)) (hm rows))).
  set (mk := fun h => (keyText h, countRows (atHour tza implParse h) rows)).
  set (hs := map (fun e : string * Z => Z.of_N (indexOr0 (fst e))) idx).
  assert (Hidx : forall e, In e idx <-> In e (hm rows) /\ isIndex (fst e) = true).
  { intros e. unfold idx. split.
    - intros He. apply (Permutation_in _ (sortIndexed_perm _)) in He.
      now apply filter_In in He.
    - intros He.
      apply (Permutation_in _ (Permutation_sym (sortIndexed_perm _))).
      now apply filter_In. }
  assert (Hhour : forall e, In e idx ->
            exists h, 0 <= h < 24 /\ e = mk h
                      /\ 0 < countRows (atHour tza implParse h) rows).
  { intros (k & c) He. apply Hidx in He. destruct He as (Hin & Hi).
    destruct (hourMap_entry_cases tza implParse rows k c Hin)
      as [(-> & _) | (h & Hh & -> & -> & Hp)]; [discriminate|].
    exists h. split; [lia|]. split; [reflexivity|exact Hp]. }
  assert (Hrange : forall h, In h hs -> 0 <= h < 24).
  { intros h Hh. apply in_map_iff in Hh. destruct Hh as (e & <- & He).
    destruct (Hhour e He) as (h' & Hh' & -> & _). cbn [mk fst].
    rewrite indexOr0_hour by auto. lia. }
  assert (Hmk : idx = map mk hs).
  { unfold hs. rewrite map_map. rewrite <- (map_id idx) at 1.
    apply map_ext_in. intros e He.
    destruct (Hhour e He) as (h' & Hh' & -> & _). cbn [mk fst].
    rewrite indexOr0_hour by auto. now rewrite Z2N.id by lia. }
  assert (Hsorted : StronglySorted Z.lt hs).
  { apply (hours_ascending
             (fun h => countRows (atHour tza implParse h) rows)); auto.
    - fold mk. rewrite <- Hmk. apply sortIndexed_asc.
    - apply (NoDup_map_inv (fun h => keyText h)).
      assert (Hk : map (fun h => keyText h) hs = map fst idx).
      { rewrite Hmk, map_map. reflexivity. }
      rewrite Hk. unfold idx.
      apply (Permutation_NoDup
               (Permutation_map fst (Permutation_sym (sortIndexed_perm _)))).
      apply NoDup_keys_filter, hourMap_keys_NoDup. }
  exists hs. split; [exact Hsorted|]. split.
  - intros h. split.
    + intros Hh. apply in_map_iff in Hh. destruct Hh as (e & <- & He).
      destruct (Hhour e He) as (h' & Hh' & -> & Hp). cbn [mk fst].
      rewrite indexOr0_hour by auto. now rewrite Z2N.id by lia.
    + intros Hp.
      assert (Hh : 0 <= h < 24).
      { apply countRows_pos in Hp. destruct Hp as (r & _ & Hr).
        unfold atHour in Hr.
        destruct (hourOf tza implParse r) as [h'|] eqn:Ho; [|discriminate].
        apply Z.eqb_eq in Hr. subst h'.
        assert (P : parses tza implParse r = true).
        { unfold hourOf in Ho. unfold parses.
          destruct (Date_parse tza implParse (timestamp r)); [reflexivity|discriminate]. }
        destruct (hourKey_parses tza implParse r P) as (h' & Ho' & Hh' & _).
        congruence. }
      apply in_map_iff. exists (mk h). cbn [mk fst].
      rewrite indexOr0_hour by auto. split; [lia|].
      apply Hidx. cbn [fst]. split; [|now apply isIndex_hour].
      pose proof (hourMap_at_hour tza implParse rows h ltac:(lia)) as Hv.
      unfold valueAt in Hv.
      destruct (getOwn (hm rows) (keyText h)) as [c|] eqn:G; [|lia].
      apply getOwn_In in G. now subst c.
  - unfold timelineBlocks.
    rewrite hourGroups_grouped, (entries_map_key (fun k => grp ds k)).
    unfold entries. fold rows. rewrite not_index_entries. fold idx.
    set (tailE := if 0 <? countRows (fun r => negb (parses tza implParse r)) rows
                  then [("NaN", countRows (fun r => negb (parses tza implParse r)) rows)]
                  else []).
    rewrite sort_in_order.
    2:{ apply (Sorted_by_key byKey). rewrite map_map. cbn [fst].
        rewrite map_app, Hmk, map_map. cbn [mk fst].
        apply keys_in_order; auto.
        - intros h Hh. apply Hrange in Hh. lia.
        - unfold tailE. destruct (0 <? _); auto. }
    rewrite !map_map, map_app. f_equal.
    + rewrite Hmk, map_map. apply map_ext_in. intros h Hh.
      apply Hrange in Hh. cbn [mk fst].
      rewrite block_of_group, rows_of_hour by lia.
      destruct (formatHour_facts h Hh) as (_ & -> & _). reflexivity.
    + unfold tailE. destruct (0 <? _); [|reflexivity]. cbn [map fst].
      now rewrite block_of_group, rows_of_NaN.
Qed.

End Blocks.

(** At [mixedDictations] in UTC: a block for 9 AM and a block [NaN PM]
    for the row of the Julian day number. *)
Lemma timeline_blocks_witness :
  exists hs : list Z,
    StronglySorted Z.lt hs
    /\ (forall h, In h hs
                  <-> 0 < countRows (atHour 0 Samples.strictParse h)
                            (map row Samples.mixedDictations))
    /\ map (fun b => (label b, count b, words b))
          (timelineBlocks 0 Samples.strictParse Samples.mixedDictations)
       = (map (fun h =>
                 (formatHour (Some h),
                  countRows (atHour 0 Samples.strictParse h)
                    (map row Samples.mixedDictations),
                  totalWords (filter (atHour 0 Samples.strictParse h)
                                (map row Samples.mixedDictations))))
            hs
          ++ (if 0 <? countRows
                        (fun r => negb (parses 0 Samples.strictParse r))
                        (map row Samples.mixedDictations)
              then [("NaN PM",
                     countRows
                       (fun r => negb (parses 0 Samples.strictParse r))
                       (map row Samples.mixedDictations),
                     totalWords
                       (filter
                          (fun r => negb (parses 0 Samples.strictParse r))
                          (map row Samples.mixedDictations)))]
              else []))%list.
Proof.
  apply (timeline_blocks_follow_the_hours 0 Samples.strictParse
           Samples.mixedDictations).
  vm_compute. reflexivity.
Defined.

Example timeline_of_mixedDictations :
  map (fun b => (label b, count b, words b))
    (timelineBlocks 0 Samples.strictParse Samples.mixedDictations)
  = [("9 AM", 1, 7); ("NaN PM", 1, 5)].
Proof. reflexivity. Qed.

Section Sums.
Variable tza : Z.
Variable implParse : string -> option Z.

Local Abbreviation sizeOf := (fun g : list Dictation => Z.of_nat (List.length g)).
Local Abbreviation wordsOf :=
  (fun g : list Dictation => fold_left (fun s d => s + numWordsOr0 (row d)) g 0).

Lemma groupStep_total (f : list Dictation -> Z) (w : Dictation -> Z) g d :
  f [] = 0 -> (forall l, f (l ++ [d])%list = f l + w d) ->
  total f (groupStep tza implParse g d) = total f g + w d.
Proof.
  intros H0 Hs. rewrite groupStep_eq, total_setOwn, Hs.
  destruct (getOwn g _); lia.
Qed.

Lemma hourGroups_total (f : list Dictation -> Z) (w : Dictation -> Z) ds :
  f [] = 0 -> (forall l d, f (l ++ [d])%list = f l + w d) ->
  total f (hourGroupsOf tza implParse ds) = sumZ (map w ds).
Proof.
  intros H0 Hs. induction ds as [|d ds IH] using rev_ind; [reflexivity|].
  unfold hourGroupsOf in *. rewrite fold_left_app. cbn [fold_left].
  rewrite (groupStep_total f w), IH, map_app, sumZ_app by auto.
  cbn [map sumZ fold_right]. lia.
Qed.

Lemma blocks_total (f : list Dictation -> Z) (get : Block -> Z) ds :
  (forall e, get (blockOf e) = f (snd e)) ->
  sumZ (map get (timelineBlocks tza implParse ds))
  = total f (hourGroupsOf tza implParse ds).
Proof.
  intros Hg. unfold timelineBlocks. rewrite map_map.
  rewrite (map_ext _ (fun e => f (snd e))) by exact Hg.
  change (total f (sort (byHourAsc) (entries (hourGroupsOf tza implParse ds)))
          = total f (hourGroupsOf tza implParse ds)).
  apply total_perm.
  eapply Permutation_trans; [apply sort_perm | apply entries_perm].
Qed.

(** The timeline accounts for every dictation of the day: the counts of
    its blocks add up to [totalDictations].  Their words add up to
    [totalWords] as long as the absolute values of the words of the rows
    stay below 2^53 in total, where the additions of the script are
    exact. *)
Theorem timeline_accounts_for_every_dictation :
  forall ds : list Dictation,
    sumZ (map count (timelineBlocks tza implParse ds))
    = totalDictations (map row ds)
    /\ (wordsMass (map row ds) < 2 ^ 53 ->
        sumZ (map words (timelineBlocks tza implParse ds))
        = totalWords (map row ds)).
Proof.
  intros ds. split; [|intros _].
  - rewrite (blocks_total sizeOf) by reflexivity.
    rewrite (hourGroups_total sizeOf (fun _ => 1)).
    + unfold totalDictations. now rewrite sumZ_ones, length_map.
    + reflexivity.
    + intros l d. rewrite length_app. cbn [List.length]. lia.
  - rewrite (blocks_total wordsOf) by reflexivity.
    rewrite (hourGroups_total wordsOf (fun d => numWordsOr0 (row d))).
    + unfold totalWords.
      induction ds as [|d ds IH] using rev_ind; [reflexivity|].
      rewrite !map_app, sumZ_app, fold_left_app, IH. cbn. lia.
    + reflexivity.
    + intros l d. now rewrite fold_left_app.
Qed.
End Sums.

(** At [mixedDictations] in UTC: two dictations and twelve words, in the
    blocks as in the totals. *)
Lemma timeline_accounts_witness :
  sumZ (map count
          (timelineBlocks 0 Samples.strictParse Samples.mixedDictations))
  = totalDictations (map row Samples.mixedDictations)
  /\ sumZ (map words
             (timelineBlocks 0 Samples.strictParse Samples.mixedDictations))
     = totalWords (map row Samples.mixedDictations).
Proof.
  destruct (timeline_accounts_for_every_dictation 0 Samples.strictParse
              Samples.mixedDictations) as (Hc & Hw).
  split; [exact Hc|]. apply Hw. vm_compute. reflexivity.
Defined.

End TimelineFacts.

(* ================================================================== *)
(** ** Rows with invalid timestamps *)
(* ================================================================== *)

Module InvalidRows.
Import JS Date Recap Spec Terms Transcripts JSFacts RecapFacts DayFacts
       TranscriptFacts.

(** C7, as the code has it.  No script skips a row whose timestamp is not
    a valid date.  Such a row counts in [totalDictations] and in its
    application's bucket like any other, and in [totalWords], which is
    the sum of the words of all rows as long as their absolute values
    stay below 2^53 in total; the hour histogram counts it under the key
    "NaN"; the day map of the weekly and the monthly script counts it
    under the first ten characters of its timestamp; and the daily
    script, its loop over [transcriptsByApp] included, goes on to its
    report with every row counted, unless a row resolves to the name of a
    member of [Object.prototype]. *)
Theorem rows_with_invalid_timestamps_are_counted :
  forall (tza : Z) (implParse : string -> option Z) (rows : list Row),
    totalDictations rows = Z.of_nat (List.length rows)
    /\ (wordsMass rows < 2 ^ 53 ->
        totalWords rows = sumZ (map numWordsOr0 rows))
    /\ (forall name, inherited name = false ->
          bucketCount (appsSorted rows) name = countRows (named name) rows)
    /\ valueAt (hourMapOf tza implParse rows) "NaN"
       = countRows (fun r => negb (parses tza implParse r)) rows
    /\ (forall dm key, dayMapOf rows = Some dm -> inherited key = false ->
          dayCountAt dm key = countRows (onDay key) rows)
    /\ (forall flagHTML targetDate query,
          map row (query targetDate) = rows -> rows <> [] ->
          (forall r, In r rows -> inherited (resolvedName r) = false) ->
          exists d,
            reported (daily tza implParse flagHTML targetDate true query)
            = Some d
            /\ Daily.totalDictations d = Z.of_nat (List.length rows)
            /\ Daily.peakHour d = peakHour tza implParse rows).
Proof.
  intros tza implParse rows.
  split; [reflexivity|].
  split; [intros _; apply Runs.totalWords_sum|].
  split; [apply AppBreakdown.appsSorted_bucketCount|].
  split.
  { rewrite hourMap_valueAt. apply countRows_ext.
    intros r _. apply Runs.hourKey_NaN. }
  split; [intros dm key; apply dayMap_dayCountAt|].
  intros flagHTML targetDate query Hq Hne Hplain.
  exists (Daily.aggregate tza implParse targetDate rows).
  split; [|repeat split].
  unfold daily. rewrite thenTranscripts_passes.
  - unfold Daily.main. cbn [negb]. cbv beta zeta. rewrite Hq.
    destruct (List.length rows =? 0)%nat eqn:E.
    + apply Runs.length_zero_iff in E. contradiction.
    + now destruct flagHTML.
  - intros Hn. apply transcripts_spec_none in Hn.
    destruct Hn as (d & Hd & Hi).
    rewrite (Hplain (row d)) in Hi; [discriminate|].
    rewrite <- Hq. now apply in_map.
Qed.

(** At [mixedRows] and [mixedDictations]: the invalid row is one of the
    two dictations, its words are in the total, it is the one row under
    "NaN", and the daily script reports. *)
Lemma rows_with_invalid_timestamps_witness :
  totalDictations Samples.mixedRows = 2
  /\ totalWords Samples.mixedRows
     = sumZ (map numWordsOr0 Samples.mixedRows)
  /\ valueAt (hourMapOf 0 Samples.strictParse Samples.mixedRows) "NaN" = 1
  /\ bucketCount (appsSorted Samples.mixedRows) "Safari" = 2
  /\ exists d,
       reported (daily 0 Samples.strictParse false "2026-01-01" true
                   (fun _ => Samples.mixedDictations)) = Some d
       /\ Daily.totalDictations d
          = Z.of_nat (List.length Samples.mixedRows)
       /\ Daily.peakHour d = peakHour 0 Samples.strictParse Samples.mixedRows.
Proof.
  destruct (rows_with_invalid_timestamps_are_counted
              0 Samples.strictParse Samples.mixedRows)
    as (Ht & Hw & Hb & Hn & _ & Hrun).
  split; [exact Ht|].
  split; [apply Hw; vm_compute; reflexivity|].
  split; [exact Hn|].
  split; [exact (Hb "Safari" eq_refl)|].
  apply (Hrun false "2026-01-01" (fun _ => Samples.mixedDictations)).
  - reflexivity.
  - discriminate.
  - intros r [<- | [<- | []]]; reflexivity.
Defined.

(** C7, as the specification has it, fails.  The query of the daily
    script for 2026-01-01 returns [mixedRows]; the timestamp of [badRow]
    is no date for [new Date].  Were the row skipped, the daily data
    would be that of [goodRow] alone; it is not: the row is the second
    dictation of the report, it is in the Safari bucket, and it has a
    bucket of its own in the hour histogram. *)
Lemma invalid_timestamp_row_not_skipped :
  parses 0 Samples.strictParse Samples.badRow = false
  /\ filter (parses 0 Samples.strictParse) Samples.mixedRows
     = [Samples.goodRow]
  /\ reported (daily 0 Samples.strictParse false "2026-01-01" true
                 (fun _ => Samples.mixedDictations))
     = Some (Daily.aggregate 0 Samples.strictParse "2026-01-01"
               Samples.mixedRows)
  /\ Daily.aggregate 0 Samples.strictParse "2026-01-01" Samples.mixedRows
     <> Daily.aggregate 0 Samples.strictParse "2026-01-01" [Samples.goodRow]
  /\ Daily.totalDictations
       (Daily.aggregate 0 Samples.strictParse "2026-01-01" Samples.mixedRows)
     = 2
  /\ hourMapOf 0 Samples.strictParse Samples.mixedRows
     = [("9", 1); ("NaN", 1)]
  /\ map (fun e => (fst e, count (snd e))) (appsSorted Samples.mixedRows)
     = [("Safari", 2)].
Proof.
  repeat split. intros H.
  apply (f_equal Daily.totalDictations) in H. discriminate H.
Qed.

End InvalidRows.
